(** * Single-user rotation of an RDS PostgreSQL credential

    A shallow embedding of
    [SecretsManagerRDSPostgreSQLRotationSingleUser/lambda_function.py]
    and the properties of its rotation steps.

    The Lambda talks to three collaborators: the secrets vault (boto3's
    Secrets Manager client), the managed-database directory (boto3's RDS
    client) and the PostgreSQL driver (PyGreSQL's [pgdb]).  The vault is a
    concrete store; the directory and the database server are arbitrary
    state machines behind an interface, so that every theorem below holds
    for every behaviour of the server. *)

From Stdlib Require Import ZArith Ascii String List Bool Lia.
From stdpp Require Import base option list gmap strings fin_maps.

Local Open Scope string_scope.
Local Open Scope list_scope.
Local Open Scope Z_scope.

(** ** Python values held in a secret's JSON document *)

(** The fields of a secret are JSON scalars: [null], a boolean, an integer
    or a string.  Nested arrays and objects and floating-point numbers do
    not occur in the schema the Lambda documents and are not modelled. *)
Inductive pyval : Type :=
  | PNone
  | PBool (b : bool)
  | PInt (z : Z)
  | PStr (s : string).

#[global] Instance pyval_eq_dec : EqDecision pyval.
Proof. solve_decision. Defined.

(** A secret dictionary: the [dict] that [json.loads] returns. *)
Abbreviation dict := (gmap string pyval).

(** Python truthiness, as used by [if x:] and [not x]. *)
Definition truthy (v : pyval) : bool :=
  match v with
  | PNone => false
  | PBool b => b
  | PInt z => negb (z =? 0)
  | PStr s => negb (String.eqb s "")
  end.

(** [d.get(k)] in a boolean position: an absent key gives [None]. *)
Definition get_truthy (d : dict) (k : string) : bool :=
  match d !! k with
  | Some v => truthy v
  | None => false
  end.

(** Python [==] on scalars.  [bool] is a subclass of [int], so [True == 1]. *)
Definition py_eq (a b : pyval) : bool :=
  match a, b with
  | PNone, PNone => true
  | PBool x, PBool y => Bool.eqb x y
  | PBool x, PInt z | PInt z, PBool x => z =? Z.b2z x
  | PInt x, PInt y => x =? y
  | PStr x, PStr y => String.eqb x y
  | _, _ => false
  end.

(** [str.lower()].  Strings are byte strings in UTF-8; only the ASCII
    capitals are mapped.  No character outside ASCII lower-cases to one of
    the letters of ["true"] or ["false"], so the comparisons of
    [get_ssl_config] see exactly what Python sees. *)
Definition ascii_lower (c : ascii) : ascii :=
  let n := nat_of_ascii c in
  if (65 <=? n)%nat && (n <=? 90)%nat then ascii_of_nat (n + 32) else c.

Fixpoint lower (s : string) : string :=
  match s with
  | EmptyString => EmptyString
  | String c r => String (ascii_lower c) (lower r)
  end.

(** [s.split(".")[0]]: the text before the first dot. *)
Fixpoint first_label (s : string) : string :=
  match s with
  | EmptyString => EmptyString
  | String c r => if Ascii.eqb c "."%char then EmptyString else String c (first_label r)
  end.

(** ** [get_ssl_config] *)

(** Returns [(use_ssl, fall_back)]. *)
Definition get_ssl_config (secret_dict : dict) : bool * bool :=
  match secret_dict !! "ssl" with
  | None => (true, true)
  | Some (PBool b) => (b, false)
  | Some (PStr s) =>
      let ssl := lower s in
      if String.eqb ssl "true" then (true, false)
      else if String.eqb ssl "false" then (false, false)
      else (true, true)
  | Some _ => (true, true)
  end.

(** Two strings are equal ignoring case when they have the same length and
    agree letter by letter up to the case of ASCII letters. *)
Fixpoint eq_ignore_case (s t : string) : Prop :=
  match s, t with
  | EmptyString, EmptyString => True
  | String a s', String b t' => ascii_lower a = ascii_lower b /\ eq_ignore_case s' t'
  | _, _ => False
  end.

(** ** Exceptions *)

(** The [ValueError]s of the Lambda, one constructor per [raise] site (its
    message in the source is quoted), together with the two raised by
    Python itself ([json.loads] and [int]). *)
Inductive value_error : Type :=
  | NotValidJson                          (* json.loads *)
  | InvalidIntLiteral                     (* int(secret_dict['port']) *)
  | OtherThanCurrentUser (pending current : pyval)
      (* "Attempting to modify user %s other than current user %s" *)
  | OtherThanCurrentHost (pending current : pyval)
      (* "Attempting to modify user for host %s other than current host %s" *)
  | OtherThanPreviousUser (pending previous : pyval)
      (* "Attempting to modify user %s other than previous valid user %s" *)
  | OtherThanPreviousHost (pending previous : pyval)
      (* "Attempting to modify user for host %s other than current previous valid %s" *)
  | UnableToLogIn (arn : string)
      (* "Unable to log into database with previous, current, or pending secret of secret arn %s" *)
  | UnableToLogInPending (arn : string)
      (* "Unable to log into database with pending secret of secret ARN %s" *)
  | NotSameHostOrReplica (host master_host : pyval)
      (* "Current database host %s is not the same host as/rds replica of master %s" *)
  | UnableToLogInMaster (master_arn : pyval).
      (* "Unable to log into database using credentials in master secret %s" *)

Inductive exn : Type :=
  | ResourceNotFoundException
  | ResourceExistsException
  | InvalidParameterException
  | ParamValidationError
  | KeyError (msg : string)
  | ValueError (v : value_error)
  | TypeError
  | AttributeError
  | IndexError
  | PgInternalError (msg : string)        (* pg.InternalError *)
  | PgError (cls : string).               (* any other exception of the driver *)

(** The error kinds of the design, for the errors the Lambda raises itself. *)
Inductive error_kind : Type :=
  NotFound | SchemaError | PolicyViolation | AuthFailure.

Definition kind_of (e : exn) : option error_kind :=
  match e with
  | ResourceNotFoundException => Some NotFound
  | KeyError _ => Some SchemaError
  | ValueError NotValidJson => Some SchemaError
  | ValueError (OtherThanCurrentUser _ _) | ValueError (OtherThanCurrentHost _ _)
  | ValueError (OtherThanPreviousUser _ _) | ValueError (OtherThanPreviousHost _ _)
  | ValueError (NotSameHostOrReplica _ _) => Some PolicyViolation
  | ValueError (UnableToLogIn _) | ValueError (UnableToLogInPending _)
  | ValueError (UnableToLogInMaster _) => Some AuthFailure
  | _ => None
  end.

Inductive result (A : Type) : Type :=
  | Ok (a : A)
  | Raise (e : exn).
Arguments Ok {A} a.
Arguments Raise {A} e.

(** ** The vault *)

(** A [SecretString]: either text that [json.loads] rejects, or a JSON
    object. *)
Inductive secret_string : Type :=
  | NotJson
  | Json (d : dict).

#[global] Instance secret_string_eq_dec : EqDecision secret_string.
Proof. solve_decision. Defined.

(** A version of a secret: its staging labels and, once a value was put,
    its [SecretString].  Rotation starts with a version that is staged
    [AWSPENDING] and has no value yet. *)
Record secret_version : Type := {
  sv_stages : list string;
  sv_string : option secret_string
}.

(** A secret: [RotationEnabled] (when reported) and [VersionIdsToStages]
    with the values, in the order [describe_secret] lists the versions. *)
Record secret : Type := {
  s_rotation_enabled : option bool;
  s_versions : list (string * secret_version)
}.

Definition has_stage (stage : string) (v : secret_version) : bool :=
  bool_decide (stage ∈ sv_stages v).

Fixpoint find_version (vid : string) (vs : list (string * secret_version))
  : option secret_version :=
  match vs with
  | [] => None
  | (k, v) :: r => if String.eqb k vid then Some v else find_version vid r
  end.

Fixpoint find_staged (stage : string) (vs : list (string * secret_version))
  : option (string * secret_version) :=
  match vs with
  | [] => None
  | (k, v) :: r => if has_stage stage v then Some (k, v) else find_staged stage r
  end.

(** ** The database driver and the directory *)

(** The arguments of one [pgdb.connect] call.  [cp_ssl] tells the call
    with [sslmode='verify-full'] and the root certificate from the one
    without; [connect_timeout=5] is passed by both. *)
Record conn_params : Type := {
  cp_host : pyval;
  cp_user : pyval;
  cp_password : pyval;
  cp_database : pyval;
  cp_port : Z;
  cp_ssl : bool
}.

(** An open [pgdb.Connection]. *)
Record session : Type := {
  sid : nat;
  s_params : conn_params
}.

(** One entry of [DBInstances]. *)
Record db_instance : Type := {
  ReadReplicaSourceDBInstanceIdentifier : option string
}.

(** The collaborators the Lambda does not implement.  The server is a state
    machine over [DB]: [pgdb_connect] opens a session or raises (PyGreSQL
    raises [pg.InternalError] when libpq cannot connect or authenticate);
    [cur_execute] runs a statement with its arguments and gives the rows,
    in text form, or raises; [conn_commit] may raise; [conn_close] does
    not.  [describe_db_instances] is the directory lookup by instance
    identifier ([None] when the call raises), [get_random_password] the
    n-th password the vault draws for a set of excluded characters, and
    [int_of_str] is Python's [int] on a [str]. *)
Record Env (DB : Type) : Type := {
  pgdb_connect : conn_params -> DB -> option exn * DB;
  cur_execute : session -> string -> list pyval -> DB -> (exn + list (list string)) * DB;
  conn_commit : session -> DB -> option exn * DB;
  conn_close : session -> DB -> DB;
  describe_db_instances : string -> option (list db_instance);
  get_random_password : string -> nat -> string;
  int_of_str : string -> option Z
}.
Arguments pgdb_connect {DB} _ _ _.
Arguments cur_execute {DB} _ _ _ _ _.
Arguments conn_commit {DB} _ _ _.
Arguments conn_close {DB} _ _ _.
Arguments describe_db_instances {DB} _ _.
Arguments get_random_password {DB} _ _ _.
Arguments int_of_str {DB} _ _.

(** What the Lambda does to the outside, in order. *)
Inductive event : Type :=
  | EvConnect (p : conn_params) (opened : option nat)
  | EvExecute (s : nat) (sql : string) (args : list pyval)
  | EvCommit (s : nat)
  | EvClose (s : nat)
  | EvDescribeInstances (id : string)
  | EvPutSecretValue (arn token : string) (value : secret_string) (stages : list string)
  | EvUpdateStage (arn stage move_to : string) (remove_from : option string).

(** The world a step runs in: the vault, [os.environ], the server, the
    number of sessions opened so far and those still open, the number of
    passwords drawn, and the trace. *)
Record world (DB : Type) : Type := {
  w_vault : gmap string secret;
  w_environ : gmap string string;
  w_db : DB;
  w_opened : nat;
  w_open : list nat;
  w_drawn : nat;
  w_trace : list event
}.
Arguments w_vault {DB} _.
Arguments w_environ {DB} _.
Arguments w_db {DB} _.
Arguments w_opened {DB} _.
Arguments w_open {DB} _.
Arguments w_drawn {DB} _.
Arguments w_trace {DB} _.

(** ** The monad of the Lambda: state and exceptions *)

Section Monad.
Context {DB : Type}.

(** A computation runs in a world and either returns or raises; the
    changes made before an exception stay. *)
Definition M (A : Type) : Type := world DB -> result A * world DB.

Definition ret {A} (a : A) : M A := fun w => (Ok a, w).

Definition raise {A} (e : exn) : M A := fun w => (Raise e, w).

Definition bind {A B} (m : M A) (k : A -> M B) : M B :=
  fun w => match m w with
           | (Ok a, w') => k a w'
           | (Raise e, w') => (Raise e, w')
           end.

(** [try: m except <classes h accepts>: handler]. *)
Definition try_except {A} (m : M A) (h : exn -> option (M A)) : M A :=
  fun w => match m w with
           | (Ok a, w') => (Ok a, w')
           | (Raise e, w') =>
               match h e with
               | Some handler => handler w'
               | None => (Raise e, w')
               end
           end.

(** [try: m finally: fin]. *)
Definition try_finally {A} (m : M A) (fin : M unit) : M A :=
  fun w => match m w with
           | (r, w') =>
               match fin w' with
               | (Ok _, w'') => (r, w'')
               | (Raise e, w'') => (Raise e, w'')
               end
           end.

End Monad.
Arguments M : clear implicits.

Declare Scope py_scope.
Delimit Scope py_scope with py.
Notation "x ← y ; z" := (bind y (fun x => z))
  (at level 20, y at level 100, z at level 200, only parsing) : py_scope.
Notation "x ;; z" := (bind x (fun _ => z))
  (at level 100, z at level 200, only parsing, right associativity) : py_scope.
Local Open Scope py_scope.

Section Lambda.
Context {DB : Type} (E : Env DB).

(** Updates of one field of the world. *)
Definition set_trace (t : list event) (w : world DB) : world DB :=
  {| w_vault := w_vault w; w_environ := w_environ w; w_db := w_db w;
     w_opened := w_opened w; w_open := w_open w; w_drawn := w_drawn w;
     w_trace := t |}.

Definition set_db (d : DB) (w : world DB) : world DB :=
  {| w_vault := w_vault w; w_environ := w_environ w; w_db := d;
     w_opened := w_opened w; w_open := w_open w; w_drawn := w_drawn w;
     w_trace := w_trace w |}.

Definition set_vault (v : gmap string secret) (w : world DB) : world DB :=
  {| w_vault := v; w_environ := w_environ w; w_db := w_db w;
     w_opened := w_opened w; w_open := w_open w; w_drawn := w_drawn w;
     w_trace := w_trace w |}.

Definition set_open (n : nat) (o : list nat) (w : world DB) : world DB :=
  {| w_vault := w_vault w; w_environ := w_environ w; w_db := w_db w;
     w_opened := n; w_open := o; w_drawn := w_drawn w;
     w_trace := w_trace w |}.

Definition set_drawn (n : nat) (w : world DB) : world DB :=
  {| w_vault := w_vault w; w_environ := w_environ w; w_db := w_db w;
     w_opened := w_opened w; w_open := w_open w; w_drawn := n;
     w_trace := w_trace w |}.

(** Appends an event to the trace. *)
Definition emit (ev : event) : M DB unit :=
  fun w => (Ok tt, set_trace (w_trace w ++ [ev]) w).

(** [d[k]]: a missing key raises [KeyError]. *)
Definition subscript (d : dict) (k : string) : M DB pyval :=
  match d !! k with
  | Some v => ret v
  | None => raise (KeyError k)
  end.

(** [int(v)]. *)
Definition py_int (v : pyval) : M DB Z :=
  match v with
  | PInt z => ret z
  | PBool b => ret (Z.b2z b)
  | PStr s =>
      match int_of_str E s with
      | Some z => ret z
      | None => raise (ValueError InvalidIntLiteral)
      end
  | PNone => raise TypeError
  end.

(** [v.split(".")[0]]: only a [str] has [split]. *)
Definition split_first (v : pyval) : M DB string :=
  match v with
  | PStr s => ret (first_label s)
  | _ => raise AttributeError
  end.

(** *** The vault client *)

(** [describe_secret(SecretId=arn)]. *)
Definition describe_secret (arn : string) : M DB secret :=
  fun w => match w_vault w !! arn with
           | Some s => (Ok s, w)
           | None => (Raise ResourceNotFoundException, w)
           end.

(** [get_secret_value]: the version that carries [stage] and, when a
    [VersionId] is given, is that version; a version without a value is
    not found.  A [SecretId] that is not a string is refused by the
    client. *)
Definition get_secret_value (arn : pyval) (version_id : option string) (stage : string)
  : M DB secret_string :=
  match arn with
  | PStr a =>
      fun w =>
        match w_vault w !! a with
        | None => (Raise ResourceNotFoundException, w)
        | Some s =>
            let found :=
              match version_id with
              | Some t =>
                  match find_version t (s_versions s) with
                  | Some v => if has_stage stage v then sv_string v else None
                  | None => None
                  end
              | None =>
                  match find_staged stage (s_versions s) with
                  | Some (_, v) => sv_string v
                  | None => None
                  end
              end in
            match found with
            | Some str => (Ok str, w)
            | None => (Raise ResourceNotFoundException, w)
            end
        end
  | _ => raise ParamValidationError
  end.

Definition without_stages (stages : list string) (v : secret_version) : secret_version :=
  {| sv_stages := filter (fun s => s ∉ stages) (sv_stages v); sv_string := sv_string v |}.

Definition with_stages (stages : list string) (v : secret_version) : secret_version :=
  {| sv_stages := sv_stages v ++ filter (fun s => s ∉ sv_stages v) stages;
     sv_string := sv_string v |}.

(** The versions after a value was stored as version [token] under
    [stages]: the labels leave the other versions. *)
Definition put_version (token : string) (value : secret_string) (stages : list string)
    (vs : list (string * secret_version)) : list (string * secret_version) :=
  match find_version token vs with
  | Some _ =>
      map (fun kv =>
             if String.eqb (fst kv) token
             then (fst kv, {| sv_stages := sv_stages (with_stages stages (snd kv));
                              sv_string := Some value |})
             else (fst kv, without_stages stages (snd kv))) vs
  | None =>
      map (fun kv => (fst kv, without_stages stages (snd kv))) vs
        ++ [(token, {| sv_stages := stages; sv_string := Some value |})]
  end.

(** [put_secret_value]: stores [value] as version [token] and attaches
    [stages] to it.  Putting the value a version already has changes
    nothing; putting another value on a version that has one is refused. *)
Definition put_secret_value (arn token : string) (value : secret_string)
    (stages : list string) : M DB unit :=
  emit (EvPutSecretValue arn token value stages);;
  fun w =>
    match w_vault w !! arn with
    | None => (Raise ResourceNotFoundException, w)
    | Some s =>
        match find_version token (s_versions s) with
        | Some {| sv_string := Some old |} =>
            if decide (old = value) then (Ok tt, w) else (Raise ResourceExistsException, w)
        | _ =>
            (Ok tt,
             set_vault (<[arn := {| s_rotation_enabled := s_rotation_enabled s;
                                    s_versions := put_version token value stages
                                                    (s_versions s) |}]> (w_vault w)) w)
        end
    end.

(** The versions after [stage] moved to [move_to]. *)
Definition move_stage (stage move_to : string) (remove_from : option string)
    (vs : list (string * secret_version)) : list (string * secret_version) :=
  map (fun kv =>
         if String.eqb (fst kv) move_to then (fst kv, with_stages [stage] (snd kv))
         else if decide (Some (fst kv) = remove_from)
              then (fst kv, without_stages [stage] (snd kv))
              else kv) vs.

(** [update_secret_version_stage]: moves [stage] to [move_to].  The
    version that carries the label now has to be named by [remove_from];
    the client refuses [RemoveFromVersionId=None], as it refuses every
    argument that is not a string.  (The vault relabels [AWSPREVIOUS] on
    its own when [AWSCURRENT] moves; the other labels are left as they
    are here.) *)
Definition update_secret_version_stage (arn stage move_to : string)
    (remove_from : option string) : M DB unit :=
  emit (EvUpdateStage arn stage move_to remove_from);;
  fun w =>
    match w_vault w !! arn with
    | None => (Raise ResourceNotFoundException, w)
    | Some s =>
        match find_version move_to (s_versions s) with
        | None => (Raise ResourceNotFoundException, w)
        | Some _ =>
            if decide (remove_from = None) then (Raise ParamValidationError, w)
            else if decide (fst <$> find_staged stage (s_versions s) = remove_from) then
              (Ok tt,
               set_vault (<[arn := {| s_rotation_enabled := s_rotation_enabled s;
                                      s_versions := move_stage stage move_to remove_from
                                                      (s_versions s) |}]> (w_vault w)) w)
            else (Raise InvalidParameterException, w)
        end
    end.

(** [get_random_password(ExcludeCharacters=exclude)['RandomPassword']]. *)
Definition random_password (exclude : string) : M DB string :=
  fun w => (Ok (get_random_password E exclude (w_drawn w)), set_drawn (S (w_drawn w)) w).

(** [os.environ[k] if k in os.environ else dflt]. *)
Definition environ_get (k dflt : string) : M DB string :=
  fun w => (Ok (default dflt (w_environ w !! k)), w).

(** *** The driver *)

(** One [pgdb.connect] call. *)
Definition connect (p : conn_params) : M DB session :=
  fun w =>
    match pgdb_connect E p (w_db w) with
    | (None, db') =>
        let n := w_opened w in
        (Ok {| sid := n; s_params := p |},
         set_trace (w_trace w ++ [EvConnect p (Some n)])
           (set_open (S n) (n :: w_open w) (set_db db' w)))
    | (Some e, db') =>
        (Raise e, set_trace (w_trace w ++ [EvConnect p None]) (set_db db' w))
    end.

(** [cur.execute(sql, args)]; the rows are what [fetchone]/[fetchall]
    read afterwards. *)
Definition execute (conn : session) (sql : string) (args : list pyval)
  : M DB (list (list string)) :=
  emit (EvExecute (sid conn) sql args);;
  fun w =>
    match cur_execute E conn sql args (w_db w) with
    | (inr rows, db') => (Ok rows, set_db db' w)
    | (inl e, db') => (Raise e, set_db db' w)
    end.

(** [cur.fetchone()[0]]: [fetchone] gives [None] when there is no row. *)
Definition fetchone_0 (rows : list (list string)) : M DB string :=
  match rows with
  | [] => raise TypeError
  | [] :: _ => raise IndexError
  | (c :: _) :: _ => ret c
  end.

(** [conn.commit()]. *)
Definition commit (conn : session) : M DB unit :=
  emit (EvCommit (sid conn));;
  fun w =>
    match conn_commit E conn (w_db w) with
    | (None, db') => (Ok tt, set_db db' w)
    | (Some e, db') => (Raise e, set_db db' w)
    end.

(** [conn.close()]. *)
Definition close (conn : session) : M DB unit :=
  fun w =>
    (Ok tt,
     set_trace (w_trace w ++ [EvClose (sid conn)])
       (set_open (w_opened w) (filter (fun n => n ≠ sid conn) (w_open w))
          (set_db (conn_close E conn (w_db w)) w))).

(** ** The helpers of the Lambda *)

(** *** [connect_and_authenticate] *)

(** The keyword arguments of [pgdb.connect], read from the secret in the
    order the call lists them. *)
Definition connect_args (secret_dict : dict) (port : Z) (dbname : pyval) (ssl : bool)
  : M DB conn_params :=
  host ← subscript secret_dict "host";
  user ← subscript secret_dict "username";
  password ← subscript secret_dict "password";
  ret {| cp_host := host; cp_user := user; cp_password := password;
         cp_database := dbname; cp_port := port; cp_ssl := ssl |}.

(** The second [try] of [connect_and_authenticate], the one that runs when
    [use_ssl] is false: only [pg.InternalError] is caught. *)
Definition connect_without_ssl (secret_dict : dict) (port : Z) (dbname : pyval)
  : M DB (option session) :=
  try_except
    (p ← connect_args secret_dict port dbname false;
     conn ← connect p;
     ret (Some conn))
    (fun e => match e with
              | PgInternalError _ => Some (ret None)
              | _ => None
              end).

(** With [use_ssl] the first [try] runs; its [except Exception] calls
    [connect_and_authenticate] again with [use_ssl=False], which is
    [connect_without_ssl]. *)
Definition connect_and_authenticate (secret_dict : dict) (port : Z) (dbname : pyval)
    (use_ssl : bool) : M DB (option session) :=
  if use_ssl then
    try_except
      (p ← connect_args secret_dict port dbname true;
       conn ← connect p;
       ret (Some conn))
      (fun _ => Some (connect_without_ssl secret_dict port dbname))
  else connect_without_ssl secret_dict port dbname.

(** *** [get_connection] *)

(** [if conn:] for a connection or [None]. *)
Definition connected (conn : option session) : bool :=
  match conn with
  | Some _ => true
  | None => false
  end.

Definition get_connection (secret_dict : dict) : M DB (option session) :=
  port ← match secret_dict !! "port" with
         | Some v => py_int v
         | None => ret 5432
         end;
  let dbname := match secret_dict !! "dbname" with
                | Some v => v
                | None => PStr "postgres"
                end in
  let '(use_ssl, fall_back) := get_ssl_config secret_dict in
  conn ← connect_and_authenticate secret_dict port dbname use_ssl;
  if connected conn || negb fall_back then ret conn
  else connect_and_authenticate secret_dict port dbname false.

(** *** [get_secret_dict] *)

Definition required_fields : list string := ["host"; "username"; "password"; "engine"].

Definition supported_engines : list pyval := [PStr "postgres"; PStr "aurora-postgresql"].

Definition json_loads (plaintext : secret_string) : M DB dict :=
  match plaintext with
  | Json d => ret d
  | NotJson => raise (ValueError NotValidJson)
  end.

(** The loop over [required_fields]. *)
Fixpoint check_required (fields : list string) (secret_dict : dict) : M DB unit :=
  match fields with
  | [] => ret tt
  | field :: rest =>
      match secret_dict !! field with
      | None => raise (KeyError (String.append field " key is missing from secret JSON"))
      | Some _ => check_required rest secret_dict
      end
  end.

(** [if token:] holds for a token that is a non-empty string. *)
Definition token_given (token : option string) : option string :=
  match token with
  | Some t => if String.eqb t "" then None else Some t
  | None => None
  end.

Definition get_secret_dict (arn : pyval) (stage : string) (token : option string)
    (master_secret : bool) : M DB dict :=
  plaintext ← get_secret_value arn (token_given token) stage;
  secret_dict ← json_loads plaintext;
  (if negb master_secret then
     check_required required_fields secret_dict;;
     engine ← subscript secret_dict "engine";
     if existsb (py_eq engine) supported_engines then ret tt
     else raise (KeyError
       "Database engine must be set to 'postgres' in order to use this rotation lambda")
   else ret tt);;
  ret secret_dict.

(** *** [is_rds_replica_database] *)

Definition is_rds_replica_database (replica_dict master_dict : dict) : M DB bool :=
  replica_host ← subscript replica_dict "host";
  replica_instance_id ← split_first replica_host;
  master_host ← subscript master_dict "host";
  master_instance_id ← split_first master_host;
  emit (EvDescribeInstances replica_instance_id);;
  match describe_db_instances E replica_instance_id with
  | None => ret false
  | Some [] => ret false
  | Some (current_instance :: _) =>
      ret (bool_decide (Some master_instance_id
                        = ReadReplicaSourceDBInstanceIdentifier current_instance))
  end.

(** *** [create_user_if_not_exists] *)

(** [for key, value in secret_dict.items(): if not master_dict.get(key):
    master_dict[key] = value].  Each round reads and writes the entry of
    its own key only, so the order of the rounds does not show. *)
Definition backfill (secret_dict master_dict : dict) : dict :=
  map_fold (fun key value (master_dict : dict) =>
              if get_truthy master_dict key then master_dict
              else <[key := value]> master_dict)
           master_dict secret_dict.

(** [secret_dict.get('dbname', None)]. *)
Definition child_dbname (secret_dict : dict) : pyval :=
  match secret_dict !! "dbname" with
  | Some v => v
  | None => PNone
  end.

(** Lines 526-532: the backfill, then
    [master_dict['dbname'] = secret_dict.get('dbname', None)]. *)
Definition complete_master_dict (secret_dict master_dict : dict) : dict :=
  let master_dict := backfill secret_dict master_dict in
  <["dbname" := child_dbname secret_dict]> master_dict.

Definition create_user_if_not_exists (secret_dict : dict) : M DB bool :=
  if get_truthy secret_dict "masterarn" then
    master_arn ← subscript secret_dict "masterarn";
    master_dict ← get_secret_dict master_arn "AWSCURRENT" None true;
    let master_dict := complete_master_dict secret_dict master_dict in
    host ← subscript secret_dict "host";
    master_host ← subscript master_dict "host";
    (if negb (py_eq host master_host) then
       is_replica ← is_rds_replica_database secret_dict master_dict;
       if negb is_replica
       then raise (ValueError (NotSameHostOrReplica host master_host))
       else ret tt
     else ret tt);;
    conn ← get_connection master_dict;
    match conn with
    | None => raise (ValueError (UnableToLogInMaster master_arn))
    | Some conn =>
        try_finally
          (username ← subscript secret_dict "username";
           rows ← execute conn "SELECT quote_ident(%s)" [username];
           current_username ← fetchone_0 rows;
           username ← subscript secret_dict "username";
           rows ← execute conn "SELECT 1 FROM pg_roles where rolname = %s" [username];
           user_created ←
             (if (length rows =? 0)%nat then
                password ← subscript secret_dict "password";
                execute conn
                  (String.append (String.append "CREATE ROLE " current_username)
                                 " WITH LOGIN PASSWORD %s")
                  [password];;
                ret true
              else ret false);
           commit conn;;
           (* the log line reads secret_dict['dbname'] *)
           subscript secret_dict "dbname";;
           ret user_created)
          (close conn)
    end
  else ret false.

(** ** The four rotation steps *)

(** *** [create_secret] *)

(** The default of [EXCLUDE_CHARACTERS]: colon, slash, at sign, double
    quote, single quote, backslash. *)
Definition default_exclude_characters : string :=
  String.append ":/@" (String (ascii_of_nat 34) "'\").

Definition create_secret (arn token : string) : M DB unit :=
  current_dict ← get_secret_dict (PStr arn) "AWSCURRENT" None false;
  try_except
    (get_secret_dict (PStr arn) "AWSPENDING" (Some token) false;;
     ret tt)
    (fun e => match e with
              | ResourceNotFoundException => Some (
                  exclude_characters ← environ_get "EXCLUDE_CHARACTERS"
                                                   default_exclude_characters;
                  passwd ← random_password exclude_characters;
                  let current_dict := <["password" := PStr passwd]> current_dict in
                  put_secret_value arn token (Json current_dict) ["AWSPENDING"])
              | _ => None
              end).

(** *** [set_secret] *)

(** [if previous_dict:] for a dictionary or [None]. *)
Definition dict_given (d : option dict) : option dict :=
  match d with
  | Some d => if bool_decide (d = ∅) then None else Some d
  | None => None
  end.

(** Lines 155-158: [AWSPREVIOUS], or [None] when it is not found or lacks a
    required key. *)
Definition fetch_previous (arn : string) : M DB (option dict) :=
  try_except
    (d ← get_secret_dict (PStr arn) "AWSPREVIOUS" None false; ret (Some d))
    (fun e => match e with
              | ResourceNotFoundException | KeyError _ => Some (ret None)
              | _ => None
              end).

Definition set_secret (arn token : string) : M DB unit :=
  previous_dict ← fetch_previous arn;
  current_dict ← get_secret_dict (PStr arn) "AWSCURRENT" None false;
  pending_dict ← get_secret_dict (PStr arn) "AWSPENDING" (Some token) false;
  create_user_if_not_exists current_dict;;
  (* First try to login with the pending secret, if it succeeds, return *)
  conn ← get_connection pending_dict;
  match conn with
  | Some conn => close conn
  | None =>
      (* Make sure the user from current and pending match *)
      current_username ← subscript current_dict "username";
      pending_username ← subscript pending_dict "username";
      if negb (py_eq current_username pending_username)
      then raise (ValueError (OtherThanCurrentUser pending_username current_username))
      else
      (* Make sure the host from current and pending match *)
      current_host ← subscript current_dict "host";
      pending_host ← subscript pending_dict "host";
      if negb (py_eq current_host pending_host)
      then raise (ValueError (OtherThanCurrentHost pending_host current_host))
      else
      (* Now try the current password *)
      conn ← get_connection current_dict;
      (* If both current and pending do not work, try previous *)
      conn ←
        match conn, dict_given previous_dict with
        | None, Some previous_dict =>
            let previous_dict := delete "ssl" previous_dict in
            let previous_dict :=
              match current_dict !! "ssl" with
              | Some v => <["ssl" := v]> previous_dict
              | None => previous_dict
              end in
            conn ← get_connection previous_dict;
            previous_username ← subscript previous_dict "username";
            pending_username ← subscript pending_dict "username";
            if negb (py_eq previous_username pending_username)
            then raise (ValueError (OtherThanPreviousUser pending_username previous_username))
            else
            previous_host ← subscript previous_dict "host";
            pending_host ← subscript pending_dict "host";
            if negb (py_eq previous_host pending_host)
            then raise (ValueError (OtherThanPreviousHost pending_host previous_host))
            else ret conn
        | _, _ => ret conn
        end;
      match conn with
      | None => raise (ValueError (UnableToLogIn arn))
      | Some conn =>
          (* Now set the password to the pending password *)
          try_finally
            (username ← subscript pending_dict "username";
             rows ← execute conn "SELECT quote_ident(%s)" [username];
             escaped_username ← fetchone_0 rows;
             let alter_role := String.append "ALTER USER " escaped_username in
             password ← subscript pending_dict "password";
             execute conn (String.append alter_role " WITH PASSWORD %s") [password];;
             commit conn)
            (close conn)
      end
  end.

(** *** [test_secret] *)

Definition test_secret (arn token : string) : M DB unit :=
  pending_dict ← get_secret_dict (PStr arn) "AWSPENDING" (Some token) false;
  conn ← get_connection pending_dict;
  match conn with
  | Some conn =>
      try_finally
        (execute conn "SELECT NOW()" [];;
         commit conn)
        (close conn)
  | None => raise (ValueError (UnableToLogInPending arn))
  end.

(** *** [finish_secret] *)

(** The loop over [VersionIdsToStages]: it stops at the first version that
    carries [AWSCURRENT]; [None] is the [return] inside the loop, [Some cv]
    leaves the loop with [current_version = cv]. *)
Fixpoint scan_current (token : string) (versions : list (string * secret_version))
  : option (option string) :=
  match versions with
  | [] => Some None
  | (version, v) :: rest =>
      if has_stage "AWSCURRENT" v then
        if String.eqb version token then None else Some (Some version)
      else scan_current token rest
  end.

Definition finish_secret (arn token : string) : M DB unit :=
  metadata ← describe_secret arn;
  match scan_current token (s_versions metadata) with
  | None => ret tt
  | Some current_version =>
      update_secret_version_stage arn "AWSCURRENT" token current_version
  end.

End Lambda.

(** ** The entry point *)

(** The [ValueError]s that [lambda_handler] raises itself, one constructor
    per [raise] site, with the values the message quotes. *)
Inductive handler_error : Type :=
  | NotEnabledForRotation (arn : string)
      (* "Secret %s is not enabled for rotation" *)
  | NoStageForRotation (token : pyval) (arn : string)
      (* "Secret version %s has no stage for rotation of secret %s." *)
  | NotSetAsPending (token arn : string)
      (* "Secret version %s not set as AWSPENDING for rotation of secret %s." *)
  | InvalidStepParameter (step : pyval) (arn : string).
      (* "Invalid step parameter %s for secret %s" *)

(** How an invocation of the Lambda ends: it returns, it raises one of its
    own [ValueError]s, or another exception leaves it. *)
Inductive outcome : Type :=
  | Returned
  | Refused (e : handler_error)
  | Failed (e : exn).

Section Handler.
Context {DB : Type} (E : Env DB).

(** [boto3.client('secretsmanager', endpoint_url=...)]: the exception the
    constructor raises for an endpoint it does not accept, if any. *)
Context (client_error : string -> option exn).

(** A step called from the handler: what it raises leaves the handler. *)
Definition run_step (step : M DB unit) : world DB -> outcome * world DB :=
  fun w => match step w with
           | (Ok _, w') => (Returned, w')
           | (Raise e, w') => (Failed e, w')
           end.

(** [versions[token]] after [token not in versions] was false: the keys of
    [VersionIdsToStages] are strings, so no other value is among them. *)
Definition version_of (token : pyval) (versions : list (string * secret_version))
  : option (string * secret_version) :=
  match token with
  | PStr t =>
      match find_version t versions with
      | Some v => Some (t, v)
      | None => None
      end
  | _ => None
  end.

Definition lambda_handler (event : dict) : world DB -> outcome * world DB :=
  fun w =>
  match event !! "SecretId" with
  | None => (Failed (KeyError "SecretId"), w)
  | Some arn =>
  match event !! "ClientRequestToken" with
  | None => (Failed (KeyError "ClientRequestToken"), w)
  | Some token =>
  match event !! "Step" with
  | None => (Failed (KeyError "Step"), w)
  | Some step =>
  (* Setup the client *)
  match w_environ w !! "SECRETS_MANAGER_ENDPOINT" with
  | None => (Failed (KeyError "SECRETS_MANAGER_ENDPOINT"), w)
  | Some endpoint_url =>
  match client_error endpoint_url with
  | Some e => (Failed e, w)
  | None =>
  (* Make sure the version is staged correctly *)
  match arn with
  | PStr arn =>
      match describe_secret arn w with
      | (Raise e, w) => (Failed e, w)
      | (Ok metadata, w) =>
          if bool_decide (s_rotation_enabled metadata = Some false)
          then (Refused (NotEnabledForRotation arn), w)
          else
          match version_of token (s_versions metadata) with
          | None => (Refused (NoStageForRotation token arn), w)
          | Some (token, stages) =>
              if has_stage "AWSCURRENT" stages then (Returned, w)
              else if negb (has_stage "AWSPENDING" stages)
              then (Refused (NotSetAsPending token arn), w)
              else
              (* Call the appropriate step *)
              if py_eq step (PStr "createSecret") then run_step (create_secret E arn token) w
              else if py_eq step (PStr "setSecret") then run_step (set_secret E arn token) w
              else if py_eq step (PStr "testSecret") then run_step (test_secret E arn token) w
              else if py_eq step (PStr "finishSecret") then run_step (finish_secret arn token) w
              else (Refused (InvalidStepParameter step arn), w)
          end
      end
  | _ => (Failed ParamValidationError, w)
  end
  end end end end end.

End Handler.

(** ** Observing a run *)

(** The events a computation adds to the trace when run in [w]. *)
Definition events_of {DB A} (m : M DB A) (w : world DB) : list event :=
  drop (length (w_trace w)) (w_trace (snd (m w))).

(** [w'] extends the trace of [w] by events that satisfy [P]. *)
Definition grows {DB} (P : event -> Prop) (w w' : world DB) : Prop :=
  exists t, w_trace w' = w_trace w ++ t /\ Forall P t.

(** Every run of [m] adds only events that satisfy [P]. *)
Definition emits {DB A} (P : event -> Prop) (m : M DB A) : Prop :=
  forall w, grows P w (snd (m w)).

(** [m] leaves the world as it is. *)
Definition silent {DB A} (m : M DB A) : Prop :=
  forall w, snd (m w) = w.

Definition is_connect (ev : event) : bool :=
  match ev with
  | EvConnect _ _ => true
  | _ => false
  end.

(** A [pgdb.connect] call without [sslmode]. *)
Definition is_unencrypted_attempt (ev : event) : bool :=
  match ev with
  | EvConnect p _ => negb (cp_ssl p)
  | _ => false
  end.

Definition is_execute (ev : event) : bool :=
  match ev with
  | EvExecute _ _ _ => true
  | _ => false
  end.

(** The statement built at line 554, ["CREATE ROLE %s" % current_username]. *)
Definition is_role_creation (ev : event) : bool :=
  match ev with
  | EvExecute _ sql _ => String.prefix "CREATE ROLE " sql
  | _ => false
  end.

(** The statement built at lines 213-214, ["ALTER USER %s" % escaped_username]. *)
Definition is_password_alteration (ev : event) : bool :=
  match ev with
  | EvExecute _ sql _ => String.prefix "ALTER USER " sql
  | _ => false
  end.

Definition is_db_mutation (ev : event) : bool :=
  is_role_creation ev || is_password_alteration ev.

Definition is_put (ev : event) : bool :=
  match ev with
  | EvPutSecretValue _ _ _ _ => true
  | _ => false
  end.

Definition is_stage_update (ev : event) : bool :=
  match ev with
  | EvUpdateStage _ _ _ _ => true
  | _ => false
  end.

(** The database name a connection attempt asks for. *)
Definition attempts_database (name : pyval) (ev : event) : Prop :=
  match ev with
  | EvConnect p _ => cp_database p = name
  | _ => True
  end.

(** A [pgdb.connect] call for the database [dbname]. *)
Definition attempt_for (dbname : pyval) (ev : event) : Prop :=
  is_connect ev = true /\ attempts_database dbname ev.

(** The database [get_connection] asks for. *)
Definition dbname_of (d : dict) : pyval :=
  match d !! "dbname" with
  | Some v => v
  | None => PStr "postgres"
  end.

(** A [pgdb.connect] call that raised. *)
Definition failed_attempt (ev : event) : Prop :=
  exists p, ev = EvConnect p None.

(** The driver reports a connection it cannot open (refused, timed out,
    credentials rejected) as [pg.InternalError]. *)
Definition failures_are_internal_errors {DB} (E : Env DB) : Prop :=
  forall p db e db',
    cp_ssl p = false -> pgdb_connect E p db = (Some e, db') ->
    exists msg, e = PgInternalError msg.

(** The errors of a malformed secret: a required key is missing, or
    [port] is not a number. *)
Definition malformed_input {DB} (E : Env DB) (d : dict) (e : exn) : Prop :=
  (exists k, k ∈ ["host"; "username"; "password"] /\ d !! k = None /\ e = KeyError k) \/
  (exists v, d !! "port" = Some v /\ forall w, fst (py_int E v w) = Raise e).

(** What a chain of attempts leaves behind: failed attempts, closed by the
    one that opened the session returned; an exception is either one of a
    malformed secret, or one of the driver, not a [pg.InternalError],
    raised by an attempt without TLS. *)
Definition attempts_outcome {DB} (E : Env DB) (d : dict)
    (r : result (option session)) (t : list event) : Prop :=
  match r with
  | Ok (Some c) =>
      exists t0, t = t0 ++ [EvConnect (s_params c) (Some (sid c))]
                 /\ Forall failed_attempt t0
  | Ok None => Forall failed_attempt t
  | Raise e =>
      Forall failed_attempt t /\
      (malformed_input E d e \/
       exists p db db', cp_ssl p = false /\ pgdb_connect E p db = (Some e, db')
                        /\ forall msg, e <> PgInternalError msg)
  end.

(** The directory's answer for a candidate and a master host: the first
    instance found under the candidate's identifier names the master's
    identifier as its replication source. *)
Definition directory_reports_replica {DB} (E : Env DB) (replica_host master_host : string)
  : bool :=
  match describe_db_instances E (first_label replica_host) with
  | Some (current_instance :: _) =>
      bool_decide (Some (first_label master_host)
                   = ReadReplicaSourceDBInstanceIdentifier current_instance)
  | _ => false
  end.

(** What the provisioner does to the outside: it looks the child up in the
    directory, connects for the child's database, runs its three
    statements, none of which alters a password, commits and closes. *)
Definition provisioner_event (secret_dict : dict) (ev : event) : Prop :=
  is_password_alteration ev = false /\ is_put ev = false /\ is_stage_update ev = false /\
  attempts_database (child_dbname secret_dict) ev.

Definition is_close (ev : event) : bool :=
  match ev with
  | EvClose _ => true
  | _ => false
  end.

(** The try/except around the fetch of [AWSPREVIOUS] in [set_secret] lets
    one exception through: the one of [json.loads]. *)
Definition previous_is_readable {DB} (arn : string) (w : world DB) : Prop :=
  fst (get_secret_dict (PStr arn) "AWSPREVIOUS" None false w)
  <> Raise (ValueError NotValidJson).

(** The records [get_secret_dict] accepts: the required fields are there
    and the engine is supported. *)
Definition valid_record (d : dict) : bool :=
  forallb (fun field => bool_decide (is_Some (d !! field))) required_fields
  && match d !! "engine" with
     | Some v => existsb (py_eq v) supported_engines
     | None => false
     end.

(** The state in which the vault asks for [createSecret]: the token is
    not empty, and the version it names, if there is one already, is staged
    [AWSPENDING]. *)
Definition awaiting_pending (token : string) (s : secret) : Prop :=
  token <> "" /\
  forall v, find_version token (s_versions s) = Some v -> has_stage "AWSPENDING" v = true.

(** The sessions that are open were handed out by [connect]. *)
Definition sessions_fresh {DB} (w : world DB) : Prop :=
  forall n, n ∈ w_open w -> (n < w_opened w)%nat.

(** [m] opens and closes nothing. *)
Definition keeps_sessions {DB A} (m : M DB A) : Prop :=
  forall w r w', m w = (r, w') -> w_open w' = w_open w /\ w_opened w' = w_opened w.

(** The only session [m] leaves open is the one it returns. *)
Definition opens_what_it_returns {DB} (m : M DB (option session)) : Prop :=
  forall w r w', sessions_fresh w -> m w = (r, w') ->
    sessions_fresh w' /\
    match r with
    | Ok (Some conn) => w_open w' = sid conn :: w_open w /\ sid conn ∉ w_open w
    | _ => w_open w' = w_open w
    end.

(** [m] leaves open the sessions it found open, however it exits. *)
Definition closes_what_it_opens {DB A} (m : M DB A) : Prop :=
  forall w r w', sessions_fresh w -> m w = (r, w') ->
    sessions_fresh w' /\ w_open w' = w_open w.

(** A [pgdb.connect] call for [dbname] at [port], with or without TLS as
    [ssl] says, that passes the host, user and password of [d]. *)
Definition attempt_of (d : dict) (port : Z) (dbname : pyval) (ssl : bool) (ev : event)
  : Prop :=
  match ev with
  | EvConnect p _ =>
      d !! "host" = Some (cp_host p) /\ d !! "username" = Some (cp_user p) /\
      d !! "password" = Some (cp_password p) /\
      cp_database p = dbname /\ cp_port p = port /\ cp_ssl p = ssl
  | _ => False
  end.

(** A [pgdb.connect] call made with the connection fields of [d]: its
    host, user and password, its [dbname] or ["postgres"], and port 5432
    when [d] names none. *)
Definition attempt_with (d : dict) (ev : event) : Prop :=
  match ev with
  | EvConnect p _ =>
      d !! "host" = Some (cp_host p) /\ d !! "username" = Some (cp_user p) /\
      d !! "password" = Some (cp_password p) /\ cp_database p = dbname_of d /\
      (d !! "port" = None -> cp_port p = 5432)
  | _ => False
  end.

(** [m] leaves the vault as it is: the secrets and the passwords drawn. *)
Definition keeps_vault {DB A} (m : M DB A) : Prop :=
  forall w, w_vault (snd (m w)) = w_vault w /\ w_drawn (snd (m w)) = w_drawn w.

(** A call of the vault client that writes. *)
Definition is_vault_write (ev : event) : bool := is_put ev || is_stage_update ev.

(** The engines [get_secret_dict] supports. *)
Definition supported_engine (v : pyval) : Prop :=
  v = PStr "postgres" \/ v = PStr "aurora-postgresql".

(** What [test_secret] does to the outside: connection attempts, the
    statement [SELECT NOW()] without arguments, a commit and a close. *)
Definition probe_event (ev : event) : Prop :=
  match ev with
  | EvConnect _ _ | EvCommit _ | EvClose _ => True
  | EvExecute _ sql args => sql = "SELECT NOW()" /\ args = []
  | _ => False
  end.

(** A statement of the given kind (one that creates a role, or one that
    alters a password) has one argument, the [password] of [d]. *)
Definition passes_password_of (kind : event -> bool) (d : dict) (ev : event) : Prop :=
  kind ev = true ->
  exists s sql password, ev = EvExecute s sql [password] /\ d !! "password" = Some password.

(** Any event but a commit. *)
Definition not_commit (ev : event) : Prop :=
  match ev with
  | EvCommit _ => False
  | _ => True
  end.

(** The versions of a secret that carry [stage]. *)
Definition staged_versions (stage : string) (s : secret) : list (string * secret_version) :=
  filter (fun kv => has_stage stage (snd kv) = true) (s_versions s).

(** The vault keeps version ids distinct and a staging label on at most
    one version. *)
Definition well_staged (stage : string) (s : secret) : Prop :=
  NoDup (s_versions s).*1 /\ (length (staged_versions stage s) <= 1)%nat.

(** ** A small server, vault and directory to run the Lambda on *)

Module Toy.

(** The secret, its master secret and the version ids of the examples. *)
Definition arn : string := "app-db".
Definition master : string := "master-db".
Definition v0 : string := "0d2d9a3c-5c1e-4f57-9d0e-6f3b1a2c4e50".
Definition v1 : string := "1e3eab4d-6d2f-4068-8e1f-7a4c2b3d5f61".
Definition v2 : string := "2f4fbc5e-7e30-4179-9f20-8b5d3c4e6a72".
Definition m1 : string := "3a50cd6f-8f41-428a-8a31-9c6e4d5f7b83".

(** A server with a role catalogue.  Statements take effect at [commit];
    [close] drops what was not committed. *)
Record server : Type := {
  roles : list (string * string);
  tls : bool;
  uncommitted : list (string * string)
}.

Definition upsert (r : string * string) (rs : list (string * string))
  : list (string * string) :=
  r :: filter (fun x => fst x ≠ fst r) rs.

Definition toy_connect (p : conn_params) (db : server) : option exn * server :=
  if cp_ssl p && negb (tls db) then
    (Some (PgInternalError "server does not support SSL, but SSL was required"), db)
  else
    match cp_user p, cp_password p with
    | PStr u, PStr pw =>
        if bool_decide ((u, pw) ∈ roles db) then (None, db)
        else (Some (PgInternalError "password authentication failed"), db)
    | _, _ => (Some (PgInternalError "password authentication failed"), db)
    end.

(** The name between a statement's head and tail. *)
Definition between (head tail sql : string) : string :=
  substring (String.length head)
            (String.length sql - String.length head - String.length tail) sql.

Definition stage_role (name : string) (args : list pyval) (db : server)
  : (exn + list (list string)) * server :=
  match args with
  | [PStr pw] =>
      (inr [], {| roles := roles db; tls := tls db;
                  uncommitted := uncommitted db ++ [(name, pw)] |})
  | _ => (inl (PgError "ProgrammingError"), db)
  end.

Definition toy_execute (s : session) (sql : string) (args : list pyval) (db : server)
  : (exn + list (list string)) * server :=
  if String.eqb sql "SELECT quote_ident(%s)" then
    match args with
    | [PStr n] => (inr [[n]], db)
    | _ => (inl (PgError "ProgrammingError"), db)
    end
  else if String.eqb sql "SELECT 1 FROM pg_roles where rolname = %s" then
    match args with
    | [PStr n] => (inr (if bool_decide (n ∈ (roles db).*1) then [["1"]] else []), db)
    | _ => (inl (PgError "ProgrammingError"), db)
    end
  else if String.eqb sql "SELECT NOW()" then (inr [["2026-01-01 00:00:00+00"]], db)
  else if String.prefix "CREATE ROLE " sql then
    stage_role (between "CREATE ROLE " " WITH LOGIN PASSWORD %s" sql) args db
  else if String.prefix "ALTER USER " sql then
    stage_role (between "ALTER USER " " WITH PASSWORD %s" sql) args db
  else (inl (PgError "ProgrammingError"), db).

Definition toy_commit (s : session) (db : server) : option exn * server :=
  (None, {| roles := fold_left (fun rs r => upsert r rs) (uncommitted db) (roles db);
            tls := tls db; uncommitted := [] |}).

Definition toy_close (s : session) (db : server) : server :=
  {| roles := roles db; tls := tls db; uncommitted := [] |}.

(** Decimal digits only. *)
Fixpoint digits (s : string) (acc : Z) : option Z :=
  match s with
  | EmptyString => Some acc
  | String c r =>
      let n := nat_of_ascii c in
      if (48 <=? n)%nat && (n <=? 57)%nat
      then digits r (10 * acc + Z.of_nat (n - 48))
      else None
  end.

Definition toy_int (s : string) : option Z :=
  if String.eqb s "" then None else digits s 0.

Fixpoint stars (n : nat) : string :=
  match n with
  | O => EmptyString
  | S k => String "*"%char (stars k)
  end.

Definition env (directory : string -> option (list db_instance)) : Env server :=
  {| pgdb_connect := toy_connect;
     cur_execute := toy_execute;
     conn_commit := toy_commit;
     conn_close := toy_close;
     describe_db_instances := directory;
     get_random_password := fun _ n => String.append "Xk4-random" (stars n);
     int_of_str := toy_int |}.

(** No instance is known to the directory. *)
Definition no_directory : string -> option (list db_instance) := fun _ => Some [].

Definition start (vault : gmap string secret) (db : server) : world server :=
  {| w_vault := vault; w_environ := ∅; w_db := db; w_opened := O; w_open := [];
     w_drawn := O; w_trace := [] |}.

Definition record (host user password : string) : dict :=
  <["engine" := PStr "postgres"]>
    (<["host" := PStr host]>
       (<["username" := PStr user]> (<["password" := PStr password]> ∅))).

Definition version (stages : list string) (d : dict) : secret_version :=
  {| sv_stages := stages; sv_string := Some (Json d) |}.

(** A secret that demands TLS ([ssl] is the boolean [True]) for a server
    that does not speak TLS but knows the role. *)
Definition strict_record : dict :=
  <["ssl" := PBool true]> (record "db.example" "app" "pw").

Definition plain_server : server :=
  {| roles := [("app", "pw")]; tls := false; uncommitted := [] |}.

(** A secret whose password the server does not accept. *)
Definition stale_record : dict := record "db.example" "app" "old-pw".

(** A master secret on [primary.example] and a child on another host that
    the directory does not know. *)
Definition master_secret (d : dict) : secret :=
  {| s_rotation_enabled := None; s_versions := [(m1, version ["AWSCURRENT"] d)] |}.

Definition admin_record : dict :=
  <["username" := PStr "admin"]> (<["password" := PStr "adm"]> ∅).

Definition child_elsewhere : dict :=
  <["masterarn" := PStr master]> (record "other.example" "app" "pw").

Definition vault_primary : gmap string secret :=
  {[ master := master_secret (<["host" := PStr "primary.example"]> admin_record) ]}.

(** A child without [dbname] whose master names a database of its own. *)
Definition child_without_dbname : dict :=
  <["masterarn" := PStr master]> (record "db.example" "app" "pw").

Definition vault_admin_db : gmap string secret :=
  {[ master := master_secret (<["dbname" := PStr "admin_db"]> admin_record) ]}.

Definition admin_server : server :=
  {| roles := [("admin", "adm")]; tls := true; uncommitted := [] |}.

(** Three staged versions of one secret.  The server knows the role of the
    previous version only, under another name than the one being
    rotated. *)
Definition rotating (previous current pending : dict) : secret :=
  {| s_rotation_enabled := Some true;
     s_versions := [(v0, version ["AWSPREVIOUS"] previous);
                    (v1, version ["AWSCURRENT"] current);
                    (v2, version ["AWSPENDING"] pending)] |}.

Definition vault_renamed : gmap string secret :=
  {[ arn := rotating (record "db.example" "old" "p0")
                       (record "db.example" "alice" "p1")
                       (record "db.example" "alice" "p2") ]}.

Definition server_previous_only : server :=
  {| roles := [("old", "p0")]; tls := true; uncommitted := [] |}.

(** CURRENT is the master-managed user [alice], who has no role yet;
    PENDING holds the credentials of [bob], which the server accepts. *)
Definition vault_other_user : gmap string secret :=
  {[ arn := {| s_rotation_enabled := Some true;
                 s_versions :=
                   [(v1, version ["AWSCURRENT"]
                             (<["dbname" := PStr "app"]>
                                (<["masterarn" := PStr master]>
                                   (record "db.example" "alice" "p1"))));
                    (v2, version ["AWSPENDING"] (record "db.example" "bob" "p2"))] |};
     master := master_secret admin_record ]}.

Definition server_admin_and_bob : server :=
  {| roles := [("admin", "adm"); ("bob", "p2")]; tls := true; uncommitted := [] |}.

(** CURRENT and PENDING name different users, no master is involved, and
    the server accepts PENDING. *)
Definition vault_mismatch : gmap string secret :=
  {[ arn := {| s_rotation_enabled := Some true;
                 s_versions :=
                   [(v1, version ["AWSCURRENT"] (record "db.example" "alice" "p1"));
                    (v2, version ["AWSPENDING"] (record "db.example" "bob" "p2"))] |} ]}.

(** The same with a server that accepts CURRENT only. *)
Definition server_alice : server :=
  {| roles := [("alice", "p1")]; tls := true; uncommitted := [] |}.

(** A server that accepts PENDING of [vault_mismatch]. *)
Definition server_bob : server :=
  {| roles := [("bob", "p2")]; tls := true; uncommitted := [] |}.

(** A rotation the vault has just started: version [v2] is staged
    [AWSPENDING] and has no value yet. *)
Definition secret_rotation_started : secret :=
  {| s_rotation_enabled := Some true;
     s_versions :=
       [(v1, version ["AWSCURRENT"] (record "db.example" "app" "pw"));
        (v2, {| sv_stages := ["AWSPENDING"]; sv_string := None |})] |}.

Definition vault_rotation_started : gmap string secret :=
  {[ arn := secret_rotation_started ]}.

(** CURRENT on [v1], PENDING with its value on [v2]. *)
Definition secret_mismatch : secret :=
  {| s_rotation_enabled := Some true;
     s_versions :=
       [(v1, version ["AWSCURRENT"] (record "db.example" "alice" "p1"));
        (v2, version ["AWSPENDING"] (record "db.example" "bob" "p2"))] |}.

(** The event of a rotation step for version [v2] of [arn], and a world
    in which the Lambda is deployed: the endpoint of the vault is set. *)
Definition rotation_event (step : string) : dict :=
  <["SecretId" := PStr arn]>
    (<["ClientRequestToken" := PStr v2]> (<["Step" := PStr step]> ∅)).

Definition deployed (vault : gmap string secret) (db : server) : world server :=
  {| w_vault := vault;
     w_environ := {[ "SECRETS_MANAGER_ENDPOINT" := "https://secretsmanager.eu-west-1.amazonaws.com" ]};
     w_db := db; w_opened := O; w_open := []; w_drawn := O; w_trace := [] |}.

(** The constructor of the vault client accepts every endpoint. *)
Definition any_endpoint : string -> option exn := fun _ => None.

(** CURRENT and PENDING of one user, with a server that knows the role by
    the password of CURRENT. *)
Definition vault_rotating : gmap string secret :=
  {[ arn := {| s_rotation_enabled := Some true;
                 s_versions :=
                   [(v1, version ["AWSCURRENT"] (record "db.example" "alice" "p1"));
                    (v2, version ["AWSPENDING"] (record "db.example" "alice" "p2"))] |} ]}.

(** A server that took the password of PENDING. *)
Definition server_rotated : server :=
  {| roles := [("alice", "p2")]; tls := true; uncommitted := [] |}.

(** A secret whose CURRENT version lacks [username]. *)
Definition vault_incomplete : gmap string secret :=
  {[ arn := {| s_rotation_enabled := Some true;
                 s_versions :=
                   [(v1, version ["AWSCURRENT"]
                             (delete "username" (record "db.example" "alice" "p1")))] |} ]}.

End Toy.

(** * Properties *)

(** ** Strings *)

Lemma lower_eq_ignore_case (s t : string) :
  lower s = lower t <-> eq_ignore_case s t.
Proof.
  revert t; induction s as [|a s IH]; intros [|b t]; simpl; try (split; [discriminate | tauto]).
  - tauto.
  - rewrite <- IH. split.
    + intros H; injection H; auto.
    + intros [-> ->]; reflexivity.
Qed.

Lemma lower_is_literal (s lit : string) :
  lower lit = lit ->
  String.eqb (lower s) lit = true <-> eq_ignore_case s lit.
Proof.
  intros Hlit. rewrite String.eqb_eq, <- lower_eq_ignore_case, Hlit. tauto.
Qed.

(** ** The SSL policy *)

(** C9: the policy [get_ssl_config] resolves from the tri-state [ssl]
    field.  An absent key, a value that is neither a boolean nor a string,
    and a string other than "true"/"false" up to case give (use_ssl=true,
    fall_back=true); a boolean [b] gives (b, false); a string equal to
    "true" (resp. "false") ignoring case gives (true, false) (resp.
    (false, false)).  In particular boolean false and the string "FALSE"
    both give (false, false). *)
Theorem get_ssl_config_tri_state (secret_dict : dict) :
  (secret_dict !! "ssl" = None -> get_ssl_config secret_dict = (true, true)) /\
  (secret_dict !! "ssl" = Some PNone -> get_ssl_config secret_dict = (true, true)) /\
  (forall z, secret_dict !! "ssl" = Some (PInt z) ->
             get_ssl_config secret_dict = (true, true)) /\
  (forall b, secret_dict !! "ssl" = Some (PBool b) ->
             get_ssl_config secret_dict = (b, false)) /\
  (forall s, secret_dict !! "ssl" = Some (PStr s) ->
     (eq_ignore_case s "true" -> get_ssl_config secret_dict = (true, false)) /\
     (eq_ignore_case s "false" -> get_ssl_config secret_dict = (false, false)) /\
     (~ eq_ignore_case s "true" -> ~ eq_ignore_case s "false" ->
      get_ssl_config secret_dict = (true, true))) /\
  (secret_dict !! "ssl" = Some (PBool false) \/ secret_dict !! "ssl" = Some (PStr "FALSE") ->
   get_ssl_config secret_dict = (false, false)).
Proof.
  unfold get_ssl_config.
  repeat split.
  - intros ->; reflexivity.
  - intros ->; reflexivity.
  - intros z ->; reflexivity.
  - intros b ->; reflexivity.
  - intros Ht. rewrite H. apply (lower_is_literal s "true" eq_refl) in Ht.
    cbv zeta. rewrite Ht. reflexivity.
  - intros Hf. rewrite H. cbv zeta.
    destruct (String.eqb (lower s) "true") eqn:Ht.
    + apply String.eqb_eq in Ht.
      apply (lower_is_literal s "false" eq_refl), String.eqb_eq in Hf.
      rewrite Ht in Hf; discriminate.
    + apply (lower_is_literal s "false" eq_refl) in Hf. rewrite Hf. reflexivity.
  - intros Ht Hf. rewrite H. cbv zeta.
    destruct (String.eqb (lower s) "true") eqn:Et.
    { exfalso; apply Ht, (lower_is_literal s "true" eq_refl), Et. }
    destruct (String.eqb (lower s) "false") eqn:Ef.
    { exfalso; apply Hf, (lower_is_literal s "false" eq_refl), Ef. }
    reflexivity.
  - intros [-> | ->]; reflexivity.
Qed.

Lemma get_ssl_config_tri_state_witness :
  get_ssl_config (<["ssl" := PStr "False"]> (Toy.record "db.example" "app" "pw"))
  = (false, false).
Proof.
  apply (get_ssl_config_tri_state
           (<["ssl" := PStr "False"]> (Toy.record "db.example" "app" "pw")))
    with (s := "False").
  - reflexivity.
  - simpl. repeat split; reflexivity.
Defined.

(** ** Reasoning about runs *)

Section Runs.
Context {DB : Type}.
Implicit Types (w : world DB) (P : event -> Prop).

Lemma grows_refl P w : grows P w w.
Proof. exists []. rewrite app_nil_r. auto. Qed.

Lemma grows_trans P w1 w2 w3 : grows P w1 w2 -> grows P w2 w3 -> grows P w1 w3.
Proof.
  intros (t1 & E1 & F1) (t2 & E2 & F2). exists (t1 ++ t2).
  rewrite E2, E1, app_assoc. split; [reflexivity | apply Forall_app; auto].
Qed.

Lemma grows_weaken P Q w w' :
  (forall ev, P ev -> Q ev) -> grows P w w' -> grows Q w w'.
Proof.
  intros HPQ (t & Et & Ft). exists t. split; [exact Et |].
  eapply Forall_impl; eauto.
Qed.

Lemma grows_one P w w' ev :
  P ev -> w_trace w' = w_trace w ++ [ev] -> grows P w w'.
Proof. intros HP Et. exists [ev]. split; [exact Et | auto]. Qed.

Lemma grows_none P w w' : w_trace w' = w_trace w -> grows P w w'.
Proof. intros Et. exists []. rewrite app_nil_r. auto. Qed.

Lemma grows_events_of {A} P (m : M DB A) w :
  grows P w (snd (m w)) ->
  w_trace (snd (m w)) = w_trace w ++ events_of m w /\ Forall P (events_of m w).
Proof.
  intros (t & Et & Ft). unfold events_of. rewrite Et, drop_app_length. auto.
Qed.

Lemma events_of_grows {A} P (m : M DB A) w t :
  w_trace (snd (m w)) = w_trace w ++ t -> events_of m w = t.
Proof. intros Et. unfold events_of. rewrite Et, drop_app_length. reflexivity. Qed.

Lemma emits_weaken {A} P Q (m : M DB A) :
  (forall ev, P ev -> Q ev) -> emits P m -> emits Q m.
Proof. intros HPQ Hm w. eapply grows_weaken; eauto. Qed.

Lemma silent_emits {A} P (m : M DB A) : silent m -> emits P m.
Proof. intros Hm w. rewrite Hm. apply grows_refl. Qed.

Lemma silent_run {A} (m : M DB A) w : silent m -> m w = (fst (m w), w).
Proof. intros Hm. rewrite <- (Hm w) at 3. apply surjective_pairing. Qed.

(** *** The combinators *)

Lemma silent_ret {A} (a : A) : silent (DB:=DB) (ret a).
Proof. intros w; reflexivity. Qed.

Lemma silent_raise {A} e : silent (DB:=DB) (A:=A) (raise e).
Proof. intros w; reflexivity. Qed.

Lemma silent_bind {A B} (m : M DB A) (k : A -> M DB B) :
  silent m -> (forall a, silent (k a)) -> silent (bind m k).
Proof.
  intros Hm Hk w. unfold bind. rewrite (silent_run m w Hm).
  destruct (fst (m w)); [apply Hk | reflexivity].
Qed.

Lemma silent_try_except {A} (m : M DB A) h :
  silent m -> (forall e k, h e = Some k -> silent k) -> silent (try_except m h).
Proof.
  intros Hm Hh w. unfold try_except. rewrite (silent_run m w Hm).
  destruct (fst (m w)) as [a|e]; [reflexivity |].
  destruct (h e) as [k|] eqn:He; [eapply Hh; eauto | reflexivity].
Qed.

Lemma grows_bind {A B} P (m : M DB A) (k : A -> M DB B) w :
  grows P w (snd (m w)) ->
  (forall a w', m w = (Ok a, w') -> grows P w' (snd (k a w'))) ->
  grows P w (snd (bind m k w)).
Proof.
  intros Hm Hk. unfold bind. destruct (m w) as [[a|e] w'] eqn:Em; simpl in Hm.
  - eapply grows_trans; [exact Hm | apply Hk; reflexivity].
  - exact Hm.
Qed.

Lemma emits_bind {A B} P (m : M DB A) (k : A -> M DB B) :
  emits P m -> (forall a, emits P (k a)) -> emits P (bind m k).
Proof. intros Hm Hk w. apply grows_bind; [apply Hm | intros a w' _; apply Hk]. Qed.

Lemma emits_ret {A} P (a : A) : emits (DB:=DB) P (ret a).
Proof. apply silent_emits, silent_ret. Qed.

Lemma emits_raise {A} P e : emits (DB:=DB) (A:=A) P (raise e).
Proof. apply silent_emits, silent_raise. Qed.

Lemma grows_try_except {A} P (m : M DB A) h w :
  grows P w (snd (m w)) ->
  (forall e w' k, m w = (Raise e, w') -> h e = Some k -> grows P w' (snd (k w'))) ->
  grows P w (snd (try_except m h w)).
Proof.
  intros Hm Hh. unfold try_except. destruct (m w) as [[a|e] w'] eqn:Em; simpl in Hm.
  - exact Hm.
  - destruct (h e) as [k|] eqn:He; [| exact Hm].
    eapply grows_trans; [exact Hm | eapply Hh; eauto].
Qed.

Lemma emits_try_except {A} P (m : M DB A) h :
  emits P m -> (forall e k, h e = Some k -> emits P k) -> emits P (try_except m h).
Proof.
  intros Hm Hh w. apply grows_try_except; [apply Hm |].
  intros e w' k _ He. eapply Hh; eauto.
Qed.

Lemma emits_try_finally {A} P (m : M DB A) fin :
  emits P m -> emits P fin -> emits P (try_finally m fin).
Proof.
  intros Hm Hf w. unfold try_finally.
  specialize (Hm w). destruct (m w) as [r w'].
  specialize (Hf w'). destruct (fin w') as [[[]|e] w'']; simpl in *;
    eapply grows_trans; eauto.
Qed.

(** *** The primitives *)

Lemma emits_emit P ev : P ev -> emits P (emit (DB:=DB) ev).
Proof. intros HP w. eapply grows_one; [exact HP | reflexivity]. Qed.

Lemma silent_subscript (d : dict) k : silent (DB:=DB) (subscript d k).
Proof. unfold subscript. destruct (d !! k); [apply silent_ret | apply silent_raise]. Qed.

Lemma silent_split_first v : silent (DB:=DB) (split_first v).
Proof. destruct v; first [apply silent_ret | apply silent_raise]. Qed.

Lemma silent_json_loads s : silent (DB:=DB) (json_loads s).
Proof. destruct s; first [apply silent_ret | apply silent_raise]. Qed.

Lemma silent_check_required fields (d : dict) : silent (DB:=DB) (check_required fields d).
Proof.
  induction fields as [|f r IH]; simpl; [apply silent_ret |].
  destruct (d !! f); [exact IH | apply silent_raise].
Qed.

Lemma silent_describe_secret arn : silent (DB:=DB) (describe_secret arn).
Proof. intros w. unfold describe_secret. destruct (w_vault w !! arn); reflexivity. Qed.

Lemma silent_get_secret_value arn v stage : silent (DB:=DB) (get_secret_value arn v stage).
Proof.
  destruct arn; try apply silent_raise. intros w. simpl.
  destruct (w_vault w !! s); [| reflexivity].
  match goal with |- snd (match ?x with _ => _ end) = _ => destruct x end; reflexivity.
Qed.

Lemma silent_get_secret_dict arn stage token master :
  silent (DB:=DB) (get_secret_dict arn stage token master).
Proof.
  unfold get_secret_dict.
  apply silent_bind; [apply silent_get_secret_value | intros s].
  apply silent_bind; [apply silent_json_loads | intros d].
  apply silent_bind; [| intros _; apply silent_ret].
  destruct master; cbn [negb]; [apply silent_ret |].
  apply silent_bind; [apply silent_check_required | intros _].
  apply silent_bind; [apply silent_subscript | intros e].
  match goal with |- silent (if ?c then _ else _) => destruct c end;
    [apply silent_ret | apply silent_raise].
Qed.

Lemma silent_environ_get k d : silent (DB:=DB) (environ_get k d).
Proof. intros w; reflexivity. Qed.

Lemma emits_close P (c : session) : P (EvClose (sid c)) -> forall E : Env DB, emits P (close E c).
Proof. intros HP E w. eapply grows_one; [exact HP | reflexivity]. Qed.

End Runs.

(** ** The driver and the connection helpers *)

Section Connections.
Context {DB : Type} (E : Env DB).
Implicit Types (w : world DB) (P : event -> Prop) (d : dict).

Lemma emits_connect P p : (forall o, P (EvConnect p o)) -> emits P (connect E p).
Proof.
  intros HP w. unfold connect.
  destruct (pgdb_connect E p (w_db w)) as [[e|] db'];
    (eapply grows_one; [apply HP | reflexivity]).
Qed.

Lemma emits_execute P (c : session) sql args :
  P (EvExecute (sid c) sql args) -> emits P (execute E c sql args).
Proof.
  intros HP w. unfold execute, bind, emit.
  destruct (cur_execute E c sql args _) as [[e|rows] db'];
    (eapply grows_one; [apply HP | reflexivity]).
Qed.

Lemma emits_commit P (c : session) : P (EvCommit (sid c)) -> emits P (commit E c).
Proof.
  intros HP w. unfold commit, bind, emit.
  destruct (conn_commit E c _) as [[e|] db'];
    (eapply grows_one; [apply HP | reflexivity]).
Qed.

Lemma silent_py_int v : silent (py_int E v).
Proof.
  destruct v; simpl; try first [apply silent_ret | apply silent_raise].
  destruct (int_of_str E s); [apply silent_ret | apply silent_raise].
Qed.

Lemma silent_connect_args d port dbname ssl :
  silent (connect_args (DB:=DB) d port dbname ssl).
Proof.
  unfold connect_args.
  repeat (apply silent_bind; [apply silent_subscript | intros ?]).
  apply silent_ret.
Qed.

(** What [connect_args] returns. *)
Lemma connect_args_ok d port dbname ssl w p w' :
  connect_args d port dbname ssl w = (Ok p, w') ->
  cp_database p = dbname /\ cp_port p = port /\ cp_ssl p = ssl /\
  d !! "host" = Some (cp_host p) /\ d !! "username" = Some (cp_user p) /\
  d !! "password" = Some (cp_password p).
Proof.
  unfold connect_args, bind, subscript.
  destruct (d !! "host") as [h|]; [| discriminate]. simpl.
  destruct (d !! "username") as [u|]; [| discriminate]. simpl.
  destruct (d !! "password") as [pw|]; [| discriminate]. simpl.
  unfold ret. intros H; injection H as <- <-. simpl. auto 10.
Qed.

(** A missing key is the only way [connect_args] fails. *)
Lemma connect_args_raise d port dbname ssl w e w' :
  connect_args d port dbname ssl w = (Raise e, w') ->
  exists k, k ∈ ["host"; "username"; "password"] /\ d !! k = None /\ e = KeyError k.
Proof.
  unfold connect_args, bind, subscript.
  destruct (d !! "host") as [h|] eqn:Hh; simpl.
  2:{ intros H; injection H as <- <-. exists "host". split; [set_solver | auto]. }
  destruct (d !! "username") as [u|] eqn:Hu; simpl.
  2:{ intros H; injection H as <- <-. exists "username". split; [set_solver | auto]. }
  destruct (d !! "password") as [pw|] eqn:Hp; simpl.
  2:{ intros H; injection H as <- <-. exists "password". split; [set_solver | auto]. }
  discriminate.
Qed.

Lemma emits_attempt d port dbname ssl :
  emits (attempt_for dbname)
    (bind (connect_args d port dbname ssl)
          (fun p => bind (connect E p) (fun conn => ret (Some conn)))).
Proof.
  intros w. apply grows_bind; [apply silent_emits, silent_connect_args |].
  intros p w' Hp. apply connect_args_ok in Hp as (Hdb & _).
  apply grows_bind; [| intros; apply emits_ret].
  apply emits_connect. intros o. split; [reflexivity | exact Hdb].
Qed.

Lemma emits_connect_without_ssl d port dbname :
  emits (attempt_for dbname) (connect_without_ssl E d port dbname).
Proof.
  unfold connect_without_ssl. apply emits_try_except; [apply emits_attempt |].
  intros e k Hk. destruct e; inversion Hk; apply emits_ret.
Qed.

Lemma emits_connect_and_authenticate d port dbname use_ssl :
  emits (attempt_for dbname) (connect_and_authenticate E d port dbname use_ssl).
Proof.
  unfold connect_and_authenticate. destruct use_ssl; [| apply emits_connect_without_ssl].
  apply emits_try_except; [apply emits_attempt |].
  intros e k Hk. inversion Hk. apply emits_connect_without_ssl.
Qed.

Lemma emits_get_connection d :
  emits (attempt_for (dbname_of d)) (get_connection E d).
Proof.
  unfold get_connection. apply emits_bind.
  { destruct (d !! "port"); [apply silent_emits, silent_py_int | apply emits_ret]. }
  intros port. fold (dbname_of d). destruct (get_ssl_config d) as [use_ssl fall_back].
  apply emits_bind; [apply emits_connect_and_authenticate |].
  intros conn. destruct (connected conn || negb fall_back);
    [apply emits_ret | apply emits_connect_and_authenticate].
Qed.

End Connections.

(** ** What [get_connection] returns *)

Section Negotiation.
Context {DB : Type} (E : Env DB).
Implicit Types (w : world DB) (d : dict).

Lemma attempts_outcome_after d r t0 t :
  Forall failed_attempt t0 -> attempts_outcome E d r t -> attempts_outcome E d r (t0 ++ t).
Proof.
  intros H0. destruct r as [[c|]|e]; simpl.
  - intros (t1 & -> & H1). exists (t0 ++ t1). rewrite app_assoc.
    split; [reflexivity | apply Forall_app; auto].
  - intros H1. apply Forall_app; auto.
  - intros [H1 H2]. split; [apply Forall_app; auto | exact H2].
Qed.

(** One [pgdb.connect] call with the arguments read from the secret. *)
Lemma attempt_run d port dbname ssl w :
  let m := bind (connect_args d port dbname ssl)
                (fun p => bind (connect E p) (fun conn => ret (Some conn))) in
  match m w with
  | (Ok (Some c), w') => w_trace w' = w_trace w ++ [EvConnect (s_params c) (Some (sid c))]
  | (Ok None, _) => False
  | (Raise e, w') =>
      (w_trace w' = w_trace w /\
       exists k, k ∈ ["host"; "username"; "password"] /\ d !! k = None /\ e = KeyError k) \/
      (exists p db', cp_ssl p = ssl /\ pgdb_connect E p (w_db w) = (Some e, db') /\
                     w_trace w' = w_trace w ++ [EvConnect p None])
  end.
Proof.
  cbv zeta. unfold bind at 1.
  destruct (connect_args d port dbname ssl w) as [[p|e] w1] eqn:Ha.
  - pose proof (silent_connect_args d port dbname ssl w) as Hs.
    rewrite Ha in Hs; simpl in Hs; subst w1.
    apply connect_args_ok in Ha as (_ & _ & Hssl & _).
    unfold bind, connect.
    destruct (pgdb_connect E p (w_db w)) as [[e|] db'] eqn:Hc; simpl.
    + right. exists p, db'. auto.
    + reflexivity.
  - left. pose proof (silent_connect_args d port dbname ssl w) as Hs.
    rewrite Ha in Hs; simpl in Hs; subst w1.
    split; [reflexivity | eapply connect_args_raise; eauto].
Qed.

Lemma connect_without_ssl_run d port dbname w :
  exists t, w_trace (snd (connect_without_ssl E d port dbname w)) = w_trace w ++ t /\
            attempts_outcome E d (fst (connect_without_ssl E d port dbname w)) t.
Proof.
  unfold connect_without_ssl, try_except.
  pose proof (attempt_run d port dbname false w) as H. cbv zeta in H.
  destruct (bind (connect_args d port dbname false) _ w) as [[[c|]|e] w'].
  - exists [EvConnect (s_params c) (Some (sid c))]. split; [exact H |].
    exists []. split; [reflexivity | constructor].
  - contradiction.
  - destruct H as [[Ht (k & Hk & Hd & ->)] | (p & db' & Hssl & Hc & Ht)].
    + exists []. simpl. rewrite app_nil_r. split; [exact Ht |].
      split; [constructor |]. left. left. eauto.
    + exists [EvConnect p None].
      assert (Hf : Forall failed_attempt [EvConnect p None])
        by (constructor; [eexists; reflexivity | constructor]).
      destruct e; simpl; (split; [exact Ht |]); try exact Hf;
        (split; [exact Hf |]); right; exists p, (w_db w), db';
        (split; [exact Hssl | split; [exact Hc | intros ?; discriminate]]).
Qed.

Lemma connect_and_authenticate_run d port dbname use_ssl w :
  exists t,
    w_trace (snd (connect_and_authenticate E d port dbname use_ssl w)) = w_trace w ++ t /\
    attempts_outcome E d (fst (connect_and_authenticate E d port dbname use_ssl w)) t.
Proof.
  unfold connect_and_authenticate.
  destruct use_ssl; [| apply connect_without_ssl_run].
  unfold try_except.
  pose proof (attempt_run d port dbname true w) as H. cbv zeta in H.
  destruct (bind (connect_args d port dbname true) _ w) as [[[c|]|e] w'].
  - exists [EvConnect (s_params c) (Some (sid c))]. split; [exact H |].
    exists []. split; [reflexivity | constructor].
  - contradiction.
  - destruct (connect_without_ssl_run d port dbname w') as (t & Ht & Ho).
    destruct H as [[Hw _] | (p & db' & _ & _ & Hw)].
    + exists t. rewrite Ht, Hw. auto.
    + exists ([EvConnect p None] ++ t). rewrite Ht, Hw, <- app_assoc.
      split; [reflexivity |]. apply attempts_outcome_after; [| exact Ho].
      constructor; [eexists; reflexivity | constructor].
Qed.

Lemma get_connection_run d w :
  exists t, w_trace (snd (get_connection E d w)) = w_trace w ++ t /\
            attempts_outcome E d (fst (get_connection E d w)) t.
Proof.
  unfold get_connection, bind.
  set (port_of := match d !! "port" with Some v => py_int E v | None => ret 5432 end).
  assert (Hport : silent port_of).
  { unfold port_of. destruct (d !! "port"); [apply silent_py_int | apply silent_ret]. }
  rewrite (silent_run port_of w Hport).
  destruct (fst (port_of w)) as [port|e] eqn:Hp.
  2:{ exists []. simpl. rewrite app_nil_r. split; [reflexivity |].
      split; [constructor |]. left. right. unfold port_of in Hp.
      destruct (d !! "port") as [v|]; [| discriminate].
      exists v. split; [reflexivity |]. intros w0. revert Hp.
      unfold py_int. destruct v; try destruct (int_of_str E s); simpl; congruence. }
  destruct (get_ssl_config d) as [use_ssl fall_back].
  destruct (connect_and_authenticate_run d port (match d !! "dbname" with
            | Some v => v | None => PStr "postgres" end) use_ssl w) as (t & Ht & Ho).
  destruct (connect_and_authenticate E d port _ use_ssl w) as [[conn|e] w'];
    simpl in Ht, Ho; [| exists t; auto].
  destruct (connected conn || negb fall_back) eqn:Hc; [exists t; auto |].
  destruct conn as [c|]; [discriminate |]. simpl in Ho.
  match goal with |- context [connect_and_authenticate E d port ?n false w'] =>
    destruct (connect_and_authenticate_run d port n false w') as (t2 & Ht2 & Ho2) end.
  exists (t ++ t2). rewrite Ht2, Ht, <- app_assoc. split; [reflexivity |].
  apply attempts_outcome_after; auto.
Qed.

End Negotiation.

Section NegotiationClaims.
Context {DB : Type} (E : Env DB).
Implicit Types (w : world DB) (d : dict).

(** C6: a connection attempt that fails (the driver raises
    [pg.InternalError]) never makes [get_connection] raise.  The result is
    a session that the last attempt opened, or [None] after attempts that
    all failed; [get_connection] raises only for a malformed secret (a
    missing [host], [username] or [password], or a [port] that [int]
    rejects), and returns for every secret that is well formed. *)
Theorem get_connection_failure_is_null :
  failures_are_internal_errors E ->
  forall d w,
    match fst (get_connection E d w) with
    | Ok (Some conn) =>
        exists t0, events_of (get_connection E d) w
                   = t0 ++ [EvConnect (s_params conn) (Some (sid conn))]
                   /\ Forall failed_attempt t0
    | Ok None => Forall failed_attempt (events_of (get_connection E d) w)
    | Raise e => malformed_input E d e
    end /\
    ((forall k, k ∈ ["host"; "username"; "password"] -> is_Some (d !! k)) ->
     (forall v, d !! "port" = Some v -> exists z, fst (py_int E v w) = Ok z) ->
     exists r, fst (get_connection E d w) = Ok r).
Proof.
  intros Hdrv d w.
  destruct (get_connection_run E d w) as (t & Ht & Ho).
  rewrite (events_of_grows (fun _ => True) _ _ _ Ht).
  assert (Hraise : forall e, fst (get_connection E d w) = Raise e -> malformed_input E d e).
  { intros e He. rewrite He in Ho. destruct Ho as [_ [Hm | (p & db & db' & Hp & Hc & Hn)]].
    - exact Hm.
    - destruct (Hdrv p db e db' Hp Hc) as [msg ->]. exfalso. eapply Hn; reflexivity. }
  split.
  - destruct (fst (get_connection E d w)) as [[c|]|e]; simpl in Ho; auto.
  - intros Hkeys Hport.
    destruct (fst (get_connection E d w)) as [r|e]; [eauto |].
    exfalso. destruct (Hraise e eq_refl) as [(k & Hk & Hd & _) | (v & Hv & Hi)].
    + destruct (Hkeys k Hk) as [x Hx]. congruence.
    + destruct (Hport v Hv) as [z Hz]. rewrite Hi in Hz. discriminate.
Qed.

(** A failed encrypted attempt is followed by the attempts without TLS,
    and [connect_and_authenticate] is not told what [fall_back] is. *)
Lemma encrypted_failure_is_retried d port dbname w p e db' :
  connect_args d port dbname true w = (Ok p, w) ->
  pgdb_connect E p (w_db w) = (Some e, db') ->
  connect_and_authenticate E d port dbname true w
  = connect_without_ssl E d port dbname
      (set_trace (w_trace w ++ [EvConnect p None]) (set_db db' w)).
Proof.
  intros Hargs Hfail. unfold connect_and_authenticate, try_except.
  unfold bind at 1. rewrite Hargs. unfold bind, connect. rewrite Hfail. reflexivity.
Qed.

End NegotiationClaims.

Lemma toy_failures_are_internal_errors directory :
  failures_are_internal_errors (Toy.env directory).
Proof.
  intros p db e db' _. simpl. unfold Toy.toy_connect.
  destruct (cp_ssl p && negb (Toy.tls db)).
  { intros H; injection H as <- _. eauto. }
  destruct (cp_user p), (cp_password p);
    try (intros H; injection H as <- _; eauto).
  destruct (bool_decide _); intros H; [discriminate | injection H as <- _; eauto].
Qed.

Lemma get_connection_failure_is_null_witness :
  failures_are_internal_errors (Toy.env Toy.no_directory) /\
  Forall failed_attempt
    (events_of (get_connection (Toy.env Toy.no_directory) Toy.stale_record)
               (Toy.start ∅ Toy.plain_server)).
Proof.
  split; [apply toy_failures_are_internal_errors |].
  exact (proj1 (get_connection_failure_is_null (Toy.env Toy.no_directory)
                  (toy_failures_are_internal_errors Toy.no_directory)
                  Toy.stale_record (Toy.start ∅ Toy.plain_server))).
Defined.

(** C1 (the code departs from it): [strict_record] resolves to
    (use_ssl=true, fall_back=false) and its encrypted attempt fails, yet
    [get_connection] goes on to an attempt without TLS and returns the
    session that attempt opened. *)
Theorem get_connection_falls_back_against_policy :
  let run := get_connection (Toy.env Toy.no_directory) Toy.strict_record
                            (Toy.start ∅ Toy.plain_server) in
  get_ssl_config Toy.strict_record = (true, false) /\
  (exists p q,
     w_trace (snd run) = [EvConnect p None; EvConnect q (Some O)] /\
     cp_ssl p = true /\ cp_ssl q = false /\
     fst run = Ok (Some {| sid := O; s_params := q |})) /\
  existsb is_unencrypted_attempt (w_trace (snd run)) = true.
Proof.
  cbv zeta. split; [reflexivity |]. split; [| reflexivity].
  eexists _, _. repeat split; reflexivity.
Qed.

(** ** The User Provisioner *)

Section Provisioner.
Context {DB : Type} (E : Env DB).
Implicit Types (w : world DB) (d : dict).

Lemma bind_ok {A B} (m : M DB A) (k : A -> M DB B) w a w' :
  m w = (Ok a, w') -> bind m k w = k a w'.
Proof. intros H. unfold bind. rewrite H. reflexivity. Qed.

Lemma bind_raise {A B} (m : M DB A) (k : A -> M DB B) w e w' :
  m w = (Raise e, w') -> bind m k w = (Raise e, w').
Proof. intros H. unfold bind. rewrite H. reflexivity. Qed.

Lemma subscript_some d k v w : d !! k = Some v -> subscript d k w = (Ok v, w).
Proof. intros H. unfold subscript. rewrite H. reflexivity. Qed.

Lemma get_secret_dict_run arn stage token master w r :
  fst (get_secret_dict arn stage token master w) = r ->
  get_secret_dict arn stage token master w = (r, w).
Proof.
  intros <-. apply silent_run, silent_get_secret_dict.
Qed.

(** The backfill keeps every entry of the master that is truthy and takes
    the child's entry otherwise. *)
Lemma backfill_lookup (secret_dict master_dict : dict) k :
  backfill secret_dict master_dict !! k =
  match secret_dict !! k with
  | Some v => if get_truthy master_dict k then master_dict !! k else Some v
  | None => master_dict !! k
  end.
Proof.
  unfold backfill. revert k.
  apply (map_fold_weak_ind
           (fun (r : dict) (c : dict) => forall k,
              r !! k = match c !! k with
                       | Some v => if get_truthy master_dict k then master_dict !! k
                                   else Some v
                       | None => master_dict !! k
                       end)).
  - intros k. rewrite lookup_empty. reflexivity.
  - intros i x c r Hi IH k.
    assert (Hr : get_truthy r i = get_truthy master_dict i).
    { unfold get_truthy. rewrite (IH i), Hi. reflexivity. }
    rewrite Hr. destruct (decide (i = k)) as [->|Hne].
    + rewrite lookup_insert_eq.
      destruct (get_truthy master_dict k) eqn:Ht.
      * rewrite (IH k), Hi. reflexivity.
      * apply lookup_insert_eq.
    + rewrite (lookup_insert_ne c) by exact Hne.
      destruct (get_truthy master_dict i); [apply IH |].
      rewrite lookup_insert_ne by exact Hne. apply IH.
Qed.

Lemma complete_master_dict_dbname (secret_dict master_dict : dict) :
  complete_master_dict secret_dict master_dict !! "dbname" = Some (child_dbname secret_dict).
Proof. unfold complete_master_dict. apply lookup_insert_eq. Qed.

Lemma complete_master_dict_other (secret_dict master_dict : dict) k :
  k <> "dbname" ->
  complete_master_dict secret_dict master_dict !! k = backfill secret_dict master_dict !! k.
Proof. intros Hk. unfold complete_master_dict. apply lookup_insert_ne. congruence. Qed.

Lemma emits_is_rds_replica_database P (replica_dict master_dict : dict) :
  (forall id, P (EvDescribeInstances id)) ->
  emits P (is_rds_replica_database E replica_dict master_dict).
Proof.
  intros HP. unfold is_rds_replica_database.
  apply emits_bind; [apply silent_emits, silent_subscript | intros rh].
  apply emits_bind; [apply silent_emits, silent_split_first | intros rid].
  apply emits_bind; [apply silent_emits, silent_subscript | intros mh].
  apply emits_bind; [apply silent_emits, silent_split_first | intros mid].
  apply emits_bind; [apply emits_emit, HP | intros _].
  destruct (describe_db_instances E rid) as [[|i l]|]; apply emits_ret.
Qed.

Lemma emits_create_user_if_not_exists (secret_dict : dict) :
  emits (provisioner_event secret_dict) (create_user_if_not_exists E secret_dict).
Proof.
  assert (Hsil : forall A (m : M DB A), silent m -> emits (provisioner_event secret_dict) m)
    by (intros; apply silent_emits; assumption).
  unfold create_user_if_not_exists.
  destruct (get_truthy secret_dict "masterarn"); [| apply emits_ret].
  apply emits_bind; [apply Hsil, silent_subscript | intros master_arn].
  apply emits_bind; [apply Hsil, silent_get_secret_dict | intros master_dict].
  apply emits_bind; [apply Hsil, silent_subscript | intros host].
  apply emits_bind; [apply Hsil, silent_subscript | intros master_host].
  apply emits_bind.
  { destruct (negb (py_eq host master_host)); [| apply emits_ret].
    apply emits_bind.
    - apply emits_is_rds_replica_database. intros id. repeat split.
    - intros []; [apply emits_ret | apply emits_raise]. }
  intros _. apply emits_bind.
  { eapply emits_weaken; [| apply emits_get_connection].
    intros ev [Hc Hd]. unfold dbname_of in Hd.
    rewrite complete_master_dict_dbname in Hd.
    destruct ev; try discriminate. repeat split. exact Hd. }
  intros [conn|]; [| apply emits_raise].
  apply emits_try_finally; [| apply emits_close; repeat split].
  apply emits_bind; [apply Hsil, silent_subscript | intros username].
  apply emits_bind; [apply emits_execute; repeat split | intros rows].
  apply emits_bind.
  { destruct rows as [|[|c r] rows']; [apply emits_raise | apply emits_raise | apply emits_ret]. }
  intros current_username.
  apply emits_bind; [apply Hsil, silent_subscript | intros username'].
  apply emits_bind; [apply emits_execute; repeat split | intros rows2].
  apply emits_bind.
  { destruct (length rows2 =? 0)%nat; [| apply emits_ret].
    apply emits_bind; [apply Hsil, silent_subscript | intros password].
    apply emits_bind; [apply emits_execute; repeat split | intros _; apply emits_ret]. }
  intros user_created.
  apply emits_bind; [apply emits_commit; repeat split | intros _].
  apply emits_bind; [apply Hsil, silent_subscript | intros _; apply emits_ret].
Qed.

(** The master's host survives the backfill when it is a non-empty string. *)
Lemma complete_master_dict_host (secret_dict master_dict : dict) mh :
  master_dict !! "host" = Some (PStr mh) -> mh <> "" ->
  complete_master_dict secret_dict master_dict !! "host" = Some (PStr mh).
Proof.
  intros Hm Hne. rewrite complete_master_dict_other by discriminate.
  rewrite backfill_lookup. unfold get_truthy. rewrite Hm. simpl.
  destruct (String.eqb_spec mh ""); [contradiction |]. simpl.
  destruct (secret_dict !! "host"); reflexivity.
Qed.

End Provisioner.

Ltac emits_step :=
  match goal with
  | |- emits _ (bind _ _) => apply emits_bind; [| intros ?]
  | |- emits _ (ret _) => apply emits_ret
  | |- emits _ (raise _) => apply emits_raise
  | |- emits _ (subscript _ _) => apply silent_emits, silent_subscript
  | |- emits _ (try_finally _ _) => apply emits_try_finally
  | |- emits _ (execute _ _ _ _) => apply emits_execute
  | |- emits _ (commit _ _) => apply emits_commit
  | |- emits _ (close _ _) => apply emits_close
  | |- emits _ (get_connection _ _) =>
      eapply emits_weaken; [| apply emits_get_connection]
  | |- emits _ (fetchone_0 ?r) => destruct r as [|[|? ?] ?]; simpl
  | |- emits _ (match ?x with _ => _ end) => destruct x
  end.

Section ProvisionerClaims.
Context {DB : Type} (E : Env DB).
Implicit Types (w : world DB) (d : dict).

Lemma bind_extends {A B} P (m : M DB A) (k : A -> M DB B) w :
  (forall a, emits P (k a)) -> grows P (snd (m w)) (snd (bind m k w)).
Proof.
  intros Hk. unfold bind. destruct (m w) as [[a|e] w']; simpl.
  - apply Hk.
  - apply grows_refl.
Qed.

Lemma try_except_extends {A} P (m : M DB A) h w :
  (forall e k, h e = Some k -> emits P k) ->
  grows P (snd (m w)) (snd (try_except m h w)).
Proof.
  intros Hh. unfold try_except. destruct (m w) as [[a|e] w']; simpl.
  - apply grows_refl.
  - destruct (h e) as [k|] eqn:He; [eapply Hh; eauto | apply grows_refl].
Qed.

(** The first thing [get_connection] does for a well-formed secret is a
    [pgdb.connect] call for the database of the secret, in the mode the
    policy selects. *)
Lemma get_connection_first_attempt d w h u pw :
  d !! "host" = Some h -> d !! "username" = Some u -> d !! "password" = Some pw ->
  (forall v, d !! "port" = Some v -> exists z, fst (py_int E v w) = Ok z) ->
  exists p o t,
    w_trace (snd (get_connection E d w)) = w_trace w ++ EvConnect p o :: t /\
    cp_database p = dbname_of d /\ cp_ssl p = fst (get_ssl_config d).
Proof.
  intros Hh Hu Hpw Hport. unfold get_connection.
  set (port_of := match d !! "port" with Some v => py_int E v | None => ret 5432 end).
  assert (Hp : exists port, port_of w = (Ok port, w)).
  { unfold port_of. destruct (d !! "port") as [v|]; [| eexists; reflexivity].
    destruct (Hport v eq_refl) as [z Hz]. exists z.
    rewrite (silent_run _ w (silent_py_int E v)), Hz. reflexivity. }
  destruct Hp as [port Hp]. rewrite (bind_ok _ _ _ _ _ Hp).
  fold (dbname_of d). destruct (get_ssl_config d) as [use_ssl fall_back]. simpl fst.
  set (p := {| cp_host := h; cp_user := u; cp_password := pw;
               cp_database := dbname_of d; cp_port := port; cp_ssl := use_ssl |}).
  set (attempt := bind (connect_args d port (dbname_of d) use_ssl)
                       (fun p => bind (connect E p) (fun conn => ret (Some conn)))).
  assert (Ha : exists o, w_trace (snd (attempt w)) = w_trace w ++ [EvConnect p o]).
  { unfold attempt, connect_args, bind, subscript. rewrite Hh, Hu, Hpw. simpl.
    unfold connect. fold p. destruct (pgdb_connect E p (w_db w)) as [[e|] db'];
      eexists; reflexivity. }
  destruct Ha as [o Ha].
  assert (Hca : grows (fun _ => True) (snd (attempt w))
                  (snd (connect_and_authenticate E d port (dbname_of d) use_ssl w))).
  { unfold connect_and_authenticate, connect_without_ssl. fold attempt.
    destruct use_ssl; apply try_except_extends.
    - intros e k Hk; inversion Hk.
      eapply emits_weaken; [| apply emits_connect_without_ssl]. auto.
    - intros e k Hk; destruct e; inversion Hk; apply emits_ret. }
  assert (Hrest : grows (fun _ => True)
            (snd (connect_and_authenticate E d port (dbname_of d) use_ssl w))
            (snd (bind (connect_and_authenticate E d port (dbname_of d) use_ssl)
                    (fun conn => if connected conn || negb fall_back then ret conn
                                 else connect_and_authenticate E d port (dbname_of d) false)
                    w))).
  { apply bind_extends. intros conn.
    destruct (connected conn || negb fall_back); [apply emits_ret |].
    eapply emits_weaken; [| apply emits_connect_and_authenticate]. auto. }
  destruct (grows_trans _ _ _ _ Hca Hrest) as (t & Ht & _).
  exists p, o, t. rewrite Ht, Ha, <- app_assoc. auto.
Qed.

(** C5: a child whose [masterarn] names a master secret on another host,
    which the directory does not report as the replication source of the
    child's instance, makes [create_user_if_not_exists] fail with the
    policy violation of line 537; the directory lookup is all it did: no
    database connection was attempted and the server is untouched. *)
Theorem create_user_refuses_unrelated_host
    (secret_dict : dict) w master_arn (master_dict : dict) host master_host :
  secret_dict !! "masterarn" = Some master_arn -> truthy master_arn = true ->
  fst (get_secret_dict master_arn "AWSCURRENT" None true w) = Ok master_dict ->
  secret_dict !! "host" = Some (PStr host) ->
  master_dict !! "host" = Some (PStr master_host) ->
  master_host <> "" -> master_host <> host ->
  directory_reports_replica E host master_host = false ->
  let run := create_user_if_not_exists E secret_dict w in
  fst run = Raise (ValueError (NotSameHostOrReplica (PStr host) (PStr master_host))) /\
  kind_of (ValueError (NotSameHostOrReplica (PStr host) (PStr master_host)))
    = Some PolicyViolation /\
  events_of (create_user_if_not_exists E secret_dict) w
    = [EvDescribeInstances (first_label host)] /\
  Forall (fun ev => is_connect ev = false)
         (events_of (create_user_if_not_exists E secret_dict) w) /\
  w_db (snd run) = w_db w /\ w_open (snd run) = w_open w.
Proof.
  intros Harn Htruthy Hmaster Hhost Hmhost Hne Hdiff Hdir.
  assert (Hrun : create_user_if_not_exists E secret_dict w
                 = (Raise (ValueError (NotSameHostOrReplica (PStr host) (PStr master_host))),
                    set_trace (w_trace w ++ [EvDescribeInstances (first_label host)]) w)).
  { unfold create_user_if_not_exists.
    unfold get_truthy. rewrite Harn, Htruthy.
    rewrite (bind_ok _ _ _ _ _ (subscript_some _ _ _ _ Harn)).
    rewrite (bind_ok _ _ _ _ _ (get_secret_dict_run _ _ _ _ _ _ Hmaster)).
    rewrite (bind_ok _ _ _ _ _ (subscript_some _ _ _ _ Hhost)).
    pose proof (complete_master_dict_host secret_dict master_dict master_host Hmhost Hne)
      as Hcm.
    rewrite (bind_ok _ _ _ _ _ (subscript_some _ _ _ _ Hcm)).
    assert (Heq : py_eq (PStr host) (PStr master_host) = false).
    { simpl. apply String.eqb_neq. congruence. }
    rewrite Heq. cbn [negb].
    apply bind_raise.
    assert (Hrep : is_rds_replica_database E secret_dict
                     (complete_master_dict secret_dict master_dict) w
                   = (Ok false,
                      set_trace (w_trace w ++ [EvDescribeInstances (first_label host)]) w)).
    { unfold is_rds_replica_database.
      rewrite (bind_ok _ _ _ _ _ (subscript_some _ _ _ _ Hhost)).
      unfold split_first at 1. rewrite (bind_ok _ _ _ (first_label host) w eq_refl).
      rewrite (bind_ok _ _ _ _ _ (subscript_some _ _ _ _ Hcm)).
      unfold split_first at 1. rewrite (bind_ok _ _ _ (first_label master_host) w eq_refl).
      unfold bind, emit. unfold directory_reports_replica in Hdir.
      destruct (describe_db_instances E (first_label host)) as [[|i l]|];
        try reflexivity.
      rewrite Hdir. reflexivity. }
    rewrite (bind_ok _ _ _ _ _ Hrep). reflexivity. }
  cbv zeta. rewrite Hrun. simpl.
  assert (Hev : events_of (create_user_if_not_exists E secret_dict) w
                = [EvDescribeInstances (first_label host)]).
  { apply (events_of_grows (fun _ => True)). rewrite Hrun. reflexivity. }
  rewrite Hev. repeat split. repeat constructor.
Qed.

(** C10: for a child without a [dbname] key the master record gets
    [dbname = None], whatever the master had; [get_connection] puts
    ["postgres"] only where the key is absent, so every connection the
    provisioner attempts asks for the database [None]; and when the master
    record is complete, the provisioner's first act is such an attempt. *)
Theorem create_user_connects_to_database_none (secret_dict : dict) :
  secret_dict !! "dbname" = None ->
  (forall master_dict : dict,
     complete_master_dict secret_dict master_dict !! "dbname" = Some PNone) /\
  (forall d, d !! "dbname" = Some PNone ->
     forall w, Forall (attempts_database PNone) (events_of (get_connection E d) w)) /\
  (forall w, Forall (attempts_database PNone)
                    (events_of (create_user_if_not_exists E secret_dict) w)) /\
  (forall w master_arn (master_dict : dict) host master_host u pw,
     secret_dict !! "masterarn" = Some master_arn -> truthy master_arn = true ->
     fst (get_secret_dict master_arn "AWSCURRENT" None true w) = Ok master_dict ->
     let master := complete_master_dict secret_dict master_dict in
     secret_dict !! "host" = Some host -> master !! "host" = Some master_host ->
     py_eq host master_host = true ->
     master !! "username" = Some u -> master !! "password" = Some pw ->
     (forall v, master !! "port" = Some v -> exists z, fst (py_int E v w) = Ok z) ->
     exists p o t,
       events_of (create_user_if_not_exists E secret_dict) w = EvConnect p o :: t /\
       cp_database p = PNone /\ cp_database p <> PStr "postgres").
Proof.
  intros Hnone.
  assert (Hchild : child_dbname secret_dict = PNone)
    by (unfold child_dbname; rewrite Hnone; reflexivity).
  split; [| split; [| split]].
  - intros master_dict. rewrite complete_master_dict_dbname, Hchild. reflexivity.
  - intros d Hd w.
    destruct (grows_events_of _ _ _ (emits_get_connection E d w)) as [_ Hall].
    eapply Forall_impl; [exact Hall |]. intros ev [_ Hdb].
    unfold dbname_of in Hdb. rewrite Hd in Hdb. exact Hdb.
  - intros w.
    destruct (grows_events_of _ _ _ (emits_create_user_if_not_exists E secret_dict w))
      as [_ Hall].
    eapply Forall_impl; [exact Hall |]. intros ev (_ & _ & _ & Hdb).
    rewrite Hchild in Hdb. exact Hdb.
  - intros w master_arn master_dict host master_host u pw
           Harn Htruthy Hmaster master Hhost Hmhost Heq Hu Hpw Hport.
    destruct (get_connection_first_attempt master w master_host u pw Hmhost Hu Hpw Hport)
      as (p & o & t & Ht & Hdb & _).
    assert (Hp : cp_database p = PNone).
    { rewrite Hdb. unfold dbname_of, master.
      rewrite complete_master_dict_dbname, Hchild. reflexivity. }
    assert (Hext : grows (fun _ => True) (snd (get_connection E master w))
                     (snd (create_user_if_not_exists E secret_dict w))).
    { unfold create_user_if_not_exists.
      unfold get_truthy. rewrite Harn, Htruthy.
      rewrite (bind_ok _ _ _ _ _ (subscript_some _ _ _ _ Harn)).
      rewrite (bind_ok _ _ _ _ _ (get_secret_dict_run _ _ _ _ _ _ Hmaster)).
      rewrite (bind_ok _ _ _ _ _ (subscript_some _ _ _ _ Hhost)).
      fold master. rewrite (bind_ok _ _ _ _ _ (subscript_some _ _ _ _ Hmhost)).
      rewrite Heq. cbn [negb]. rewrite (bind_ok _ _ _ tt w eq_refl).
      apply bind_extends. intros conn.
      repeat (emits_step; try exact I).
      all: try exact I. }
    destruct Hext as (t' & Ht' & _).
    exists p, o, (t ++ t'). split; [| split; [exact Hp | rewrite Hp; discriminate]].
    apply (events_of_grows (fun _ => True)).
    rewrite Ht', Ht, <- app_assoc. reflexivity.
Qed.

End ProvisionerClaims.


Lemma create_user_refuses_unrelated_host_witness :
  fst (create_user_if_not_exists (Toy.env Toy.no_directory) Toy.child_elsewhere
         (Toy.start Toy.vault_primary Toy.admin_server))
  = Raise (ValueError (NotSameHostOrReplica (PStr "other.example") (PStr "primary.example")))
  /\ events_of (create_user_if_not_exists (Toy.env Toy.no_directory) Toy.child_elsewhere)
               (Toy.start Toy.vault_primary Toy.admin_server)
     = [EvDescribeInstances (first_label "other.example")].
Proof.
  destruct (create_user_refuses_unrelated_host (Toy.env Toy.no_directory)
              Toy.child_elsewhere (Toy.start Toy.vault_primary Toy.admin_server)
              (PStr Toy.master) (<["host" := PStr "primary.example"]> Toy.admin_record)
              "other.example" "primary.example") as (H1 & _ & H2 & _);
    [vm_compute; reflexivity | reflexivity | vm_compute; reflexivity
    | vm_compute; reflexivity | vm_compute; reflexivity
    | discriminate | discriminate | reflexivity |].
  split; [exact H1 | exact H2].
Defined.

Lemma create_user_connects_to_database_none_witness :
  exists p o t,
    events_of (create_user_if_not_exists (Toy.env Toy.no_directory) Toy.child_without_dbname)
              (Toy.start Toy.vault_admin_db Toy.admin_server)
    = EvConnect p o :: t /\ cp_database p = PNone /\ cp_database p <> PStr "postgres".
Proof.
  assert (Hnone : Toy.child_without_dbname !! "dbname" = None) by (vm_compute; reflexivity).
  destruct (create_user_connects_to_database_none (Toy.env Toy.no_directory)
              Toy.child_without_dbname Hnone) as (_ & _ & _ & H).
  apply (H (Toy.start Toy.vault_admin_db Toy.admin_server) (PStr Toy.master)
           (<["dbname" := PStr "admin_db"]> Toy.admin_record)
           (PStr "db.example") (PStr "db.example") (PStr "admin") (PStr "adm"));
    [vm_compute; reflexivity | reflexivity | vm_compute; reflexivity
    | vm_compute; reflexivity | vm_compute; reflexivity | reflexivity
    | vm_compute; reflexivity | vm_compute; reflexivity |].
  intros v Hv. vm_compute in Hv. discriminate Hv.
Defined.

(** ** [set_secret] *)

Section SetSecret.
Context {DB : Type} (E : Env DB).
Implicit Types (w : world DB) (d : dict).

Lemma silent_world {A} (m : M DB A) w r w' : silent m -> m w = (r, w') -> w' = w.
Proof. intros Hs Hm. rewrite <- (Hs w), Hm. reflexivity. Qed.

Lemma get_secret_value_raises arn version_id stage w e :
  fst (get_secret_value (DB:=DB) (PStr arn) version_id stage w) = Raise e ->
  e = ResourceNotFoundException.
Proof.
  unfold get_secret_value. destruct (w_vault w !! arn); [| simpl; congruence].
  match goal with |- fst (match ?x with _ => _ end) = _ -> _ => destruct x end;
    simpl; congruence.
Qed.

Lemma check_required_raises fields d w e :
  fst (check_required (DB:=DB) fields d w) = Raise e -> exists msg, e = KeyError msg.
Proof.
  induction fields as [|f r IH]; simpl; [discriminate |].
  destruct (d !! f); [exact IH |]. simpl. intros [= <-]. eauto.
Qed.

(** The exceptions of [get_secret_dict] for a secret id that is a string. *)
Lemma get_secret_dict_raises arn stage token master w e :
  fst (get_secret_dict (DB:=DB) (PStr arn) stage token master w) = Raise e ->
  e = ResourceNotFoundException \/ (exists msg, e = KeyError msg)
  \/ e = ValueError NotValidJson.
Proof.
  unfold get_secret_dict, bind.
  rewrite (silent_run _ w (silent_get_secret_value (PStr arn) (token_given token) stage)).
  destruct (fst (get_secret_value (PStr arn) (token_given token) stage w)) as [s|e0] eqn:Hv.
  2:{ intros [= <-]. left. eapply get_secret_value_raises; eauto. }
  destruct s as [|d]; cbn [json_loads raise ret fst]; [intros [= <-]; auto |].
  destruct master; cbn [negb]; [discriminate |].
  rewrite (silent_run _ w (silent_check_required required_fields d)).
  destruct (fst (check_required required_fields d w)) as [[]|e1] eqn:Hc.
  2:{ intros [= <-]. right; left. eapply check_required_raises; eauto. }
  unfold subscript. destruct (d !! "engine") as [v|]; [| intros [= <-]; eauto].
  cbn [ret]. destruct (existsb (py_eq v) supported_engines);
    [discriminate | intros [= <-]; eauto].
Qed.

Lemma silent_fetch_previous arn : silent (fetch_previous (DB:=DB) arn).
Proof.
  unfold fetch_previous. apply silent_try_except.
  - apply silent_bind; [apply silent_get_secret_dict | intros; apply silent_ret].
  - intros e k Hk. destruct e; inversion Hk; apply silent_ret.
Qed.

(** [fetch_previous] returns unless [AWSPREVIOUS] is not JSON. *)
Lemma fetch_previous_run arn w :
  previous_is_readable arn w ->
  exists previous_dict, fetch_previous arn w = (Ok previous_dict, w).
Proof.
  intros Hr. unfold previous_is_readable in Hr.
  unfold fetch_previous, try_except, bind.
  rewrite (silent_run _ w (silent_get_secret_dict (PStr arn) "AWSPREVIOUS" None false)).
  destruct (fst (get_secret_dict (PStr arn) "AWSPREVIOUS" None false w)) as [d|e] eqn:Hd.
  - eexists; reflexivity.
  - destruct (get_secret_dict_raises _ _ _ _ _ _ Hd) as [-> | [[msg ->] | ->]].
    + eexists; reflexivity.
    + eexists; reflexivity.
    + contradiction.
Qed.

(** The run of [set_secret] when the server accepts PENDING. *)
Lemma set_secret_pending_accepted_run arn token w (current_dict pending_dict : dict)
      previous_dict r1 w1 conn w2 :
  fetch_previous arn w = (Ok previous_dict, w) ->
  fst (get_secret_dict (PStr arn) "AWSCURRENT" None false w) = Ok current_dict ->
  fst (get_secret_dict (PStr arn) "AWSPENDING" (Some token) false w) = Ok pending_dict ->
  create_user_if_not_exists E current_dict w = (r1, w1) ->
  get_connection E pending_dict w1 = (Ok (Some conn), w2) ->
  set_secret E arn token w = match r1 with
                             | Ok _ => close E conn w2
                             | Raise e => (Raise e, w1)
                             end.
Proof.
  intros Hprev Hcur Hpend Hprov Hconn.
  unfold set_secret. rewrite (bind_ok _ _ _ _ _ Hprev).
  rewrite (bind_ok _ _ _ _ _ (get_secret_dict_run _ _ _ _ _ _ Hcur)).
  rewrite (bind_ok _ _ _ _ _ (get_secret_dict_run _ _ _ _ _ _ Hpend)).
  destruct r1 as [b|e].
  - rewrite (bind_ok _ _ _ _ _ Hprov), (bind_ok _ _ _ _ _ Hconn). reflexivity.
  - rewrite (bind_raise _ _ _ _ _ Hprov). reflexivity.
Qed.

(** When PENDING is accepted, [set_secret] did nothing at all (the fetch of
    [AWSPREVIOUS] failed), or what the provisioner did followed by
    connection attempts and a [close]. *)
Lemma set_secret_pending_accepted arn token w (current_dict pending_dict : dict)
      r1 w1 conn w2 :
  fst (get_secret_dict (PStr arn) "AWSCURRENT" None false w) = Ok current_dict ->
  fst (get_secret_dict (PStr arn) "AWSPENDING" (Some token) false w) = Ok pending_dict ->
  create_user_if_not_exists E current_dict w = (r1, w1) ->
  get_connection E pending_dict w1 = (Ok (Some conn), w2) ->
  events_of (set_secret E arn token) w = [] \/
  exists t, events_of (set_secret E arn token) w
            = events_of (create_user_if_not_exists E current_dict) w ++ t
            /\ Forall (fun ev => is_execute ev = false) t.
Proof.
  intros Hcur Hpend Hprov Hconn.
  destruct (grows_events_of _ _ _ (emits_create_user_if_not_exists E current_dict w))
    as [Hprov_t _].
  rewrite Hprov in Hprov_t. simpl in Hprov_t.
  destruct (fetch_previous arn w) as [[previous_dict|e] w0] eqn:Hprev;
    pose proof (silent_world _ _ _ _ (silent_fetch_previous arn) Hprev) as ->.
  2:{ left. apply (events_of_grows (fun _ => True)). unfold set_secret.
      rewrite (bind_raise _ _ _ _ _ Hprev). symmetry; apply app_nil_r. }
  right.
  pose proof (set_secret_pending_accepted_run arn token w current_dict pending_dict
                previous_dict r1 w1 conn w2 Hprev Hcur Hpend Hprov Hconn) as Hrun.
  destruct r1 as [b|e].
  - destruct (emits_get_connection E pending_dict w1) as (tc & Htc & Hall).
    rewrite Hconn in Htc. simpl in Htc.
    exists (tc ++ [EvClose (sid conn)]). split.
    + apply (events_of_grows (fun _ => True)). rewrite Hrun. simpl.
      rewrite Htc, Hprov_t, <- !app_assoc. reflexivity.
    + apply Forall_app. split; [| repeat constructor].
      eapply Forall_impl; [exact Hall |].
      intros ev [Hc _]. destruct ev; try discriminate; reflexivity.
  - exists []. split; [| constructor].
    apply (events_of_grows (fun _ => True)). rewrite Hrun. simpl.
    rewrite app_nil_r. exact Hprov_t.
Qed.

(** C2, as the code has it: when the server accepts PENDING at the moment
    [set_secret] tries it, no password is altered, and the statements that
    [set_secret] ran are those of the User Provisioner, which ran before
    PENDING was tried; if CURRENT names no master secret there is no
    statement at all, so no database mutation.  The step returns when the
    provisioner did. *)
Theorem set_secret_pending_accepted_no_alteration arn token w
    (current_dict pending_dict : dict) conn :
  fst (get_secret_dict (PStr arn) "AWSCURRENT" None false w) = Ok current_dict ->
  fst (get_secret_dict (PStr arn) "AWSPENDING" (Some token) false w) = Ok pending_dict ->
  fst (get_connection E pending_dict (snd (create_user_if_not_exists E current_dict w)))
  = Ok (Some conn) ->
  Forall (fun ev => is_password_alteration ev = false) (events_of (set_secret E arn token) w) /\
  (forall ev, ev ∈ events_of (set_secret E arn token) w -> is_execute ev = true ->
              ev ∈ events_of (create_user_if_not_exists E current_dict) w) /\
  (get_truthy current_dict "masterarn" = false ->
   Forall (fun ev => is_db_mutation ev = false) (events_of (set_secret E arn token) w)) /\
  (previous_is_readable arn w ->
   forall b, fst (create_user_if_not_exists E current_dict w) = Ok b ->
             fst (set_secret E arn token w) = Ok tt).
Proof.
  intros Hcur Hpend Hconn.
  destruct (create_user_if_not_exists E current_dict w) as [r1 w1] eqn:Hprov.
  cbn [snd] in Hconn.
  destruct (get_connection E pending_dict w1) as [r2 w2] eqn:Hconn2.
  cbn [fst] in Hconn. subst r2. rename Hconn2 into Hconn.
  assert (Hret : previous_is_readable arn w ->
                 forall b, fst (r1, w1) = Ok b -> fst (set_secret E arn token w) = Ok tt).
  { intros Hread b Hb. cbn [fst] in Hb. subst r1.
    destruct (fetch_previous_run arn w Hread) as [previous_dict Hprev].
    rewrite (set_secret_pending_accepted_run arn token w current_dict pending_dict
               previous_dict (Ok b) w1 conn w2 Hprev Hcur Hpend Hprov Hconn).
    reflexivity. }
  destruct (grows_events_of _ _ _ (emits_create_user_if_not_exists E current_dict w))
    as [_ Hprov_all].
  assert (Hexec : forall ev, is_execute ev = false ->
                             is_password_alteration ev = false /\ is_db_mutation ev = false).
  { intros ev. unfold is_db_mutation. destruct ev; simpl; try discriminate; auto. }
  destruct (set_secret_pending_accepted arn token w current_dict pending_dict
              r1 w1 conn w2 Hcur Hpend Hprov Hconn) as [-> | (t & -> & Ht)].
  { split; [constructor | split; [| split; [constructor | exact Hret]]].
    intros ev Hin. inversion Hin. }
  split; [| split; [| split; [| exact Hret]]].
  - apply Forall_app. split.
    + eapply Forall_impl; [exact Hprov_all |]. intros ev (Ha & _). exact Ha.
    + eapply Forall_impl; [exact Ht |]. intros ev Hev. apply Hexec, Hev.
  - intros ev Hin Hev. apply elem_of_app in Hin as [Hin | Hin]; [exact Hin |].
    rewrite Forall_forall in Ht. rewrite (Ht ev Hin) in Hev. discriminate.
  - intros Hno.
    assert (Hnil : events_of (create_user_if_not_exists E current_dict) w = []).
    { apply (events_of_grows (fun _ => True)).
      unfold create_user_if_not_exists. rewrite Hno. simpl. symmetry; apply app_nil_r. }
    rewrite Hnil. simpl.
    eapply Forall_impl; [exact Ht |]. intros ev Hev. apply Hexec, Hev.
Qed.

(** C4, as the code has it: when PENDING and CURRENT differ in [username]
    or in [host], [set_secret] never issues the password alteration; and
    once the three secrets are read, the provisioner has returned and the
    server has refused PENDING, it fails with the policy violation of line
    174 or 179. *)
Theorem set_secret_mismatch_never_alters arn token w (current_dict pending_dict : dict)
    current_username pending_username current_host pending_host :
  fst (get_secret_dict (PStr arn) "AWSCURRENT" None false w) = Ok current_dict ->
  fst (get_secret_dict (PStr arn) "AWSPENDING" (Some token) false w) = Ok pending_dict ->
  current_dict !! "username" = Some current_username ->
  pending_dict !! "username" = Some pending_username ->
  current_dict !! "host" = Some current_host ->
  pending_dict !! "host" = Some pending_host ->
  py_eq current_username pending_username = false \/
  py_eq current_host pending_host = false ->
  Forall (fun ev => is_password_alteration ev = false) (events_of (set_secret E arn token) w) /\
  (previous_is_readable arn w ->
   forall b,
     fst (create_user_if_not_exists E current_dict w) = Ok b ->
     fst (get_connection E pending_dict (snd (create_user_if_not_exists E current_dict w)))
     = Ok None ->
     exists e, fst (set_secret E arn token w) = Raise e /\
               kind_of e = Some PolicyViolation /\
               (e = ValueError (OtherThanCurrentUser pending_username current_username) \/
                e = ValueError (OtherThanCurrentHost pending_host current_host))).
Proof.
  intros Hcur Hpend Hcu Hpu Hch Hph Hmis.
  set (P := fun ev => is_password_alteration ev = false).
  split.
  - apply (grows_events_of P). unfold set_secret.
    apply grows_bind; [apply silent_emits, silent_fetch_previous |].
    intros previous_dict w0 Hprev.
    pose proof (silent_world _ _ _ _ (silent_fetch_previous arn) Hprev) as ->.
    rewrite (bind_ok _ _ _ _ _ (get_secret_dict_run _ _ _ _ _ _ Hcur)).
    rewrite (bind_ok _ _ _ _ _ (get_secret_dict_run _ _ _ _ _ _ Hpend)).
    apply grows_bind.
    { eapply grows_weaken; [| apply emits_create_user_if_not_exists].
      intros ev (Ha & _); exact Ha. }
    intros b w1 _. apply grows_bind.
    { eapply grows_weaken; [| apply emits_get_connection].
      intros ev [Hc _]. destruct ev; try discriminate; reflexivity. }
    intros [conn|] w2 _; [apply emits_close; reflexivity |].
    rewrite (bind_ok _ _ _ _ _ (subscript_some _ _ _ _ Hcu)).
    rewrite (bind_ok _ _ _ _ _ (subscript_some _ _ _ _ Hpu)).
    destruct (py_eq current_username pending_username) eqn:Hu; cbn [negb];
      [| apply emits_raise].
    rewrite (bind_ok _ _ _ _ _ (subscript_some _ _ _ _ Hch)).
    rewrite (bind_ok _ _ _ _ _ (subscript_some _ _ _ _ Hph)).
    destruct (py_eq current_host pending_host) eqn:Hh; cbn [negb];
      [| apply emits_raise].
    destruct Hmis; congruence.
  - intros Hread b Hprov Hconn.
    destruct (create_user_if_not_exists E current_dict w) as [r1 w1] eqn:Hprov1.
    cbn [fst snd] in Hprov, Hconn.
    destruct (get_connection E pending_dict w1) as [r2 w2] eqn:Hconn2.
    cbn [fst] in Hconn. subst r1 r2. rename Hprov1 into Hprov, Hconn2 into Hconn.
    destruct (fetch_previous_run arn w Hread) as [previous_dict Hprev].
    unfold set_secret. rewrite (bind_ok _ _ _ _ _ Hprev).
    rewrite (bind_ok _ _ _ _ _ (get_secret_dict_run _ _ _ _ _ _ Hcur)).
    rewrite (bind_ok _ _ _ _ _ (get_secret_dict_run _ _ _ _ _ _ Hpend)).
    rewrite (bind_ok _ _ _ _ _ Hprov), (bind_ok _ _ _ _ _ Hconn).
    rewrite (bind_ok _ _ _ _ _ (subscript_some _ _ _ _ Hcu)).
    rewrite (bind_ok _ _ _ _ _ (subscript_some _ _ _ _ Hpu)).
    destruct (py_eq current_username pending_username) eqn:Hu; cbn [negb].
    2:{ eexists. split; [reflexivity | split; [reflexivity | auto]]. }
    rewrite (bind_ok _ _ _ _ _ (subscript_some _ _ _ _ Hch)).
    rewrite (bind_ok _ _ _ _ _ (subscript_some _ _ _ _ Hph)).
    destruct (py_eq current_host pending_host) eqn:Hh; cbn [negb].
    2:{ eexists. split; [reflexivity | split; [reflexivity | auto]]. }
    destruct Hmis; congruence.
Qed.

End SetSecret.


(** C2 (counterexample): the server accepts PENDING, and [set_secret]
    still creates a role, because the User Provisioner runs first. *)
Lemma set_secret_mutates_although_pending_accepted :
  let E := Toy.env Toy.no_directory in
  let w := Toy.start Toy.vault_other_user Toy.server_admin_and_bob in
  ~ ((exists pending_dict conn,
        fst (get_secret_dict (PStr Toy.arn) "AWSPENDING" (Some Toy.v2) false w) = Ok pending_dict /\
        fst (get_connection E pending_dict w) = Ok (Some conn)) ->
     Forall (fun ev => is_db_mutation ev = false) (events_of (set_secret E Toy.arn Toy.v2) w)).
Proof.
  cbv zeta. intros H.
  assert (Hev : EvExecute 0 "CREATE ROLE alice WITH LOGIN PASSWORD %s" [PStr "p1"]
                ∈ events_of (set_secret (Toy.env Toy.no_directory) Toy.arn Toy.v2)
                            (Toy.start Toy.vault_other_user Toy.server_admin_and_bob)).
  { vm_compute. do 3 right. left. }
  rewrite Forall_forall in H. apply H in Hev; [discriminate Hev |].
  exists (Toy.record "db.example" "bob" "p2").
  eexists. split; vm_compute; reflexivity.
Qed.

Lemma set_secret_pending_accepted_no_alteration_witness :
  Forall (fun ev => is_password_alteration ev = false)
         (events_of (set_secret (Toy.env Toy.no_directory) Toy.arn Toy.v2)
                    (Toy.start Toy.vault_other_user Toy.server_admin_and_bob)).
Proof.
  eapply proj1, (set_secret_pending_accepted_no_alteration (Toy.env Toy.no_directory)
                   Toy.arn Toy.v2 (Toy.start Toy.vault_other_user Toy.server_admin_and_bob)
                   (<["dbname" := PStr "app"]>
                      (<["masterarn" := PStr Toy.master]>
                         (Toy.record "db.example" "alice" "p1")))
                   (Toy.record "db.example" "bob" "p2")).
  - vm_compute; reflexivity.
  - vm_compute; reflexivity.
  - vm_compute; reflexivity.
Defined.

(** C4 (counterexample): PENDING names another user than CURRENT, the
    server accepts PENDING, and [set_secret] returns without an error. *)
Lemma set_secret_mismatch_returns_when_pending_accepted :
  let E := Toy.env Toy.no_directory in
  let w := Toy.start Toy.vault_mismatch Toy.server_bob in
  ~ (forall (current_dict pending_dict : dict) current_username pending_username,
       fst (get_secret_dict (PStr Toy.arn) "AWSCURRENT" None false w) = Ok current_dict ->
       fst (get_secret_dict (PStr Toy.arn) "AWSPENDING" (Some Toy.v2) false w) = Ok pending_dict ->
       current_dict !! "username" = Some current_username ->
       pending_dict !! "username" = Some pending_username ->
       py_eq current_username pending_username = false ->
       exists e, fst (set_secret E Toy.arn Toy.v2 w) = Raise e /\
                 kind_of e = Some PolicyViolation).
Proof.
  cbv zeta. intros H.
  destruct (H (Toy.record "db.example" "alice" "p1") (Toy.record "db.example" "bob" "p2")
              (PStr "alice") (PStr "bob")) as (e & He & _);
    [vm_compute; reflexivity | vm_compute; reflexivity | vm_compute; reflexivity
    | vm_compute; reflexivity | reflexivity |].
  vm_compute in He. discriminate He.
Qed.

Lemma set_secret_mismatch_never_alters_witness :
  exists e, fst (set_secret (Toy.env Toy.no_directory) Toy.arn Toy.v2
                   (Toy.start Toy.vault_mismatch Toy.server_alice)) = Raise e /\
            kind_of e = Some PolicyViolation.
Proof.
  destruct (set_secret_mismatch_never_alters (Toy.env Toy.no_directory) Toy.arn Toy.v2
              (Toy.start Toy.vault_mismatch Toy.server_alice)
              (Toy.record "db.example" "alice" "p1") (Toy.record "db.example" "bob" "p2")
              (PStr "alice") (PStr "bob") (PStr "db.example") (PStr "db.example"))
    as [_ H];
    [vm_compute; reflexivity | vm_compute; reflexivity | vm_compute; reflexivity
    | vm_compute; reflexivity | vm_compute; reflexivity | vm_compute; reflexivity
    | left; reflexivity |].
  destruct (H ltac:(vm_compute; discriminate) false
              ltac:(vm_compute; reflexivity) ltac:(vm_compute; reflexivity))
    as (e & He & Hk & _).
  exists e. split; [exact He | exact Hk].
Defined.

(** ** Sessions *)

Section Sessions.
Context {DB : Type} (E : Env DB).
Implicit Types (w : world DB) (d : dict).

Lemma keeps_silent {A} (m : M DB A) : silent m -> keeps_sessions m.
Proof. intros Hs w r w' Hrun. rewrite (silent_world _ _ _ _ Hs Hrun). auto. Qed.

Lemma keeps_bind {A B} (m : M DB A) (k : A -> M DB B) :
  keeps_sessions m -> (forall a, keeps_sessions (k a)) -> keeps_sessions (bind m k).
Proof.
  intros Hm Hk w r w' Hrun. unfold bind in Hrun.
  destruct (m w) as [[a|e] w1] eqn:Hm1.
  - destruct (Hm _ _ _ Hm1) as [H1 H2]. destruct (Hk a _ _ _ Hrun) as [H3 H4].
    split; congruence.
  - injection Hrun as <- <-. eapply Hm; eauto.
Qed.

Lemma keeps_execute (c : session) sql args : keeps_sessions (execute E c sql args).
Proof.
  intros w r w'. unfold execute, bind, emit.
  destruct (cur_execute E c sql args _) as [[e|rows] db']; intros [= <- <-]; auto.
Qed.

Lemma keeps_commit (c : session) : keeps_sessions (commit E c).
Proof.
  intros w r w'. unfold commit, bind, emit.
  destruct (conn_commit E c _) as [[e|] db']; intros [= <- <-]; auto.
Qed.

Lemma keeps_closes {A} (m : M DB A) : keeps_sessions m -> closes_what_it_opens m.
Proof.
  intros Hm w r w' Hf Hrun. destruct (Hm _ _ _ Hrun) as [Ho Hn].
  split; [| exact Ho]. intros n. rewrite Ho, Hn. apply Hf.
Qed.

Lemma closes_bind {A B} (m : M DB A) (k : A -> M DB B) :
  closes_what_it_opens m -> (forall a, closes_what_it_opens (k a)) ->
  closes_what_it_opens (bind m k).
Proof.
  intros Hm Hk w r w' Hf Hrun. unfold bind in Hrun.
  destruct (m w) as [[a|e] w1] eqn:Hm1.
  - destruct (Hm _ _ _ Hf Hm1) as [Hf1 H1]. destruct (Hk a _ _ _ Hf1 Hrun) as [H2 H3].
    split; [exact H2 | congruence].
  - injection Hrun as <- <-. eapply Hm; eauto.
Qed.

Lemma filter_absent (x : nat) (o : list nat) :
  x ∉ o -> filter (fun n => n ≠ x) o = o.
Proof.
  induction o as [|y o IH]; [reflexivity |].
  rewrite not_elem_of_cons. intros [Hne Hx].
  rewrite filter_cons_True by congruence. f_equal. auto.
Qed.

(** A session in hand is given back by [try: body finally: conn.close()]
    when the body leaves the sessions alone. *)
Lemma try_finally_close {A} (body : M DB A) (c : session) w o r w' :
  keeps_sessions body -> sessions_fresh w ->
  w_open w = sid c :: o -> sid c ∉ o ->
  try_finally body (close E c) w = (r, w') ->
  sessions_fresh w' /\ w_open w' = o.
Proof.
  intros Hb Hf Ho Hc. unfold try_finally.
  destruct (body w) as [rb wb] eqn:Hbody. destruct (Hb _ _ _ Hbody) as [Hbo Hbn].
  unfold close. intros [= _ <-]. cbn.
  assert (Hfilter : filter (fun n => n ≠ sid c) (w_open wb) = o).
  { rewrite Hbo, Ho. rewrite filter_cons_False by tauto. apply filter_absent, Hc. }
  split; [| exact Hfilter].
  intros n. cbn. rewrite Hfilter, Hbn. intros Hn. apply Hf. rewrite Ho. right. exact Hn.
Qed.

(** One attempt opens the session it returns, and no other. *)
Lemma attempt_opens d port dbname ssl :
  opens_what_it_returns
    (bind (connect_args d port dbname ssl)
          (fun p => bind (connect E p) (fun conn => ret (Some conn)))).
Proof.
  intros w r w' Hf. unfold bind at 1.
  rewrite (silent_run _ w (silent_connect_args d port dbname ssl)).
  destruct (fst (connect_args d port dbname ssl w)) as [p|e];
    [| intros [= <- <-]; auto].
  unfold bind, connect, sessions_fresh.
  destruct (pgdb_connect E p (w_db w)) as [[e|] db']; intros [= <- <-]; cbn.
  - split; [exact Hf | reflexivity].
  - split; [| split; [reflexivity |]].
    + intros n Hn. apply elem_of_cons in Hn as [-> | Hn]; [lia |].
      specialize (Hf n Hn). lia.
    + intros Hin. specialize (Hf _ Hin). lia.
Qed.

Lemma try_except_opens (m : M DB (option session)) h :
  opens_what_it_returns m ->
  (forall e k, h e = Some k -> opens_what_it_returns k) ->
  opens_what_it_returns (try_except m h).
Proof.
  intros Hm Hh w r w' Hf. unfold try_except.
  destruct (m w) as [[r1|e] w1] eqn:Hm1.
  - intros [= <- <-]. apply (Hm _ _ _ Hf Hm1).
  - destruct (Hm _ _ _ Hf Hm1) as [Hf1 Ho1].
    destruct (h e) as [k|] eqn:He.
    + intros Hk. destruct (Hh e k He _ _ _ Hf1 Hk) as [Hf2 Ho2].
      rewrite Ho1 in Ho2. auto.
    + intros [= <- <-]. auto.
Qed.

Lemma ret_none_opens : opens_what_it_returns (ret (DB:=DB) None).
Proof. intros w r w' Hf [= <- <-]. auto. Qed.

Lemma connect_without_ssl_opens d port dbname :
  opens_what_it_returns (connect_without_ssl E d port dbname).
Proof.
  unfold connect_without_ssl. apply try_except_opens; [apply attempt_opens |].
  intros e k Hk. destruct e; inversion Hk. apply ret_none_opens.
Qed.

Lemma connect_and_authenticate_opens d port dbname use_ssl :
  opens_what_it_returns (connect_and_authenticate E d port dbname use_ssl).
Proof.
  unfold connect_and_authenticate. destruct use_ssl; [| apply connect_without_ssl_opens].
  apply try_except_opens; [apply attempt_opens |].
  intros e k Hk. inversion Hk. apply connect_without_ssl_opens.
Qed.

(** [get_connection] leaves open the session it returns, and no other. *)
Lemma get_connection_opens d : opens_what_it_returns (get_connection E d).
Proof.
  intros w r w' Hf. unfold get_connection, bind at 1.
  set (port_of := match d !! "port" with Some v => py_int E v | None => ret 5432 end).
  assert (Hport : silent port_of).
  { unfold port_of. destruct (d !! "port"); [apply silent_py_int | apply silent_ret]. }
  rewrite (silent_run port_of w Hport).
  destruct (fst (port_of w)) as [port|e]; [| intros [= <- <-]; auto].
  destruct (get_ssl_config d) as [use_ssl fall_back]. unfold bind.
  match goal with |- context [connect_and_authenticate E d port ?n use_ssl w] =>
    set (dbname := n) end.
  destruct (connect_and_authenticate E d port dbname use_ssl w) as [[conn|e] w1] eqn:H1;
    destruct (connect_and_authenticate_opens d port dbname use_ssl _ _ _ Hf H1)
      as [Hf1 Ho1]; [| intros [= <- <-]; auto].
  destruct conn as [c|]; cbn [connected orb]; [intros [= <- <-]; auto |].
  destruct fall_back; cbn [negb]; [| intros [= <- <-]; auto].
  intros H2. destruct (connect_and_authenticate_opens d port dbname false _ _ _ Hf1 H2)
    as [Hf2 Ho2].
  rewrite Ho1 in Ho2. auto.
Qed.

(** [test_secret] closes the session it opened, on every exit. *)
Lemma test_secret_closes arn token : closes_what_it_opens (test_secret E arn token).
Proof.
  intros w r w' Hf. unfold test_secret, bind at 1.
  rewrite (silent_run _ w (silent_get_secret_dict (PStr arn) "AWSPENDING" (Some token) false)).
  destruct (fst (get_secret_dict (PStr arn) "AWSPENDING" (Some token) false w))
    as [pending_dict|e]; [| intros [= <- <-]; auto].
  unfold bind at 1.
  destruct (get_connection E pending_dict w) as [[[conn|]|e] w1] eqn:Hc;
    destruct (get_connection_opens pending_dict _ _ _ Hf Hc) as [Hf1 Ho1];
    [| intros [= <- <-]; auto | intros [= <- <-]; auto].
  destruct Ho1 as [Ho1 Hin]. intros Hrun.
  eapply try_finally_close; [| exact Hf1 | exact Ho1 | exact Hin | exact Hrun].
  apply keeps_bind; [apply keeps_execute | intros; apply keeps_commit].
Qed.

(** [create_user_if_not_exists] closes the session it opened, on every
    exit. *)
Lemma create_user_if_not_exists_closes secret_dict :
  closes_what_it_opens (create_user_if_not_exists E secret_dict).
Proof.
  assert (Hsil : forall A (m : M DB A), silent m -> closes_what_it_opens m)
    by (intros; apply keeps_closes, keeps_silent; assumption).
  assert (Hkeep : forall A (m : M DB A), silent m -> keeps_sessions m)
    by (intros; apply keeps_silent; assumption).
  unfold create_user_if_not_exists.
  destruct (get_truthy secret_dict "masterarn"); [| apply Hsil, silent_ret].
  apply closes_bind; [apply Hsil, silent_subscript | intros master_arn].
  apply closes_bind; [apply Hsil, silent_get_secret_dict | intros master_dict].
  apply closes_bind; [apply Hsil, silent_subscript | intros host].
  apply closes_bind; [apply Hsil, silent_subscript | intros master_host].
  apply closes_bind.
  { destruct (negb (py_eq host master_host)); [| apply Hsil, silent_ret].
    apply keeps_closes. apply keeps_bind.
    - unfold is_rds_replica_database.
      apply keeps_bind; [apply Hkeep, silent_subscript | intros ?].
      apply keeps_bind; [apply Hkeep, silent_split_first | intros ?].
      apply keeps_bind; [apply Hkeep, silent_subscript | intros ?].
      apply keeps_bind; [apply Hkeep, silent_split_first | intros ?].
      apply keeps_bind; [intros w r w' [= <- <-]; auto | intros _].
      destruct (describe_db_instances E _) as [[|i l]|]; apply Hkeep, silent_ret.
    - intros []; [apply Hkeep, silent_ret | apply Hkeep, silent_raise]. }
  intros _ w r w' Hf. unfold bind at 1.
  destruct (get_connection E (complete_master_dict secret_dict master_dict) w)
    as [[[conn|]|e] w1] eqn:Hc;
    destruct (get_connection_opens _ _ _ _ Hf Hc) as [Hf1 Ho1];
    [| intros [= <- <-]; auto | intros [= <- <-]; auto].
  destruct Ho1 as [Ho1 Hin]. intros Hrun.
  eapply try_finally_close; [| exact Hf1 | exact Ho1 | exact Hin | exact Hrun].
  apply keeps_bind; [apply Hkeep, silent_subscript | intros username].
  apply keeps_bind; [apply keeps_execute | intros rows].
  apply keeps_bind.
  { destruct rows as [|[|c rw] rows']; apply Hkeep;
      first [apply silent_raise | apply silent_ret]. }
  intros current_username.
  apply keeps_bind; [apply Hkeep, silent_subscript | intros username'].
  apply keeps_bind; [apply keeps_execute | intros rows2].
  apply keeps_bind.
  { destruct (length rows2 =? 0)%nat; [| apply Hkeep, silent_ret].
    apply keeps_bind; [apply Hkeep, silent_subscript | intros password].
    apply keeps_bind; [apply keeps_execute | intros _; apply Hkeep, silent_ret]. }
  intros user_created.
  apply keeps_bind; [apply keeps_commit | intros _].
  apply keeps_bind; [apply Hkeep, silent_subscript | intros _; apply Hkeep, silent_ret].
Qed.

End Sessions.

(** C3 (the code departs from it): [test_secret] and
    [create_user_if_not_exists] close what they open
    ([test_secret_closes], [create_user_if_not_exists_closes]), but
    [set_secret] does not: here CURRENT and PENDING are refused, the
    session opened with PREVIOUS is in hand when line 196 raises for the
    user mismatch, and nothing closes it. *)
Theorem set_secret_leaks_previous_session :
  let run := set_secret (Toy.env Toy.no_directory) Toy.arn Toy.v2
                        (Toy.start Toy.vault_renamed Toy.server_previous_only) in
  fst run = Raise (ValueError (OtherThanPreviousUser (PStr "alice") (PStr "old"))) /\
  w_open (snd run) = [O] /\
  (exists p, last (w_trace (snd run)) = Some (EvConnect p (Some O)) /\
             cp_user p = PStr "old") /\
  existsb is_close (w_trace (snd run)) = false.
Proof.
  cbv zeta. split; [vm_compute; reflexivity |].
  split; [vm_compute; reflexivity |].
  split; [| vm_compute; reflexivity].
  eexists. split; vm_compute; reflexivity.
Qed.

(** ** Versions and staging labels *)

Section Versions.
Implicit Types (vs : list (string * secret_version)) (v : secret_version).

Lemma has_stage_without stage stages v :
  has_stage stage (without_stages stages v) = has_stage stage v && bool_decide (stage ∉ stages).
Proof.
  unfold has_stage, without_stages. simpl.
  apply eq_true_iff_eq. rewrite andb_true_iff, !bool_decide_eq_true.
  rewrite list_elem_of_filter. tauto.
Qed.

Lemma has_stage_with stage stages v :
  has_stage stage (with_stages stages v) = has_stage stage v || bool_decide (stage ∈ stages).
Proof.
  unfold has_stage, with_stages. simpl.
  apply eq_true_iff_eq. rewrite orb_true_iff, !bool_decide_eq_true.
  rewrite elem_of_app, list_elem_of_filter.
  destruct (decide (stage ∈ sv_stages v)); tauto.
Qed.

Lemma find_version_elem vs k v : find_version k vs = Some v -> (k, v) ∈ vs.
Proof.
  induction vs as [|[k0 v0] r IH]; simpl; [discriminate |].
  destruct (String.eqb_spec k0 k) as [->|Hne].
  - intros [= ->]. left.
  - intros H. right. auto.
Qed.

Lemma find_version_none vs k : find_version k vs = None -> k ∉ vs.*1.
Proof.
  induction vs as [|[k0 v0] r IH]; simpl; [intros _; apply not_elem_of_nil |].
  destruct (String.eqb_spec k0 k) as [->|Hne]; [discriminate |].
  intros H. rewrite not_elem_of_cons. split; [congruence | auto].
Qed.

(** Stripping a label leaves no version staged with it. *)
Lemma staged_stripped stage stages vs :
  stage ∈ stages ->
  filter (fun kv => has_stage stage (snd kv) = true)
         (map (fun kv => (fst kv, without_stages stages (snd kv))) vs) = [].
Proof.
  intros Hin. induction vs as [|[k v] r IH]; simpl; [reflexivity |].
  rewrite filter_cons_False; [exact IH |].
  simpl. rewrite has_stage_without.
  rewrite (bool_decide_eq_false_2 (stage ∉ stages)) by tauto.
  rewrite andb_false_r. discriminate.
Qed.

(** After [put_version] exactly the version [token] is staged with the
    label, and it has the value. *)
Lemma staged_put_version token value stage vs :
  NoDup vs.*1 ->
  exists v, filter (fun kv => has_stage stage (snd kv) = true)
                   (put_version token value [stage] vs) = [(token, v)]
            /\ sv_string v = Some value.
Proof.
  assert (Hin : stage ∈ [stage]) by (left).
  intros Hnd. unfold put_version.
  destruct (find_version token vs) as [v0|] eqn:Hf.
  - revert Hnd Hf. induction vs as [|[k v] r IH]; simpl; [discriminate |].
    rewrite NoDup_cons. intros [Hk Hnd].
    destruct (String.eqb_spec k token) as [->|Hne].
    + intros _.
      exists {| sv_stages := sv_stages (with_stages [stage] v); sv_string := Some value |}.
      split; [| reflexivity].
      rewrite filter_cons_True.
      2:{ simpl. unfold has_stage. simpl. apply bool_decide_eq_true.
          rewrite elem_of_app, list_elem_of_filter.
          destruct (decide (stage ∈ sv_stages v)); [tauto |]. right. split; [exact n | left]. }
      f_equal.
      rewrite <- (staged_stripped stage [stage] r Hin). f_equal.
      apply map_ext_in. intros [k' v'] Hk'. simpl.
      destruct (String.eqb_spec k' token) as [->|]; [| reflexivity].
      exfalso. apply Hk. apply list_elem_of_fmap. exists (token, v').
      split; [reflexivity | apply list_elem_of_In; exact Hk'].
    + intros Hf. destruct (IH Hnd Hf) as (v1 & Hv1 & Hs). exists v1. split; [| exact Hs].
      rewrite filter_cons_False; [exact Hv1 |].
      simpl. rewrite has_stage_without.
      rewrite (bool_decide_eq_false_2 (stage ∉ [stage])) by tauto.
      rewrite andb_false_r. discriminate.
  - exists {| sv_stages := [stage]; sv_string := Some value |}. split; [| reflexivity].
    rewrite filter_app, (staged_stripped stage [stage] vs Hin). simpl.
    rewrite filter_cons_True; [reflexivity |].
    simpl. unfold has_stage. simpl. apply bool_decide_eq_true. left.
Qed.

(** The version [token] after [put_version]. *)
Lemma find_put_version token value stage vs :
  exists v, find_version token (put_version token value [stage] vs) = Some v
            /\ has_stage stage v = true /\ sv_string v = Some value.
Proof.
  unfold put_version. destruct (find_version token vs) as [v0|] eqn:Hf.
  - revert Hf. induction vs as [|[k v] r IH]; simpl; [discriminate |].
    destruct (String.eqb_spec k token) as [->|Hne]; simpl.
    + intros _. rewrite String.eqb_refl.
      exists {| sv_stages := sv_stages (with_stages [stage] v); sv_string := Some value |}.
      split; [reflexivity |]. split; [| reflexivity].
      unfold has_stage. simpl. apply bool_decide_eq_true.
      rewrite elem_of_app, list_elem_of_filter.
      destruct (decide (stage ∈ sv_stages v)); [tauto |]. right. split; [exact n | left].
    + destruct (String.eqb_spec k token); [contradiction |]. exact IH.
  - induction vs as [|[k v] r IH]; simpl.
    + rewrite String.eqb_refl.
      exists {| sv_stages := [stage]; sv_string := Some value |}. split; [reflexivity |].
      split; [| reflexivity]. unfold has_stage. simpl. apply bool_decide_eq_true. left.
    + simpl in Hf. destruct (String.eqb_spec k token); [discriminate |]. apply IH, Hf.
Qed.

(** [put_version] under another label keeps the first version staged
    [stage'] where it is, with its value or with the value put. *)
Lemma find_staged_put_version token value stage stage' vs k v :
  stage' <> stage ->
  find_staged stage' vs = Some (k, v) ->
  exists v', find_staged stage' (put_version token value [stage] vs) = Some (k, v')
             /\ (sv_string v' = sv_string v \/ sv_string v' = Some value).
Proof.
  intros Hne.
  assert (Hnin : bool_decide (stage' ∉ [stage]) = true).
  { apply bool_decide_eq_true. rewrite list_elem_of_singleton. exact Hne. }
  assert (Hkeep : forall v0, has_stage stage' (without_stages [stage] v0) = has_stage stage' v0).
  { intros v0. rewrite has_stage_without, Hnin. apply andb_true_r. }
  assert (Hkeep' : forall v0 s, has_stage stage'
             {| sv_stages := sv_stages (with_stages [stage] v0); sv_string := s |}
           = has_stage stage' v0).
  { intros v0 s. change (has_stage stage' (with_stages [stage] v0) = has_stage stage' v0).
    rewrite has_stage_with.
    rewrite (bool_decide_eq_false_2 (stage' ∈ [stage])).
    - apply orb_false_r.
    - rewrite list_elem_of_singleton. exact Hne. }
  unfold put_version. destruct (find_version token vs) as [v0|].
  - induction vs as [|[k0 v1] r IH]; cbn [map find_staged fst snd]; [discriminate |].
    destruct (String.eqb k0 token); cbn [find_staged fst snd].
    + rewrite Hkeep'. destruct (has_stage stage' v1); [| exact IH].
      intros [= -> ->]. eexists. split; [reflexivity | right; reflexivity].
    + rewrite Hkeep. destruct (has_stage stage' v1); [| exact IH].
      intros [= -> ->]. eexists. split; [reflexivity | left; reflexivity].
  - induction vs as [|[k0 v1] r IH]; cbn [map app find_staged fst snd]; [discriminate |].
    rewrite Hkeep. destruct (has_stage stage' v1); [| exact IH].
    intros [= -> ->]. eexists. split; [reflexivity | left; reflexivity].
Qed.

(** A version found staged is the one staged version of a well-staged
    secret. *)
Lemma staged_versions_unique stage (s : secret) k v :
  well_staged stage s ->
  find_version k (s_versions s) = Some v -> has_stage stage v = true ->
  staged_versions stage s = [(k, v)].
Proof.
  intros [_ Hle] Hf Hs. unfold staged_versions in *.
  assert (Hin : (k, v) ∈ filter (fun kv => has_stage stage (snd kv) = true) (s_versions s)).
  { apply list_elem_of_filter. split; [exact Hs | apply find_version_elem, Hf]. }
  destruct (filter _ (s_versions s)) as [|x [|y l]]; simpl in Hle.
  - inversion Hin.
  - apply list_elem_of_singleton in Hin. congruence.
  - lia.
Qed.

End Versions.

(** ** [create_secret] *)

Section CreateSecret.
Context {DB : Type} (E : Env DB).
Implicit Types (w : world DB) (d : dict) (vs : list (string * secret_version)).

(** What [get_secret_dict] returns, from what [get_secret_value] returns. *)
Lemma get_secret_dict_of_value arn stage token w s :
  fst (get_secret_value (DB:=DB) arn (token_given token) stage w) = Ok s ->
  fst (get_secret_dict arn stage token false w) =
  match s with
  | NotJson => Raise (ValueError NotValidJson)
  | Json d =>
      match fst (check_required required_fields d w) with
      | Raise e => Raise e
      | Ok _ =>
          match d !! "engine" with
          | None => Raise (KeyError "engine")
          | Some v =>
              if existsb (py_eq v) supported_engines then Ok d
              else Raise (KeyError
                "Database engine must be set to 'postgres' in order to use this rotation lambda")
          end
      end
  end.
Proof.
  intros Hv. unfold get_secret_dict, bind.
  rewrite (silent_run _ w (silent_get_secret_value arn (token_given token) stage)), Hv.
  destruct s as [|d]; [reflexivity |]. cbn [json_loads ret negb].
  rewrite (silent_run _ w (silent_check_required required_fields d)).
  destruct (fst (check_required required_fields d w)) as [[]|e]; [| reflexivity].
  unfold subscript. destruct (d !! "engine") as [v|]; [| reflexivity].
  cbn [ret]. destruct (existsb (py_eq v) supported_engines); reflexivity.
Qed.

Lemma get_secret_dict_not_missing arn stage token w s :
  fst (get_secret_value (DB:=DB) arn (token_given token) stage w) = Ok s ->
  fst (get_secret_dict arn stage token false w) <> Raise ResourceNotFoundException.
Proof.
  intros Hv. rewrite (get_secret_dict_of_value _ _ _ _ _ Hv).
  destruct s as [|d]; [discriminate |].
  destruct (fst (check_required required_fields d w)) as [[]|e] eqn:Hc.
  - destruct (d !! "engine") as [v|]; [| discriminate].
    destruct (existsb (py_eq v) supported_engines); discriminate.
  - destruct (check_required_raises _ _ _ _ Hc) as [msg ->]. discriminate.
Qed.

(** When PENDING exists, [create_secret] touches nothing. *)
Lemma create_secret_pending_exists arn token w s :
  fst (get_secret_value (DB:=DB) (PStr arn) (token_given (Some token)) "AWSPENDING" w) = Ok s ->
  snd (create_secret E arn token w) = w.
Proof.
  intros Hv. unfold create_secret, bind at 1.
  rewrite (silent_run _ w (silent_get_secret_dict (PStr arn) "AWSCURRENT" None false)).
  destruct (fst (get_secret_dict (PStr arn) "AWSCURRENT" None false w)); [| reflexivity].
  unfold try_except, bind.
  rewrite (silent_run _ w (silent_get_secret_dict (PStr arn) "AWSPENDING" (Some token) false)).
  pose proof (get_secret_dict_not_missing _ _ _ _ _ Hv) as Hne.
  destruct (fst (get_secret_dict (PStr arn) "AWSPENDING" (Some token) false w)) as [d|e];
    [reflexivity |].
  destruct e; try reflexivity. contradiction.
Qed.


Lemma check_required_ok fields d w :
  fst (check_required (DB:=DB) fields d w) = Ok tt <->
  forallb (fun field => bool_decide (is_Some (d !! field))) fields = true.
Proof.
  induction fields as [|f r IH]; simpl; [tauto |].
  destruct (d !! f) as [x|] eqn:Hf; simpl.
  - exact IH.
  - split; discriminate.
Qed.

(** [get_secret_dict] returns exactly the valid records. *)
Lemma get_secret_dict_ok arn stage token w d :
  fst (get_secret_dict (DB:=DB) arn stage token false w) = Ok d <->
  fst (get_secret_value arn (token_given token) stage w) = Ok (Json d)
  /\ valid_record d = true.
Proof.
  split.
  - intros H.
    destruct (fst (get_secret_value arn (token_given token) stage w)) as [s|e] eqn:Hv.
    2:{ unfold get_secret_dict, bind in H.
        rewrite (silent_run _ w (silent_get_secret_value arn (token_given token) stage)), Hv
          in H. discriminate. }
    rewrite (get_secret_dict_of_value _ _ _ _ _ Hv) in H.
    destruct s as [|d0]; [discriminate |].
    destruct (fst (check_required required_fields d0 w)) as [[]|e] eqn:Hc; [| discriminate].
    apply check_required_ok in Hc. unfold valid_record.
    destruct (d0 !! "engine") as [v|] eqn:He; [| discriminate].
    destruct (existsb (py_eq v) supported_engines) eqn:Hs; [| discriminate].
    injection H as <-. rewrite Hc, He, Hs. auto.
  - intros [Hv Hok]. rewrite (get_secret_dict_of_value _ _ _ _ _ Hv).
    unfold valid_record in Hok. apply andb_true_iff in Hok as [Hc He].
    apply (check_required_ok _ _ w) in Hc. rewrite Hc.
    destruct (d !! "engine") as [v|]; [| discriminate]. rewrite He. reflexivity.
Qed.

Lemma valid_record_password d v :
  valid_record d = true -> valid_record (<["password" := v]> d) = true.
Proof.
  unfold valid_record. rewrite !andb_true_iff. intros [Hc He]. split.
  - rewrite forallb_forall in *. intros f Hf. specialize (Hc f Hf).
    apply bool_decide_eq_true in Hc. apply bool_decide_eq_true.
    destruct (decide (f = "password")) as [->|Hne].
    + rewrite lookup_insert_eq. eauto.
    + rewrite lookup_insert_ne by congruence. exact Hc.
  - rewrite lookup_insert_ne by discriminate. exact He.
Qed.

Lemma get_secret_value_by_token arn t stage w s :
  fst (get_secret_value (DB:=DB) (PStr arn) (Some t) stage w) = Ok s <->
  exists sec v, w_vault w !! arn = Some sec /\ find_version t (s_versions sec) = Some v
                /\ has_stage stage v = true /\ sv_string v = Some s.
Proof.
  unfold get_secret_value. split.
  - destruct (w_vault w !! arn) as [sec|] eqn:Ha; [| discriminate].
    destruct (find_version t (s_versions sec)) as [v|] eqn:Hf; [| discriminate].
    destruct (has_stage stage v) eqn:Hs; [| discriminate].
    destruct (sv_string v) as [s0|] eqn:Hv; [| discriminate].
    intros [= <-]. eauto 10.
  - intros (sec & v & -> & -> & -> & ->). reflexivity.
Qed.

Lemma get_secret_value_by_stage arn stage w s :
  fst (get_secret_value (DB:=DB) (PStr arn) None stage w) = Ok s <->
  exists sec k v, w_vault w !! arn = Some sec
                  /\ find_staged stage (s_versions sec) = Some (k, v)
                  /\ sv_string v = Some s.
Proof.
  unfold get_secret_value. split.
  - destruct (w_vault w !! arn) as [sec|] eqn:Ha; [| discriminate].
    destruct (find_staged stage (s_versions sec)) as [[k v]|] eqn:Hf; [| discriminate].
    destruct (sv_string v) as [s0|] eqn:Hv; [| discriminate].
    intros [= <-]. eauto 10.
  - intros (sec & k & v & -> & -> & ->). reflexivity.
Qed.


Lemma surjective_pairing_version (v : secret_version) :
  v = {| sv_stages := sv_stages v; sv_string := sv_string v |}.
Proof. destruct v; reflexivity. Qed.

Lemma token_given_some token : token <> "" -> token_given (Some token) = Some token.
Proof. intros H. unfold token_given. destruct (String.eqb_spec token ""); congruence. Qed.

(** The run of [create_secret] that finds no PENDING and puts one. *)
Lemma create_secret_puts arn token w (current_dict : dict) sec :
  fst (get_secret_dict (PStr arn) "AWSCURRENT" None false w) = Ok current_dict ->
  fst (get_secret_dict (PStr arn) "AWSPENDING" (Some token) false w)
    = Raise ResourceNotFoundException ->
  w_vault w !! arn = Some sec -> awaiting_pending token sec ->
  exists value w1,
    create_secret E arn token w = (Ok tt, w1) /\
    (exists passwd, value = Json (<["password" := PStr passwd]> current_dict)) /\
    w_vault w1 = <[arn := {| s_rotation_enabled := s_rotation_enabled sec;
                             s_versions := put_version token value ["AWSPENDING"]
                                             (s_versions sec) |}]> (w_vault w).
Proof.
  intros Hcur Hpend Hsec [Hne Hst].
  set (passwd := get_random_password E
                   (default default_exclude_characters (w_environ w !! "EXCLUDE_CHARACTERS"))
                   (w_drawn w)).
  set (value := Json (<["password" := PStr passwd]> current_dict)).
  assert (Hold : forall v, find_version token (s_versions sec) = Some v -> sv_string v = None).
  { intros v Hv. destruct (sv_string v) as [s|] eqn:Hs; [| reflexivity]. exfalso.
    assert (Hok : fst (get_secret_value (DB:=DB) (PStr arn) (token_given (Some token))
                         "AWSPENDING" w) = Ok s).
    { rewrite token_given_some by exact Hne. apply get_secret_value_by_token.
      exists sec, v. auto using Hst. }
    apply (get_secret_dict_not_missing _ _ _ _ _ Hok). exact Hpend. }
  exists value. eexists. split; [| split; [exists passwd; reflexivity |]].
  - unfold create_secret.
    rewrite (bind_ok _ _ _ _ _ (get_secret_dict_run _ _ _ _ _ _ Hcur)).
    unfold try_except.
    rewrite (bind_raise _ _ _ _ _ (get_secret_dict_run _ _ _ _ _ _ Hpend)).
    unfold bind, environ_get, random_password, put_secret_value, bind, emit. simpl.
    rewrite Hsec.
    destruct (find_version token (s_versions sec)) as [v|] eqn:Hv; [| reflexivity].
    rewrite (surjective_pairing_version v), (Hold v eq_refl). reflexivity.
  - reflexivity.
Qed.


(** C7: [create_secret] is idempotent.  When a PENDING version exists for
    the token it puts nothing and leaves the world as it is.  In a rotation
    that the vault started for the token, with a valid CURRENT and a
    PENDING that is valid or not there yet, the call returns.  After a call
    that returned, a second call finds the PENDING version, puts nothing
    and changes nothing, so the password stays the one put first; the
    secret has exactly one version staged [AWSPENDING], the token's, and it
    has a value. *)
Theorem create_secret_idempotent arn token w :
  (forall s,
     fst (get_secret_value (PStr arn) (token_given (Some token)) "AWSPENDING" w) = Ok s ->
     snd (create_secret E arn token w) = w /\
     events_of (create_secret E arn token) w = []) /\
  (forall sec (current_dict : dict),
     w_vault w !! arn = Some sec -> awaiting_pending token sec ->
     fst (get_secret_dict (PStr arn) "AWSCURRENT" None false w) = Ok current_dict ->
     (forall e, fst (get_secret_dict (PStr arn) "AWSPENDING" (Some token) false w) = Raise e ->
                e = ResourceNotFoundException) ->
     exists w1, create_secret E arn token w = (Ok tt, w1)) /\
  (forall w1 sec,
     create_secret E arn token w = (Ok tt, w1) ->
     w_vault w !! arn = Some sec -> awaiting_pending token sec ->
     well_staged "AWSPENDING" sec ->
     create_secret E arn token w1 = (Ok tt, w1) /\
     events_of (create_secret E arn token) w1 = [] /\
     exists sec1 v, w_vault w1 !! arn = Some sec1 /\
                    staged_versions "AWSPENDING" sec1 = [(token, v)] /\
                    is_Some (sv_string v)).
Proof.
  assert (Hnoop : forall w0 s,
            fst (get_secret_value (DB:=DB) (PStr arn) (token_given (Some token))
                   "AWSPENDING" w0) = Ok s ->
            snd (create_secret E arn token w0) = w0 /\
            events_of (create_secret E arn token) w0 = []).
  { intros w0 s Hs. pose proof (create_secret_pending_exists arn token w0 s Hs) as Hw.
    split; [exact Hw |]. apply (events_of_grows (fun _ => True)).
    rewrite Hw. symmetry; apply app_nil_r. }
  split; [apply Hnoop |]. split.
  { intros sec current_dict Hsec Hwait Hcur Hmiss.
    destruct (fst (get_secret_dict (PStr arn) "AWSPENDING" (Some token) false w))
      as [pending_dict|e] eqn:Hpend.
    - exists w. unfold create_secret.
      rewrite (bind_ok _ _ _ _ _ (get_secret_dict_run _ _ _ _ _ _ Hcur)).
      unfold try_except.
      rewrite (bind_ok _ _ _ _ _ (get_secret_dict_run _ _ _ _ _ _ Hpend)). reflexivity.
    - rewrite (Hmiss e eq_refl) in Hpend.
      destruct (create_secret_puts arn token w current_dict sec Hcur Hpend Hsec Hwait)
        as (value & w1 & Hrun & _). eauto. }
  intros w1 sec Hrun Hsec Hwait Hwell.
  pose proof Hwait as [Hne Hst].
  assert (Hcur : exists current_dict,
            fst (get_secret_dict (PStr arn) "AWSCURRENT" None false w) = Ok current_dict).
  { unfold create_secret, bind at 1 in Hrun.
    rewrite (silent_run _ w (silent_get_secret_dict (PStr arn) "AWSCURRENT" None false))
      in Hrun.
    destruct (fst (get_secret_dict (PStr arn) "AWSCURRENT" None false w));
      [eauto | discriminate]. }
  destruct Hcur as [current_dict Hcur].
  destruct (fst (get_secret_dict (PStr arn) "AWSPENDING" (Some token) false w))
    as [pending_dict|e] eqn:Hpend.
  - (* PENDING was there: nothing happened *)
    apply get_secret_dict_ok in Hpend as [Hv _].
    destruct (Hnoop w _ Hv) as [Hw Hev].
    rewrite Hrun in Hw. simpl in Hw. subst w1.
    split; [exact Hrun | split; [exact Hev |]].
    rewrite token_given_some in Hv by exact Hne.
    apply get_secret_value_by_token in Hv as (sec' & v & Hsec' & Hf & Hs & Hval).
    rewrite Hsec in Hsec'. injection Hsec' as <-.
    exists sec, v. split; [exact Hsec |]. split; [| rewrite Hval; eauto].
    apply staged_versions_unique; assumption.
  - assert (He : e = ResourceNotFoundException).
    { unfold create_secret in Hrun.
      rewrite (bind_ok _ _ _ _ _ (get_secret_dict_run _ _ _ _ _ _ Hcur)) in Hrun.
      unfold try_except in Hrun.
      rewrite (bind_raise _ _ _ _ _ (get_secret_dict_run _ _ _ _ _ _ Hpend)) in Hrun.
      destruct e; try discriminate Hrun. reflexivity. }
    subst e.
    destruct (create_secret_puts arn token w current_dict sec Hcur Hpend Hsec Hwait)
      as (value & w1' & Hrun' & [passwd Hvalue] & Hvault).
    rewrite Hrun in Hrun'. injection Hrun' as <-.
    set (sec1 := {| s_rotation_enabled := s_rotation_enabled sec;
                    s_versions := put_version token value ["AWSPENDING"] (s_versions sec) |})
      in Hvault.
    assert (Hsec1 : w_vault w1 !! arn = Some sec1)
      by (rewrite Hvault; apply lookup_insert_eq).
    destruct (find_put_version token value "AWSPENDING" (s_versions sec))
      as (v & Hfind & Hstaged & Hval).
    assert (Hpend1 : fst (get_secret_value (DB:=DB) (PStr arn) (token_given (Some token))
                            "AWSPENDING" w1) = Ok value).
    { rewrite token_given_some by exact Hne. apply get_secret_value_by_token.
      exists sec1, v. auto. }
    destruct (Hnoop w1 _ Hpend1) as [Hw1 Hev1].
    split; [| split; [exact Hev1 |]].
    + (* the second call returns *)
      apply get_secret_dict_ok in Hcur as [Hcv Hvalid].
      apply get_secret_value_by_stage in Hcv as (sec' & k & vc & Hsec' & Hfs & Hvc).
      rewrite Hsec in Hsec'. injection Hsec' as <-.
      destruct (find_staged_put_version token value "AWSPENDING" "AWSCURRENT"
                  (s_versions sec) k vc ltac:(discriminate) Hfs) as (vc' & Hfs' & Hvc').
      assert (Hcur1 : exists d, fst (get_secret_dict (PStr arn) "AWSCURRENT" None false w1)
                                = Ok d).
      { destruct Hvc' as [Hsame | Hnew].
        - exists current_dict. apply get_secret_dict_ok. split; [| exact Hvalid].
          apply get_secret_value_by_stage. exists sec1, k, vc'.
          split; [exact Hsec1 | split; [exact Hfs' | congruence]].
        - exists (<["password" := PStr passwd]> current_dict). apply get_secret_dict_ok.
          split; [| apply valid_record_password, Hvalid].
          apply get_secret_value_by_stage. exists sec1, k, vc'.
          split; [exact Hsec1 | split; [exact Hfs' | congruence]]. }
      destruct Hcur1 as [d1 Hcur1].
      assert (Hp1 : fst (get_secret_dict (PStr arn) "AWSPENDING" (Some token) false w1)
                    = Ok (<["password" := PStr passwd]> current_dict)).
      { apply get_secret_dict_ok. split; [congruence |].
        apply valid_record_password, Hvalid. }
      unfold create_secret.
      rewrite (bind_ok _ _ _ _ _ (get_secret_dict_run _ _ _ _ _ _ Hcur1)).
      unfold try_except.
      rewrite (bind_ok _ _ _ _ _ (get_secret_dict_run _ _ _ _ _ _ Hp1)). reflexivity.
    + destruct Hwell as [Hnd _].
      destruct (staged_put_version token value "AWSPENDING" (s_versions sec) Hnd)
        as (v' & Hv' & Hs').
      exists sec1, v'. split; [exact Hsec1 |]. split; [exact Hv' | rewrite Hs'; eauto].
Qed.

End CreateSecret.

(** ** [finish_secret] *)

Section FinishSecret.
Context {DB : Type} (E : Env DB).
Implicit Types (w : world DB) (vs : list (string * secret_version)) (v : secret_version).

Lemma find_staged_head stage vs :
  find_staged stage vs = head (filter (fun kv => has_stage stage (snd kv) = true) vs).
Proof.
  induction vs as [|[k v] r IH]; [reflexivity |]. cbn [find_staged].
  destruct (has_stage stage v) eqn:Hs.
  - rewrite filter_cons_True by exact Hs. reflexivity.
  - rewrite filter_cons_False by (simpl; congruence). exact IH.
Qed.

Lemma find_version_NoDup vs k v :
  NoDup vs.*1 -> (k, v) ∈ vs -> find_version k vs = Some v.
Proof.
  induction vs as [|[k0 v0] r IH]; [intros _ H; inversion H |].
  cbn [fmap list_fmap fst find_version]. rewrite NoDup_cons. intros [Hk Hnd] Hin.
  apply elem_of_cons in Hin as [[= -> ->] | Hin].
  - rewrite String.eqb_refl. reflexivity.
  - destruct (String.eqb_spec k0 k) as [->|]; [| auto].
    exfalso. apply Hk. apply list_elem_of_fmap. exists (k, v). auto.
Qed.

(** The loop of [finish_secret], read off the first version staged
    [AWSCURRENT]. *)
Lemma scan_current_first token vs :
  scan_current token vs =
  match find_staged "AWSCURRENT" vs with
  | Some (k, _) => if String.eqb k token then None else Some (Some k)
  | None => Some None
  end.
Proof.
  induction vs as [|[k v] r IH]; [reflexivity |]. cbn [scan_current find_staged].
  destruct (has_stage "AWSCURRENT" v); [reflexivity | exact IH].
Qed.

(** In a well-staged secret every version staged [stage] is the first one. *)
Lemma staged_is_first stage (s : secret) k v :
  well_staged stage s -> (k, v) ∈ s_versions s -> has_stage stage v = true ->
  find_staged stage (s_versions s) = Some (k, v).
Proof.
  intros [_ Hle] Hin Hs. rewrite find_staged_head. unfold staged_versions in Hle.
  assert (Hf : (k, v) ∈ filter (fun kv => has_stage stage (snd kv) = true) (s_versions s)).
  { apply list_elem_of_filter. auto. }
  destruct (filter _ (s_versions s)) as [|x [|y l]]; simpl in Hle.
  - inversion Hf.
  - apply list_elem_of_singleton in Hf. subst x. reflexivity.
  - lia.
Qed.

Lemma unstaged_move_stage stage token holder vs :
  token ∉ vs.*1 ->
  (forall k v, (k, v) ∈ vs -> has_stage stage v = true -> holder = Some k) ->
  filter (fun kv => has_stage stage (snd kv) = true) (move_stage stage token holder vs) = [].
Proof.
  induction vs as [|[k v] r IH]; [reflexivity |].
  cbn [fmap list_fmap fst]. rewrite not_elem_of_cons. intros [Hk Hr] Hall.
  unfold move_stage. cbn [map fst snd].
  destruct (String.eqb_spec k token) as [->|_]; [contradiction |].
  rewrite filter_cons_False.
  - apply IH; [exact Hr |]. intros k' v' Hin. apply Hall. right. exact Hin.
  - cbn [snd]. destruct (decide (Some k = holder)) as [Heq|Hneq]; cbn [snd].
    + rewrite has_stage_without.
      rewrite (bool_decide_eq_false_2 (stage ∉ [stage])) by (intros H; apply H; left).
      rewrite andb_false_r. discriminate.
    + intros Hs. apply Hneq. symmetry. apply (Hall k v); [left | exact Hs].
Qed.

(** After the move exactly the version [token] is staged [stage]. *)
Lemma staged_move_stage stage token holder vs v :
  NoDup vs.*1 -> find_version token vs = Some v ->
  (forall k0 v0, (k0, v0) ∈ vs -> has_stage stage v0 = true ->
                 k0 = token \/ holder = Some k0) ->
  filter (fun kv => has_stage stage (snd kv) = true) (move_stage stage token holder vs)
  = [(token, with_stages [stage] v)].
Proof.
  induction vs as [|[k0 v0] r IH]; [discriminate |].
  cbn [fmap list_fmap fst find_version]. rewrite NoDup_cons. intros [Hk Hnd] Hf Hall.
  unfold move_stage. cbn [map fst snd].
  destruct (String.eqb_spec k0 token) as [->|Hne].
  - injection Hf as ->. rewrite filter_cons_True.
    2:{ cbn [snd]. rewrite has_stage_with.
        rewrite (bool_decide_eq_true_2 (stage ∈ [stage])) by left. apply orb_true_r. }
    f_equal. apply unstaged_move_stage; [exact Hk |].
    intros k1 v1 Hin Hs. destruct (Hall k1 v1 (list_elem_of_further _ _ _ Hin) Hs) as [-> | H];
      [| exact H].
    exfalso. apply Hk. apply list_elem_of_fmap. exists (token, v1). auto.
  - rewrite filter_cons_False.
    + apply IH; [exact Hnd | exact Hf |]. intros k1 v1 Hin. apply Hall. right. exact Hin.
    + cbn [snd]. destruct (decide (Some k0 = holder)) as [Heq|Hneq]; cbn [snd].
      * rewrite has_stage_without.
        rewrite (bool_decide_eq_false_2 (stage ∉ [stage])) by (intros H; apply H; left).
        rewrite andb_false_r. discriminate.
      * intros Hs. destruct (Hall k0 v0 (list_elem_of_here _ _) Hs) as [? | H];
          [contradiction | congruence].
Qed.

Lemma move_stage_keys stage token holder vs :
  (move_stage stage token holder vs).*1 = vs.*1.
Proof.
  induction vs as [|[k v] r IH]; [reflexivity |].
  unfold move_stage. cbn [map fmap list_fmap fst]. f_equal; [| exact IH].
  destruct (String.eqb k token); [reflexivity |].
  destruct (decide (Some k = holder)); reflexivity.
Qed.


(** C8: on a secret whose version ids are distinct and which has
    [AWSCURRENT] on at most one version, [finish_secret] does nothing when
    the version [token] carries [AWSCURRENT].  Otherwise it makes one call
    of [update_secret_version_stage], which names the version that carries
    the label as the one to remove it from; when the vault has the version
    [token] and a version carries the label, the call succeeds, and after
    it [token] is the only version staged [AWSCURRENT] and no version is
    gone. *)
Theorem finish_secret_moves_current arn token w sec :
  w_vault w !! arn = Some sec ->
  well_staged "AWSCURRENT" sec ->
  (forall v, find_version token (s_versions sec) = Some v ->
             has_stage "AWSCURRENT" v = true ->
             finish_secret arn token w = (Ok tt, w) /\
             events_of (finish_secret arn token) w = []) /\
  ((forall v, find_version token (s_versions sec) = Some v ->
              has_stage "AWSCURRENT" v = false) ->
   events_of (finish_secret arn token) w
   = [EvUpdateStage arn "AWSCURRENT" token
        (fst <$> find_staged "AWSCURRENT" (s_versions sec))] /\
   (forall v current_version vc,
      find_version token (s_versions sec) = Some v ->
      find_staged "AWSCURRENT" (s_versions sec) = Some (current_version, vc) ->
      exists w1 sec1,
        finish_secret arn token w = (Ok tt, w1) /\
        w_vault w1 !! arn = Some sec1 /\
        staged_versions "AWSCURRENT" sec1 = [(token, with_stages ["AWSCURRENT"] v)] /\
        (s_versions sec1).*1 = (s_versions sec).*1)).
Proof.
  intros Hsec Hwell.
  assert (Hdesc : describe_secret arn w = (Ok sec, w))
    by (unfold describe_secret; rewrite Hsec; reflexivity).
  split.
  - intros v Hf Hs.
    assert (Hrun : finish_secret arn token w = (Ok tt, w)).
    { unfold finish_secret. rewrite (bind_ok _ _ _ _ _ Hdesc).
      rewrite scan_current_first.
      rewrite (staged_is_first "AWSCURRENT" sec token v Hwell (find_version_elem _ _ _ Hf) Hs).
      rewrite String.eqb_refl. reflexivity. }
    split; [exact Hrun |]. apply (events_of_grows (fun _ => True)).
    rewrite Hrun. symmetry; apply app_nil_r.
  - intros Hnot.
    set (holder := fst <$> find_staged "AWSCURRENT" (s_versions sec)).
    assert (Hscan : scan_current token (s_versions sec) = Some holder).
    { rewrite scan_current_first. unfold holder.
      destruct (find_staged "AWSCURRENT" (s_versions sec)) as [[k v]|] eqn:Hfs;
        [| reflexivity].
      destruct (String.eqb_spec k token) as [->|Hne]; [| reflexivity]. exfalso.
      assert (Hin : (token, v) ∈ filter (fun kv => has_stage "AWSCURRENT" (snd kv) = true)
                                        (s_versions sec)).
      { rewrite find_staged_head in Hfs.
        destruct (filter _ (s_versions sec)) as [|x l]; [discriminate |].
        injection Hfs as ->. left. }
      apply list_elem_of_filter in Hin as [Hs Hin]. simpl in Hs.
      destruct Hwell as [Hnd _].
      rewrite (Hnot v (find_version_NoDup _ _ _ Hnd Hin)) in Hs. discriminate. }
    assert (Hrun : finish_secret arn token w
                   = update_secret_version_stage arn "AWSCURRENT" token holder w).
    { unfold finish_secret. rewrite (bind_ok _ _ _ _ _ Hdesc), Hscan. reflexivity. }
    split.
    + apply (events_of_grows (fun _ => True)). rewrite Hrun.
      unfold update_secret_version_stage, bind, emit. cbn [w_vault set_trace].
      rewrite Hsec. destruct (find_version token (s_versions sec)); [| reflexivity].
      destruct (decide (holder = None)); [reflexivity |].
      destruct (decide _); reflexivity.
    + intros v current_version vc Hf Hfs. rewrite Hrun.
      unfold update_secret_version_stage, bind, emit. cbn [w_vault set_trace].
      rewrite Hsec, Hf. fold holder.
      rewrite decide_False by (unfold holder; rewrite Hfs; discriminate).
      rewrite decide_True by reflexivity.
      eexists _, _. split; [reflexivity |]. cbn [w_vault set_vault].
      split; [apply lookup_insert_eq |]. split; [| apply move_stage_keys].
      unfold staged_versions. cbn [s_versions].
      destruct Hwell as [Hnd Hle].
      apply staged_move_stage; [exact Hnd | exact Hf |].
      intros k0 v0 Hin Hs. right. unfold holder.
      rewrite (staged_is_first "AWSCURRENT" sec k0 v0 (conj Hnd Hle) Hin Hs). reflexivity.
Qed.

End FinishSecret.

Lemma create_secret_idempotent_witness :
  let E := Toy.env Toy.no_directory in
  let w1 := snd (create_secret E Toy.arn Toy.v2
                   (Toy.start Toy.vault_rotation_started Toy.plain_server)) in
  create_secret E Toy.arn Toy.v2 w1 = (Ok tt, w1).
Proof.
  cbv zeta.
  eapply proj1, (proj2 (proj2 (create_secret_idempotent (Toy.env Toy.no_directory)
                                 Toy.arn Toy.v2
                                 (Toy.start Toy.vault_rotation_started Toy.plain_server))))
    with (sec := Toy.secret_rotation_started).
  - vm_compute; reflexivity.
  - vm_compute; reflexivity.
  - split; [discriminate |]. intros v Hv. vm_compute in Hv. injection Hv as <-. reflexivity.
  - split; [apply (bool_decide_unpack _); vm_compute; reflexivity | vm_compute; lia].
Defined.

Lemma finish_secret_moves_current_witness :
  let w := Toy.start {[ Toy.arn := Toy.secret_mismatch ]} Toy.server_bob in
  events_of (finish_secret Toy.arn Toy.v2) w
  = [EvUpdateStage Toy.arn "AWSCURRENT" Toy.v2 (Some Toy.v1)] /\
  exists w1 sec1 v,
    finish_secret Toy.arn Toy.v2 w = (Ok tt, w1) /\
    w_vault w1 !! Toy.arn = Some sec1 /\
    staged_versions "AWSCURRENT" sec1 = [(Toy.v2, v)].
Proof.
  cbv zeta.
  assert (Hsec : w_vault (Toy.start {[ Toy.arn := Toy.secret_mismatch ]} Toy.server_bob)
                 !! Toy.arn = Some Toy.secret_mismatch) by (vm_compute; reflexivity).
  assert (Hwell : well_staged "AWSCURRENT" Toy.secret_mismatch).
  { split; [apply (bool_decide_unpack _); vm_compute; reflexivity | vm_compute; lia]. }
  assert (Hnot : forall v, find_version Toy.v2 (s_versions Toy.secret_mismatch) = Some v ->
                           has_stage "AWSCURRENT" v = false).
  { intros v Hv. vm_compute in Hv. injection Hv as <-. reflexivity. }
  pose proof (proj2 (finish_secret_moves_current (DB:=Toy.server) Toy.arn Toy.v2 _
                       Toy.secret_mismatch Hsec Hwell) Hnot) as [Hev Hmove].
  split; [exact Hev |].
  edestruct Hmove as (w1 & sec1 & Hrun & Hsec1 & Hstaged & _);
    [vm_compute; reflexivity | vm_compute; reflexivity |].
  eexists w1, sec1, _. split; [exact Hrun | split; [exact Hsec1 | exact Hstaged]].
Defined.

(** * The helpers and the steps, function by function *)

(** ** [get_secret_dict] *)

Section SecretRecords.
Context {DB : Type}.
Implicit Types (w : world DB) (d : dict).

Lemma supported_engine_spec v :
  existsb (py_eq v) supported_engines = true <-> supported_engine v.
Proof.
  unfold supported_engines, supported_engine. cbn [existsb].
  destruct v as [| b | z | s]; cbn [py_eq orb];
    try (split; [intros H; discriminate H | intros [H|H]; discriminate H]).
  rewrite orb_false_r, orb_true_iff, !String.eqb_eq.
  split; (intros [H|H]; [left|right]; congruence).
Qed.

Lemma valid_record_spec d :
  valid_record d = true <->
  (forall field, field ∈ required_fields -> is_Some (d !! field)) /\
  exists engine, d !! "engine" = Some engine /\ supported_engine engine.
Proof.
  unfold valid_record. rewrite andb_true_iff, forallb_forall.
  split.
  - intros [Hf He]. split.
    + intros f Hin. apply list_elem_of_In in Hin. specialize (Hf f Hin).
      apply bool_decide_eq_true in Hf. exact Hf.
    + destruct (d !! "engine") as [v|]; [| discriminate He].
      exists v. split; [reflexivity | apply supported_engine_spec, He].
  - intros [Hf (v & Hv & He)]. split.
    + intros f Hin. apply bool_decide_eq_true, Hf, list_elem_of_In, Hin.
    + rewrite Hv. apply supported_engine_spec, He.
Qed.

(** X1: [get_secret_dict] returns a dictionary exactly when the vault holds
    it as the JSON value of the version asked for and, unless the master
    flag is set, the dictionary has the four required fields and an engine
    that is ["postgres"] or ["aurora-postgresql"]; with the master flag
    every JSON object is returned as it is.  The call leaves the world as
    it found it. *)
Theorem get_secret_dict_returns_valid_records arn stage token w d :
  (get_secret_dict arn stage token false w = (Ok d, w) <->
   fst (get_secret_value arn (token_given token) stage w) = Ok (Json d) /\
   (forall field, field ∈ required_fields -> is_Some (d !! field)) /\
   exists engine, d !! "engine" = Some engine /\ supported_engine engine) /\
  (get_secret_dict arn stage token true w = (Ok d, w) <->
   fst (get_secret_value arn (token_given token) stage w) = Ok (Json d)).
Proof.
  split.
  - rewrite <- valid_record_spec, <- get_secret_dict_ok. split.
    + intros ->. reflexivity.
    + intros H. apply get_secret_dict_run, H.
  - split.
    + intros H. unfold get_secret_dict, bind in H.
      destruct (get_secret_value arn (token_given token) stage w) as [[s|e] w1];
        [| discriminate H].
      destruct s as [|d0]; cbn in H; [discriminate H|].
      injection H as -> ->. reflexivity.
    + intros H. unfold get_secret_dict, bind.
      pose proof (silent_get_secret_value (DB:=DB) arn (token_given token) stage w) as Hs.
      destruct (get_secret_value arn (token_given token) stage w) as [[s|e] w1];
        cbn in H, Hs; [| discriminate H].
      injection H as ->. subst w1. reflexivity.
Qed.


Lemma check_required_first_missing fields d w field :
  find (fun f => bool_decide (d !! f = None)) fields = Some field ->
  check_required (DB:=DB) fields d w
  = (Raise (KeyError (String.append field " key is missing from secret JSON")), w).
Proof.
  induction fields as [|f rest IH]; cbn [find check_required]; [discriminate|].
  destruct (d !! f) as [v|] eqn:Hf.
  - rewrite bool_decide_eq_false_2 by discriminate. exact IH.
  - rewrite bool_decide_eq_true_2 by reflexivity. intros [= <-]. reflexivity.
Qed.

Lemma check_required_none_missing fields d w :
  find (fun f => bool_decide (d !! f = None)) fields = None ->
  check_required (DB:=DB) fields d w = (Ok tt, w).
Proof.
  induction fields as [|f rest IH]; cbn [find check_required]; [reflexivity|].
  destruct (d !! f) as [v|] eqn:Hf.
  - rewrite bool_decide_eq_false_2 by discriminate. exact IH.
  - rewrite bool_decide_eq_true_2 by reflexivity. discriminate.
Qed.

Lemma get_secret_value_run arn version_id stage w r :
  fst (get_secret_value (DB:=DB) arn version_id stage w) = r ->
  get_secret_value arn version_id stage w = (r, w).
Proof.
  intros <-. pose proof (silent_get_secret_value (DB:=DB) arn version_id stage w) as Hs.
  destruct (get_secret_value arn version_id stage w) as [r w1]. cbn in *. congruence.
Qed.

(** X2: for a value that is a JSON object, [get_secret_dict] reports the
    first required field that is missing, in the order host, username,
    password, engine, with the message of line 452; when none is missing
    and the engine is not supported, it reports the message of line 456;
    whatever it raises for such a value is a schema error. *)
Theorem get_secret_dict_names_first_missing_field arn stage token w d :
  fst (get_secret_value arn (token_given token) stage w) = Ok (Json d) ->
  (forall field,
     find (fun f => bool_decide (d !! f = None)) required_fields = Some field ->
     get_secret_dict arn stage token false w
     = (Raise (KeyError (String.append field " key is missing from secret JSON")), w)) /\
  (find (fun f => bool_decide (d !! f = None)) required_fields = None ->
   (forall engine, d !! "engine" = Some engine -> ~ supported_engine engine) ->
   get_secret_dict arn stage token false w
   = (Raise (KeyError
        "Database engine must be set to 'postgres' in order to use this rotation lambda"), w)) /\
  (forall e, fst (get_secret_dict arn stage token false w) = Raise e ->
             kind_of e = Some SchemaError).
Proof.
  intros Hv. apply get_secret_value_run in Hv.
  split; [| split].
  - intros field Hfind. unfold get_secret_dict.
    rewrite (bind_ok _ _ _ _ _ Hv). cbn [json_loads negb].
    unfold bind at 1. unfold ret at 1. unfold bind at 1. unfold bind at 1.
    rewrite (check_required_first_missing _ _ _ _ Hfind). reflexivity.
  - intros Hnone Heng. unfold get_secret_dict.
    rewrite (bind_ok _ _ _ _ _ Hv). cbn [json_loads negb].
    unfold bind at 1. unfold ret at 1. unfold bind at 1. unfold bind at 1.
    rewrite (check_required_none_missing _ _ _ Hnone).
    unfold bind, subscript.
    destruct (d !! "engine") as [engine|] eqn:He.
    + unfold ret, raise. cbv beta iota.
      destruct (existsb (py_eq engine) supported_engines) eqn:Hs.
      * apply supported_engine_spec in Hs. destruct (Heng engine eq_refl Hs).
      * reflexivity.
    + exfalso. pose proof (find_none _ _ Hnone "engine") as Hf.
      cbv beta in Hf. rewrite bool_decide_eq_true_2 in Hf by exact He.
      discriminate Hf. unfold required_fields. cbn. tauto.
  - intros e He. unfold get_secret_dict in He.
    rewrite (bind_ok _ _ _ _ _ Hv) in He. cbn [json_loads negb] in He.
    unfold bind at 1 in He. unfold ret at 1 in He. unfold bind at 1 in He.
    unfold bind at 1 in He.
    destruct (check_required required_fields d w) as [[[]|e1] w1] eqn:Hc.
    + unfold bind, subscript in He.
      destruct (d !! "engine") as [engine|]; [| cbn in He].
      * unfold ret, raise in He. cbv beta iota in He.
        destruct (existsb (py_eq engine) supported_engines); cbn in He;
          [discriminate He | injection He as <-; reflexivity].
      * injection He as <-. reflexivity.
    + injection He as <-.
      destruct (check_required_raises required_fields d w e1) as [msg ->];
        [rewrite Hc; reflexivity | reflexivity].
Qed.


End SecretRecords.

Lemma get_secret_dict_names_first_missing_field_witness :
  get_secret_dict (PStr Toy.arn) "AWSCURRENT" None false
    (Toy.start Toy.vault_incomplete Toy.plain_server)
  = (Raise (KeyError "username key is missing from secret JSON"),
     Toy.start Toy.vault_incomplete Toy.plain_server).
Proof.
  assert (Hv : fst (get_secret_value (DB:=Toy.server) (PStr Toy.arn) (token_given None)
                      "AWSCURRENT" (Toy.start Toy.vault_incomplete Toy.plain_server))
               = Ok (Json (delete "username" (Toy.record "db.example" "alice" "p1"))))
    by (vm_compute; reflexivity).
  apply (proj1 (get_secret_dict_names_first_missing_field _ _ _ _ _ Hv) "username").
  vm_compute; reflexivity.
Defined.

(** ** [get_ssl_config] *)

Lemma get_ssl_config_fall_back (d : dict) :
  snd (get_ssl_config d) = true -> fst (get_ssl_config d) = true.
Proof.
  unfold get_ssl_config.
  destruct (d !! "ssl") as [[| b | z | s]|]; cbn; try reflexivity.
  - discriminate.
  - destruct (String.eqb (lower s) "true"); [discriminate|].
    destruct (String.eqb (lower s) "false"); [discriminate | reflexivity].
Qed.

(** X4: [get_ssl_config] turns TLS off only on request: [use_ssl] is false
    exactly when [ssl] is the boolean [False] or a string equal to
    ["false"] ignoring case; the fall-back flag is never set together with
    [use_ssl = False]; and the result depends on the [ssl] field only. *)
Theorem get_ssl_config_plain_only_on_request (secret_dict : dict) :
  (fst (get_ssl_config secret_dict) = false <->
   secret_dict !! "ssl" = Some (PBool false) \/
   exists s, secret_dict !! "ssl" = Some (PStr s) /\ eq_ignore_case s "false") /\
  (snd (get_ssl_config secret_dict) = true -> fst (get_ssl_config secret_dict) = true) /\
  (forall other : dict, other !! "ssl" = secret_dict !! "ssl" ->
                        get_ssl_config other = get_ssl_config secret_dict).
Proof.
  unfold get_ssl_config. split; [| split].
  - destruct (secret_dict !! "ssl") as [[| b | z | s]|] eqn:Hssl; cbn.
    + split; [discriminate | intros [H | (s & H & _)]; discriminate H].
    + split.
      * intros ->. left. reflexivity.
      * intros [H | (s & H & _)]; [congruence | discriminate H].
    + split; [discriminate | intros [H | (s & H & _)]; discriminate H].
    + destruct (String.eqb (lower s) "true") eqn:Ht.
      * split; [discriminate|]. intros [H | (s' & H & Hs')]; [discriminate H|].
        injection H as <-. apply (lower_is_literal s "false" eq_refl) in Hs'.
        apply String.eqb_eq in Ht, Hs'. rewrite Ht in Hs'. discriminate Hs'.
      * destruct (String.eqb (lower s) "false") eqn:Hf.
        -- split; [| reflexivity]. intros _. right. exists s. split; [reflexivity|].
           apply (lower_is_literal s "false" eq_refl), Hf.
        -- split; [discriminate|]. intros [H | (s' & H & Hs')]; [discriminate H|].
           injection H as <-. apply (lower_is_literal s "false" eq_refl) in Hs'.
           rewrite Hs' in Hf. discriminate Hf.
    + split; [discriminate | intros [H | (s & H & _)]; discriminate H].
  - destruct (secret_dict !! "ssl") as [[| b | z | s]|]; cbn; try reflexivity.
    + discriminate.
    + destruct (String.eqb (lower s) "true"); [discriminate|].
      destruct (String.eqb (lower s) "false"); [discriminate | reflexivity].
  - intros other ->. reflexivity.
Qed.

(** ** [get_connection] and [connect_and_authenticate] *)

Section Attempts.
Context {DB : Type} (E : Env DB).
Implicit Types (w : world DB) (d : dict).

(** One attempt adds at most one call, made with the fields of the secret. *)
Lemma attempt_trace d port dbname ssl w :
  exists t,
    w_trace (snd (bind (connect_args d port dbname ssl)
                       (fun p => bind (connect E p) (fun conn => ret (Some conn))) w))
    = w_trace w ++ t /\
    (length t <= 1)%nat /\ Forall (attempt_of d port dbname ssl) t.
Proof.
  unfold bind at 1.
  destruct (connect_args d port dbname ssl w) as [[p|e] w1] eqn:Ha.
  - pose proof (silent_world _ _ _ _ (silent_connect_args d port dbname ssl) Ha) as ->.
    apply connect_args_ok in Ha as (Hdb & Hport & Hssl & Hh & Hu & Hp).
    unfold bind, connect.
    destruct (pgdb_connect E p (w_db w)) as [[e|] db'];
      (eexists; split; [reflexivity | split; [cbn; lia |]]);
      repeat constructor; cbn; auto.
  - pose proof (silent_world _ _ _ _ (silent_connect_args d port dbname ssl) Ha) as ->.
    exists []. rewrite app_nil_r. split; [reflexivity | split; [cbn; lia | constructor]].
Qed.

Lemma connect_without_ssl_trace d port dbname w :
  exists t,
    w_trace (snd (connect_without_ssl E d port dbname w)) = w_trace w ++ t /\
    (length t <= 1)%nat /\ Forall (attempt_of d port dbname false) t.
Proof.
  unfold connect_without_ssl, try_except.
  destruct (attempt_trace d port dbname false w) as (t & Ht & Hl & Hf).
  destruct (bind _ _ w) as [[c|e] w1]; cbn [snd] in *.
  - exists t. auto.
  - destruct e; cbn [snd ret]; exists t; auto.
Qed.

Lemma connect_and_authenticate_trace d port dbname use_ssl w :
  exists t,
    w_trace (snd (connect_and_authenticate E d port dbname use_ssl w)) = w_trace w ++ t /\
    (length t <= if use_ssl then 2 else 1)%nat /\
    Forall (fun ev => exists ssl, attempt_of d port dbname ssl ev) t /\
    Forall (attempt_of d port dbname false) (tail t) /\
    (use_ssl = false -> Forall (attempt_of d port dbname false) t).
Proof.
  unfold connect_and_authenticate. destruct use_ssl.
  - unfold try_except.
    destruct (attempt_trace d port dbname true w) as (t & Ht & Hl & Hf).
    destruct (bind _ _ w) as [[c|e] w1]; cbn [snd] in *.
    + exists t. split; [exact Ht | split; [lia | split; [| split; [| discriminate]]]].
      * eapply Forall_impl; [exact Hf | intros ev H; exists true; exact H].
      * destruct t as [|ev [|ev' t]]; cbn in *; [constructor | constructor | lia].
    + destruct (connect_without_ssl_trace d port dbname w1) as (t' & Ht' & Hl' & Hf').
      exists (t ++ t'). rewrite Ht', Ht, app_assoc.
      split; [reflexivity |]. rewrite length_app.
      split; [lia | split; [| split; [| discriminate]]].
      * apply Forall_app. split.
        -- eapply Forall_impl; [exact Hf | intros ev H; exists true; exact H].
        -- eapply Forall_impl; [exact Hf' | intros ev H; exists false; exact H].
      * destruct t as [|ev [|ev' t]]; cbn in *; [| exact Hf' | lia].
        destruct t' as [|? t']; cbn; [constructor|].
        destruct t'; [constructor | cbn in Hl'; lia].
  - destruct (connect_without_ssl_trace d port dbname w) as (t & Ht & Hl & Hf).
    exists t. split; [exact Ht | split; [exact Hl | split; [| split; [| intros _; exact Hf]]]].
    + eapply Forall_impl; [exact Hf | intros ev H; exists false; exact H].
    + destruct t; [constructor | cbn; apply Forall_inv_tail in Hf; exact Hf].
Qed.

End Attempts.

Lemma Forall_tail_app {A} (P : A -> Prop) (t1 t2 : list A) :
  Forall P (tail t1) -> Forall P t2 -> Forall P (tail (t1 ++ t2)).
Proof.
  destruct t1 as [|x t1]; cbn.
  - intros _ H. destruct t2; [constructor | apply Forall_inv_tail in H; exact H].
  - intros H1 H2. apply Forall_app. split; assumption.
Qed.

Section AttemptsOfGetConnection.
Context {DB : Type} (E : Env DB).
Implicit Types (w : world DB) (d : dict).

Lemma py_int_run v w r : fst (py_int E v w) = r -> py_int E v w = (r, w).
Proof.
  intros <-. pose proof (silent_py_int E v w) as Hs.
  destruct (py_int E v w) as [r w1]. cbn in *. congruence.
Qed.

(** The calls of one [get_connection]. *)
Lemma get_connection_trace d w :
  exists port t,
    w_trace (snd (get_connection E d w)) = w_trace w ++ t /\
    (t = [] \/ match d !! "port" with
               | Some v => fst (py_int E v w) = Ok port
               | None => port = 5432
               end) /\
    (length t <= 3)%nat /\
    (snd (get_ssl_config d) = false -> (length t <= 2)%nat) /\
    (fst (get_ssl_config d) = false ->
     (length t <= 1)%nat /\ Forall (attempt_of d port (dbname_of d) false) t) /\
    Forall (fun ev => exists ssl, attempt_of d port (dbname_of d) ssl ev) t /\
    Forall (attempt_of d port (dbname_of d) false) (tail t).
Proof.
  unfold get_connection. unfold bind at 1.
  set (m := match d !! "port" with Some v => py_int E v | None => ret 5432 end).
  assert (Hm : exists r, m w = (r, w) /\
                         match r with
                         | Ok port => match d !! "port" with
                                      | Some v => fst (py_int E v w) = Ok port
                                      | None => port = 5432
                                      end
                         | Raise _ => True
                         end).
  { subst m. destruct (d !! "port") as [v|].
    - exists (fst (py_int E v w)). split; [apply py_int_run; reflexivity|].
      destruct (fst (py_int E v w)); auto.
    - exists (Ok 5432). split; reflexivity. }
  destruct Hm as (r & -> & Hr). destruct r as [port|e].
  2:{ exists 0, []. rewrite app_nil_r. cbn.
      repeat split; auto; try lia; constructor. }
  exists port. fold (dbname_of d).
  pose proof (get_ssl_config_fall_back d) as Hfb.
  destruct (get_ssl_config d) as [use_ssl fall_back]. cbn [fst snd] in *.
  unfold bind.
  destruct (connect_and_authenticate_trace E d port (dbname_of d) use_ssl w)
    as (t1 & Ht1 & Hl1 & Hf1 & Htl1 & Hplain1).
  destruct (connect_and_authenticate E d port (dbname_of d) use_ssl w) as [[conn|e] w1];
    cbn [snd] in *.
  - destruct (connected conn || negb fall_back) eqn:Hc.
    + exists t1. cbn [snd ret].
      split; [exact Ht1 | split; [right; exact Hr |]].
      split; [destruct use_ssl; lia |].
      split; [intros _; destruct use_ssl; lia |].
      split; [| split; assumption].
      intros ->. split; [exact Hl1 | apply Hplain1; reflexivity].
    + apply orb_false_iff in Hc as [_ Hfall]. apply negb_false_iff in Hfall.
      subst fall_back. specialize (Hfb eq_refl). subst use_ssl.
      destruct (connect_and_authenticate_trace E d port (dbname_of d) false w1)
        as (t2 & Ht2 & Hl2 & _ & _ & Hplain2).
      specialize (Hplain2 eq_refl).
      exists (t1 ++ t2). rewrite Ht2, Ht1, app_assoc.
      split; [reflexivity | split; [right; exact Hr |]].
      rewrite length_app.
      split; [lia |]. split; [discriminate |]. split; [discriminate |].
      split.
      * apply Forall_app. split; [exact Hf1 |].
        eapply Forall_impl; [exact Hplain2 | intros ev H; exists false; exact H].
      * apply Forall_tail_app; assumption.
  - exists t1.
    split; [exact Ht1 | split; [right; exact Hr |]].
    split; [destruct use_ssl; lia |].
    split; [intros _; destruct use_ssl; lia |].
    split; [| split; assumption].
    intros ->. split; [exact Hl1 | apply Hplain1; reflexivity].
Qed.

(** X5: the [pgdb.connect] calls of one [get_connection]: at most three;
    at most two when the policy has no fall-back; at most one, without TLS,
    when the policy turns TLS off.  Every call passes the host, user and
    password of the secret, its [dbname] or ["postgres"], and port 5432
    unless the secret names a port, in which case it passes [int(port)];
    only the first call can ask for TLS. *)
Theorem get_connection_attempts d w :
  let t := events_of (get_connection E d) w in
  (length t <= 3)%nat /\
  (snd (get_ssl_config d) = false -> (length t <= 2)%nat) /\
  (fst (get_ssl_config d) = false ->
   (length t <= 1)%nat /\ Forall (fun ev => is_unencrypted_attempt ev = true) t) /\
  Forall (attempt_with d) t /\
  Forall (fun ev => is_unencrypted_attempt ev = true) (tail t) /\
  (forall v, d !! "port" = Some v -> t <> [] ->
     exists port, fst (py_int E v w) = Ok port /\
                  Forall (fun ev => exists p o, ev = EvConnect p o /\ cp_port p = port) t).
Proof.
  intros t.
  destruct (get_connection_trace d w) as (port & t' & Ht & Hport & H3 & H2 & H1 & Hall & Htl).
  assert (t = t') as -> by (apply (events_of_grows (fun _ => True)), Ht).
  assert (Hplain : forall ev, attempt_of d port (dbname_of d) false ev ->
                              is_unencrypted_attempt ev = true).
  { intros [p o| | | | | |]; cbn; try tauto.
    intros (_ & _ & _ & _ & _ & ->). reflexivity. }
  split; [exact H3 | split; [exact H2 | split; [| split; [| split]]]].
  - intros Hf. destruct (H1 Hf) as [Hl Hu]. split; [exact Hl |].
    eapply Forall_impl; [exact Hu | exact Hplain].
  - destruct Hport as [-> | Hport]; [constructor |].
    eapply Forall_impl; [exact Hall |].
    intros [p o| | | | | |] [ssl H]; cbn in *; try tauto.
    destruct H as (Hh & Hu & Hp & Hdb & Hpt & _).
    repeat split; auto. intros Hnone. rewrite Hnone in Hport. congruence.
  - eapply Forall_impl; [exact Htl | exact Hplain].
  - intros v Hv Hne. destruct Hport as [-> | Hport]; [congruence |].
    rewrite Hv in Hport. exists port. split; [exact Hport |].
    eapply Forall_impl; [exact Hall |].
    intros [p o| | | | | |] [ssl H]; cbn in *; try tauto.
    exists p, o. split; [reflexivity | tauto].
Qed.

End AttemptsOfGetConnection.

(** ** [test_secret] *)

Section TestSecret.
Context {DB : Type} (E : Env DB).
Implicit Types (w : world DB) (d : dict).

(** The session [get_connection] returns was opened by its last call,
    which was made with the fields of the secret. *)
Lemma get_connection_last_attempt d w conn w1 :
  get_connection E d w = (Ok (Some conn), w1) ->
  exists t0, w_trace w1 = w_trace w ++ t0 ++ [EvConnect (s_params conn) (Some (sid conn))] /\
             Forall failed_attempt t0 /\
             attempt_with d (EvConnect (s_params conn) (Some (sid conn))).
Proof.
  intros Hc.
  destruct (get_connection_run E d w) as (t & Ht & Hout).
  destruct (get_connection_trace E d w) as (port & t' & Ht' & Hport & _ & _ & _ & Hall & _).
  rewrite Hc in Ht, Ht', Hout. cbn [fst snd] in *.
  assert (t' = t) as -> by (apply (app_inv_head (w_trace w)); congruence).
  destruct Hout as (t0 & -> & Hfail).
  exists t0. split; [exact Ht | split; [exact Hfail |]].
  apply Forall_app in Hall as [_ Hlast]. apply Forall_inv in Hlast as [ssl Hlast].
  destruct Hport as [Hnil | Hport]; [destruct t0; discriminate Hnil |].
  cbn in *. destruct Hlast as (Hh & Hu & Hp & Hdb & Hpt & _).
  repeat split; auto. intros Hnone. rewrite Hnone in Hport. congruence.
Qed.

Lemma emits_probe_test_secret arn token : emits probe_event (test_secret E arn token).
Proof.
  unfold test_secret.
  repeat first [ apply silent_emits, silent_get_secret_dict
               | emits_step ]; cbn; auto.
  intros [| | | | | |] [H _]; cbn in *; first [exact I | discriminate H].
Qed.

(** X6: whatever happens, [test_secret] touches the server only through
    connection attempts, the statement [SELECT NOW()] without arguments, a
    commit and a close: it creates no role and alters no password. *)
Theorem test_secret_only_probes arn token w :
  Forall probe_event (events_of (test_secret E arn token) w) /\
  Forall (fun ev => is_db_mutation ev = false) (events_of (test_secret E arn token) w).
Proof.
  assert (H : Forall probe_event (events_of (test_secret E arn token) w))
    by apply grows_events_of, emits_probe_test_secret.
  split; [exact H |]. eapply Forall_impl; [exact H |].
  intros [| s sql args | | | | |]; cbn; try reflexivity.
  intros [-> _]. reflexivity.
Qed.

(** X7: when [test_secret] returns, the PENDING version was read, a
    session was opened with its fields after attempts that all failed, and
    on that session [SELECT NOW()] was executed and committed and the
    session closed, in this order, with nothing after. *)
Theorem test_secret_success arn token w :
  fst (test_secret E arn token w) = Ok tt ->
  exists pending_dict p n t0,
    fst (get_secret_dict (PStr arn) "AWSPENDING" (Some token) false w) = Ok pending_dict /\
    events_of (test_secret E arn token) w
    = t0 ++ [EvConnect p (Some n); EvExecute n "SELECT NOW()" []; EvCommit n; EvClose n] /\
    Forall failed_attempt t0 /\
    attempt_with pending_dict (EvConnect p (Some n)).
Proof.
  unfold events_of.
  destruct (test_secret E arn token w) as [r w'] eqn:Hrun. cbn [fst snd]. intros ->.
  unfold test_secret in Hrun. unfold bind at 1 in Hrun.
  rewrite (silent_run _ w (silent_get_secret_dict (PStr arn) "AWSPENDING" (Some token) false))
    in Hrun.
  destruct (fst (get_secret_dict (PStr arn) "AWSPENDING" (Some token) false w))
    as [pending_dict|e]; [| discriminate Hrun].
  unfold bind at 1 in Hrun.
  destruct (get_connection E pending_dict w) as [[[conn|]|e] w1] eqn:Hc;
    [| discriminate Hrun ..].
  destruct (get_connection_last_attempt _ _ _ _ Hc) as (t0 & Ht & Hfail & Hwith).
  exists pending_dict, (s_params conn), (sid conn), t0.
  split; [reflexivity | split; [| split; assumption]].
  cbv [try_finally execute commit close emit bind] in Hrun.
  match type of Hrun with
  | context [cur_execute E conn ?s ?a ?db] =>
      destruct (cur_execute E conn s a db) as [[e|rows] db1]
  end; [discriminate Hrun |].
  match type of Hrun with
  | context [conn_commit E conn ?db] => destruct (conn_commit E conn db) as [[e|] db2]
  end; [discriminate Hrun |].
  injection Hrun as <-. cbn. rewrite Ht, <- !app_assoc. rewrite drop_app_length. reflexivity.
Qed.

(** X8: when the PENDING version is readable and [get_connection] gets no
    session for it, [test_secret] raises the [ValueError] of line 258, an
    authentication failure; all it did are the connection attempts, which
    failed. *)
Theorem test_secret_refused_login arn token w pending_dict :
  fst (get_secret_dict (PStr arn) "AWSPENDING" (Some token) false w) = Ok pending_dict ->
  fst (get_connection E pending_dict w) = Ok None ->
  fst (test_secret E arn token w) = Raise (ValueError (UnableToLogInPending arn)) /\
  kind_of (ValueError (UnableToLogInPending arn)) = Some AuthFailure /\
  events_of (test_secret E arn token) w = events_of (get_connection E pending_dict) w /\
  Forall failed_attempt (events_of (test_secret E arn token) w).
Proof.
  intros Hd Hc. apply get_secret_dict_run in Hd.
  assert (Hrun : test_secret E arn token w
                 = (Raise (ValueError (UnableToLogInPending arn)),
                    snd (get_connection E pending_dict w))).
  { unfold test_secret. rewrite (bind_ok _ _ _ _ _ Hd).
    unfold bind. destruct (get_connection E pending_dict w) as [[[c|]|e] w1];
      cbn in Hc; try discriminate Hc. reflexivity. }
  assert (Hev : events_of (test_secret E arn token) w
                = events_of (get_connection E pending_dict) w).
  { unfold events_of. rewrite Hrun. reflexivity. }
  rewrite Hrun, Hev. split; [reflexivity | split; [reflexivity | split; [reflexivity |]]].
  destruct (get_connection_run E pending_dict w) as (t & Ht & Hout).
  rewrite (events_of_grows (fun _ => True) _ _ _ Ht). rewrite Hc in Hout. exact Hout.
Qed.

End TestSecret.

Lemma test_secret_success_witness :
  exists pending_dict p n t0,
    fst (get_secret_dict (PStr Toy.arn) "AWSPENDING" (Some Toy.v2) false
           (Toy.start Toy.vault_rotating Toy.server_rotated)) = Ok pending_dict /\
    events_of (test_secret (Toy.env Toy.no_directory) Toy.arn Toy.v2)
              (Toy.start Toy.vault_rotating Toy.server_rotated)
    = t0 ++ [EvConnect p (Some n); EvExecute n "SELECT NOW()" []; EvCommit n; EvClose n] /\
    Forall failed_attempt t0 /\
    attempt_with pending_dict (EvConnect p (Some n)).
Proof.
  apply (test_secret_success (Toy.env Toy.no_directory) Toy.arn Toy.v2
           (Toy.start Toy.vault_rotating Toy.server_rotated)).
  vm_compute; reflexivity.
Defined.

Lemma test_secret_refused_login_witness :
  fst (test_secret (Toy.env Toy.no_directory) Toy.arn Toy.v2
         (Toy.start Toy.vault_rotating Toy.server_alice))
  = Raise (ValueError (UnableToLogInPending Toy.arn)).
Proof.
  eapply proj1, (test_secret_refused_login (Toy.env Toy.no_directory) Toy.arn Toy.v2
                   (Toy.start Toy.vault_rotating Toy.server_alice)
                   (Toy.record "db.example" "alice" "p2")).
  - vm_compute; reflexivity.
  - vm_compute; reflexivity.
Defined.

(** ** Sessions of the steps *)

Section SessionsOfSteps.
Context {DB : Type} (E : Env DB).
Implicit Types (w : world DB) (d : dict).

(** X9: [get_connection] leaves open exactly the session it returns: when
    it returns a session, that session is new and is the only one added to
    the open sessions, also when earlier attempts failed; when it returns
    [None] or raises, no session is left open. *)
Theorem get_connection_leaves_only_its_session d w :
  sessions_fresh w ->
  sessions_fresh (snd (get_connection E d w)) /\
  match fst (get_connection E d w) with
  | Ok (Some conn) =>
      w_open (snd (get_connection E d w)) = sid conn :: w_open w /\ sid conn ∉ w_open w
  | _ => w_open (snd (get_connection E d w)) = w_open w
  end.
Proof.
  intros Hf. destruct (get_connection E d w) as [r w'] eqn:Hc.
  exact (get_connection_opens E d w r w' Hf Hc).
Qed.

(** X10: [test_secret] leaves open the sessions it found open, however it
    exits. *)
Theorem test_secret_leaves_no_session arn token w :
  sessions_fresh w ->
  sessions_fresh (snd (test_secret E arn token w)) /\
  w_open (snd (test_secret E arn token w)) = w_open w.
Proof.
  intros Hf. destruct (test_secret E arn token w) as [r w'] eqn:Hc.
  exact (test_secret_closes E arn token w r w' Hf Hc).
Qed.

(** X11: [create_user_if_not_exists] leaves open the sessions it found
    open, however it exits. *)
Theorem create_user_leaves_no_session (secret_dict : dict) w :
  sessions_fresh w ->
  sessions_fresh (snd (create_user_if_not_exists E secret_dict w)) /\
  w_open (snd (create_user_if_not_exists E secret_dict w)) = w_open w.
Proof.
  intros Hf. destruct (create_user_if_not_exists E secret_dict w) as [r w'] eqn:Hc.
  exact (create_user_if_not_exists_closes E secret_dict w r w' Hf Hc).
Qed.

Lemma keeps_password_change (pending_dict : dict) (conn : session) :
  keeps_sessions
    (username ← subscript pending_dict "username";
     rows ← execute E conn "SELECT quote_ident(%s)" [username];
     escaped_username ← fetchone_0 rows;
     let alter_role := String.append "ALTER USER " escaped_username in
     password ← subscript pending_dict "password";
     execute E conn (String.append alter_role " WITH PASSWORD %s") [password];;
     commit E conn).
Proof.
  assert (Hkeep : forall A (m : M DB A), silent m -> keeps_sessions m)
    by (intros; apply keeps_silent; assumption).
  apply keeps_bind; [apply Hkeep, silent_subscript | intros username].
  apply keeps_bind; [apply keeps_execute | intros rows].
  apply keeps_bind.
  { destruct rows as [|[|c rw] rows']; apply Hkeep;
      first [apply silent_raise | apply silent_ret]. }
  intros escaped. cbv zeta.
  apply keeps_bind; [apply Hkeep, silent_subscript | intros password].
  apply keeps_bind; [apply keeps_execute | intros _; apply keeps_commit].
Qed.

Lemma close_returned_session (conn : session) w o :
  w_open w = sid conn :: o -> sid conn ∉ o -> w_open (snd (close E conn w)) = o.
Proof.
  intros Ho Hin. cbn. rewrite Ho. rewrite filter_cons_False by (intros H; apply H; reflexivity).
  apply filter_absent, Hin.
Qed.

(** X12: the only exits of [set_secret] that leave a session open are the
    [ValueError]s of lines 196 and 199 (PREVIOUS names another user or host
    than PENDING), raised with the session of PREVIOUS in hand; on every
    other exit, normal or exceptional, the open sessions are those it
    found. *)
Theorem set_secret_leaks_only_on_previous_mismatch arn token w :
  sessions_fresh w ->
  w_open (snd (set_secret E arn token w)) = w_open w \/
  exists n pending previous,
    w_open (snd (set_secret E arn token w)) = n :: w_open w /\
    (fst (set_secret E arn token w) = Raise (ValueError (OtherThanPreviousUser pending previous))
     \/ fst (set_secret E arn token w)
        = Raise (ValueError (OtherThanPreviousHost pending previous))).
Proof.
  intros Hf.
  destruct (set_secret E arn token w) as [r w'] eqn:Hrun. cbn [fst snd].
  unfold set_secret in Hrun. unfold bind at 1 in Hrun.
  rewrite (silent_run _ w (silent_fetch_previous arn)) in Hrun.
  destruct (fst (fetch_previous arn w)) as [previous_dict|e];
    [| injection Hrun as <- <-; left; reflexivity].
  unfold bind at 1 in Hrun.
  rewrite (silent_run _ w (silent_get_secret_dict (PStr arn) "AWSCURRENT" None false)) in Hrun.
  destruct (fst (get_secret_dict (PStr arn) "AWSCURRENT" None false w))
    as [current_dict|e]; [| injection Hrun as <- <-; left; reflexivity].
  unfold bind at 1 in Hrun.
  rewrite (silent_run _ w (silent_get_secret_dict (PStr arn) "AWSPENDING" (Some token) false))
    in Hrun.
  destruct (fst (get_secret_dict (PStr arn) "AWSPENDING" (Some token) false w))
    as [pending_dict|e]; [| injection Hrun as <- <-; left; reflexivity].
  unfold bind at 1 in Hrun.
  destruct (create_user_if_not_exists E current_dict w) as [[b|e] w1] eqn:Hcu;
    destruct (create_user_if_not_exists_closes E current_dict _ _ _ Hf Hcu) as [Hf1 Ho1];
    [| injection Hrun as <- <-; left; exact Ho1].
  rewrite <- Ho1.
  unfold bind at 1 in Hrun.
  destruct (get_connection E pending_dict w1) as [[[conn|]|e] w2] eqn:Hgp;
    destruct (get_connection_opens E pending_dict _ _ _ Hf1 Hgp) as [Hf2 Ho2];
    [| | injection Hrun as <- <-; left; exact Ho2].
  { destruct Ho2 as [Ho2 Hin]. left.
    rewrite <- (close_returned_session conn w2 (w_open w1) Ho2 Hin), Hrun. reflexivity. }
  rewrite <- Ho2.
  unfold bind at 1 in Hrun. unfold subscript at 1 in Hrun.
  destruct (current_dict !! "username") as [current_username|] eqn:Hcun;
    [| injection Hrun as <- <-; left; reflexivity].
  unfold ret at 1 in Hrun.
  unfold bind at 1 in Hrun. unfold subscript at 1 in Hrun.
  destruct (pending_dict !! "username") as [pending_username|] eqn:Hpun;
    [| injection Hrun as <- <-; left; reflexivity].
  unfold ret at 1 in Hrun.
  destruct (py_eq current_username pending_username) eqn:Heu; cbn [negb] in Hrun;
    [| injection Hrun as <- <-; left; reflexivity].
  unfold bind at 1 in Hrun. unfold subscript at 1 in Hrun.
  destruct (current_dict !! "host") as [current_host|] eqn:Hch;
    [| injection Hrun as <- <-; left; reflexivity].
  unfold ret at 1 in Hrun.
  unfold bind at 1 in Hrun. unfold subscript at 1 in Hrun.
  destruct (pending_dict !! "host") as [pending_host|] eqn:Hph;
    [| injection Hrun as <- <-; left; reflexivity].
  unfold ret at 1 in Hrun.
  destruct (py_eq current_host pending_host) eqn:Heh; cbn [negb] in Hrun;
    [| injection Hrun as <- <-; left; reflexivity].
  unfold bind at 1 in Hrun.
  destruct (get_connection E current_dict w2) as [[[conn|]|e] w3] eqn:Hgc;
    destruct (get_connection_opens E current_dict _ _ _ Hf2 Hgc) as [Hf3 Ho3];
    [| | injection Hrun as <- <-; left; exact Ho3].
  { cbn [ret] in Hrun. unfold bind at 1 in Hrun. unfold ret at 1 in Hrun.
    destruct Ho3 as [Ho3 Hin]. left.
    eapply (try_finally_close E _ conn w3); [| exact Hf3 | exact Ho3 | exact Hin | exact Hrun].
    apply keeps_password_change. }
  rewrite <- Ho3.
  destruct (dict_given previous_dict) as [previous|]; cbn [ret] in Hrun.
  2:{ unfold bind at 1 in Hrun. unfold ret at 1 in Hrun.
      injection Hrun as <- <-. left. reflexivity. }
  unfold bind at 1 in Hrun.
  set (previous' := match current_dict !! "ssl" with
                    | Some v => <["ssl" := v]> (delete "ssl" previous)
                    | None => delete "ssl" previous
                    end) in *.
  unfold bind at 1 in Hrun.
  destruct (get_connection E previous' w3) as [[conn|e] w4] eqn:Hgv;
    destruct (get_connection_opens E previous' _ _ _ Hf3 Hgv) as [Hf4 Ho4];
    [| injection Hrun as <- <-; left; exact Ho4].
  assert (Hopen : match conn with
                  | Some c => w_open w4 = sid c :: w_open w3
                  | None => w_open w4 = w_open w3
                  end) by (destruct conn; tauto).
  unfold bind at 1 in Hrun. unfold subscript at 1 in Hrun.
  destruct (previous' !! "username") as [previous_username|] eqn:Hvun.
  2:{ injection Hrun as <- <-. destruct conn as [c|]; [| left; exact Hopen].
      destruct (get_connection_last_attempt E _ _ _ _ Hgv) as (_ & _ & _ & _ & Hu & _).
      congruence. }
  unfold ret at 1 in Hrun.
  unfold bind at 1 in Hrun. unfold subscript at 1 in Hrun. rewrite Hpun in Hrun.
  unfold ret at 1 in Hrun.
  destruct (py_eq previous_username pending_username) eqn:Hevu; cbn [negb] in Hrun.
  2:{ injection Hrun as <- <-. destruct conn as [c|]; [| left; exact Hopen].
      right. exists (sid c), pending_username, previous_username. auto. }
  unfold bind at 1 in Hrun. unfold subscript at 1 in Hrun.
  destruct (previous' !! "host") as [previous_host|] eqn:Hvh.
  2:{ injection Hrun as <- <-. destruct conn as [c|]; [| left; exact Hopen].
      destruct (get_connection_last_attempt E _ _ _ _ Hgv) as (_ & _ & _ & Hh & _).
      congruence. }
  unfold ret at 1 in Hrun.
  unfold bind at 1 in Hrun. unfold subscript at 1 in Hrun. rewrite Hph in Hrun.
  unfold ret at 1 in Hrun.
  destruct (py_eq previous_host pending_host) eqn:Hevh; cbn [negb] in Hrun.
  2:{ injection Hrun as <- <-. destruct conn as [c|]; [| left; exact Hopen].
      right. exists (sid c), pending_host, previous_host. auto. }
  unfold ret at 1 in Hrun.
  destruct conn as [conn|]; [| injection Hrun as <- <-; left; exact Hopen].
  destruct Ho4 as [Ho4 Hin]. left.
  eapply (try_finally_close E _ conn w4); [| exact Hf4 | exact Ho4 | exact Hin | exact Hrun].
  apply keeps_password_change.
Qed.

End SessionsOfSteps.

Lemma sessions_fresh_start (vault : gmap string secret) (db : Toy.server) :
  sessions_fresh (Toy.start vault db).
Proof. intros n Hn. cbn in Hn. apply not_elem_of_nil in Hn. destruct Hn. Qed.

Lemma get_connection_leaves_only_its_session_witness :
  let run := get_connection (Toy.env Toy.no_directory) Toy.strict_record
                            (Toy.start ∅ Toy.plain_server) in
  sessions_fresh (snd run) /\
  match fst run with
  | Ok (Some conn) => w_open (snd run) = [sid conn] /\ sid conn ∉ @nil nat
  | _ => w_open (snd run) = []
  end.
Proof.
  apply (get_connection_leaves_only_its_session (Toy.env Toy.no_directory)
           Toy.strict_record (Toy.start ∅ Toy.plain_server)).
  apply sessions_fresh_start.
Defined.

Lemma test_secret_leaves_no_session_witness :
  let run := test_secret (Toy.env Toy.no_directory) Toy.arn Toy.v2
                         (Toy.start Toy.vault_rotating Toy.server_rotated) in
  sessions_fresh (snd run) /\ w_open (snd run) = [].
Proof.
  apply (test_secret_leaves_no_session (Toy.env Toy.no_directory) Toy.arn Toy.v2
           (Toy.start Toy.vault_rotating Toy.server_rotated)).
  apply sessions_fresh_start.
Defined.

Lemma create_user_leaves_no_session_witness :
  let run := create_user_if_not_exists (Toy.env Toy.no_directory) Toy.child_without_dbname
               (Toy.start Toy.vault_admin_db Toy.admin_server) in
  sessions_fresh (snd run) /\ w_open (snd run) = [].
Proof.
  apply (create_user_leaves_no_session (Toy.env Toy.no_directory) Toy.child_without_dbname
           (Toy.start Toy.vault_admin_db Toy.admin_server)).
  apply sessions_fresh_start.
Defined.

Lemma set_secret_leaks_only_on_previous_mismatch_witness :
  let run := set_secret (Toy.env Toy.no_directory) Toy.arn Toy.v2
                        (Toy.start Toy.vault_rotating Toy.server_alice) in
  w_open (snd run) = [] \/
  exists n pending previous,
    w_open (snd run) = [n] /\
    (fst run = Raise (ValueError (OtherThanPreviousUser pending previous)) \/
     fst run = Raise (ValueError (OtherThanPreviousHost pending previous))).
Proof.
  apply (set_secret_leaks_only_on_previous_mismatch (Toy.env Toy.no_directory)
           Toy.arn Toy.v2 (Toy.start Toy.vault_rotating Toy.server_alice)).
  apply sessions_fresh_start.
Defined.

(** ** The vault under the database steps *)

Section VaultCombinators.
Context {DB : Type} (E : Env DB).
Implicit Types (w : world DB) (d : dict).

Lemma keeps_vault_silent {A} (m : M DB A) : silent m -> keeps_vault m.
Proof. intros Hs w. rewrite Hs. auto. Qed.

Lemma keeps_vault_bind {A B} (m : M DB A) (k : A -> M DB B) :
  keeps_vault m -> (forall a, keeps_vault (k a)) -> keeps_vault (bind m k).
Proof.
  intros Hm Hk w. unfold bind. specialize (Hm w).
  destruct (m w) as [[a|e] w1]; cbn [snd] in *; [| exact Hm].
  destruct (Hk a w1) as [Hv Hd]. destruct Hm. split; congruence.
Qed.

Lemma keeps_vault_try_except {A} (m : M DB A) h :
  keeps_vault m -> (forall e k, h e = Some k -> keeps_vault k) ->
  keeps_vault (try_except m h).
Proof.
  intros Hm Hh w. unfold try_except. specialize (Hm w).
  destruct (m w) as [[a|e] w1]; cbn [snd] in *; [exact Hm |].
  destruct (h e) as [k|] eqn:He; [| exact Hm].
  destruct (Hh e k He w1). destruct Hm. split; congruence.
Qed.

Lemma keeps_vault_try_finally {A} (m : M DB A) fin :
  keeps_vault m -> keeps_vault fin -> keeps_vault (try_finally m fin).
Proof.
  intros Hm Hf w. unfold try_finally. specialize (Hm w).
  destruct (m w) as [r w1]. specialize (Hf w1).
  destruct (fin w1) as [[[]|e] w2]; cbn [snd] in *; destruct Hm, Hf; split; congruence.
Qed.

Lemma keeps_vault_connect p : keeps_vault (connect E p).
Proof. intros w. unfold connect. destruct (pgdb_connect E p (w_db w)) as [[e|] db']; auto. Qed.

Lemma keeps_vault_execute (c : session) sql args : keeps_vault (execute E c sql args).
Proof.
  intros w. unfold execute, bind, emit.
  destruct (cur_execute E c sql args _) as [[e|rows] db']; auto.
Qed.

Lemma keeps_vault_commit (c : session) : keeps_vault (commit E c).
Proof.
  intros w. unfold commit, bind, emit. destruct (conn_commit E c _) as [[e|] db']; auto.
Qed.

Lemma keeps_vault_close (c : session) : keeps_vault (close E c).
Proof. intros w. auto. Qed.

Lemma keeps_vault_get_connection d : keeps_vault (get_connection E d).
Proof.
  assert (Ha : forall port dbname ssl,
             keeps_vault (bind (connect_args d port dbname ssl)
                               (fun p => bind (connect E p) (fun conn => ret (Some conn))))).
  { intros. apply keeps_vault_bind; [apply keeps_vault_silent, silent_connect_args |].
    intros p. apply keeps_vault_bind; [apply keeps_vault_connect |].
    intros c. apply keeps_vault_silent, silent_ret. }
  assert (Hp : forall port dbname, keeps_vault (connect_without_ssl E d port dbname)).
  { intros. apply keeps_vault_try_except; [apply Ha |].
    intros e k Hk. destruct e; inversion Hk. apply keeps_vault_silent, silent_ret. }
  assert (Hc : forall port dbname use_ssl,
             keeps_vault (connect_and_authenticate E d port dbname use_ssl)).
  { intros. unfold connect_and_authenticate. destruct use_ssl; [| apply Hp].
    apply keeps_vault_try_except; [apply Ha |]. intros e k [= <-]. apply Hp. }
  unfold get_connection. apply keeps_vault_bind.
  { destruct (d !! "port"); apply keeps_vault_silent;
      [apply silent_py_int | apply silent_ret]. }
  intros port. destruct (get_ssl_config d) as [use_ssl fall_back].
  apply keeps_vault_bind; [apply Hc |]. intros conn.
  destruct (connected conn || negb fall_back); [apply keeps_vault_silent, silent_ret | apply Hc].
Qed.

End VaultCombinators.

Ltac keeps_vault_step :=
  match goal with
  | |- keeps_vault (bind _ _) => apply keeps_vault_bind; [| intros ?]
  | |- keeps_vault (ret _) => apply keeps_vault_silent, silent_ret
  | |- keeps_vault (raise _) => apply keeps_vault_silent, silent_raise
  | |- keeps_vault (subscript _ _) => apply keeps_vault_silent, silent_subscript
  | |- keeps_vault (split_first _) => apply keeps_vault_silent, silent_split_first
  | |- keeps_vault (get_secret_dict _ _ _ _) => apply keeps_vault_silent, silent_get_secret_dict
  | |- keeps_vault (fetch_previous _) => apply keeps_vault_silent, silent_fetch_previous
  | |- keeps_vault (try_finally _ _) => apply keeps_vault_try_finally
  | |- keeps_vault (execute _ _ _ _) => apply keeps_vault_execute
  | |- keeps_vault (commit _ _) => apply keeps_vault_commit
  | |- keeps_vault (close _ _) => apply keeps_vault_close
  | |- keeps_vault (get_connection _ _) => apply keeps_vault_get_connection
  | |- keeps_vault (emit _) => intros ?; split; reflexivity
  | |- keeps_vault (fetchone_0 ?r) => destruct r as [|[|? ?] ?]; cbn [fetchone_0]
  | |- keeps_vault (match ?x with _ => _ end) => destruct x
  | |- keeps_vault (if ?x then _ else _) => destruct x
  end.

Section VaultOfProvisioner.
Context {DB : Type} (E : Env DB).
Implicit Types (w : world DB) (d : dict).

Lemma keeps_vault_create_user_if_not_exists d :
  keeps_vault (create_user_if_not_exists E d).
Proof.
  unfold create_user_if_not_exists, is_rds_replica_database.
  repeat keeps_vault_step.
Qed.

Lemma keeps_vault_test_secret arn token : keeps_vault (test_secret E arn token).
Proof. unfold test_secret. repeat keeps_vault_step. Qed.

Lemma keeps_vault_set_secret arn token : keeps_vault (set_secret E arn token).
Proof.
  unfold set_secret.
  repeat first [apply keeps_vault_create_user_if_not_exists | keeps_vault_step].
Qed.

Lemma no_vault_write_connection d :
  emits (fun ev => is_vault_write ev = false) (get_connection E d).
Proof.
  eapply emits_weaken; [| apply emits_get_connection].
  intros [| | | | | |] [H _]; cbn in *; congruence.
Qed.

Lemma no_vault_write_create_user_if_not_exists d :
  emits (fun ev => is_vault_write ev = false) (create_user_if_not_exists E d).
Proof.
  eapply emits_weaken; [| apply emits_create_user_if_not_exists].
  intros ev (_ & Hp & Hs & _). unfold is_vault_write. rewrite Hp, Hs. reflexivity.
Qed.

End VaultOfProvisioner.

Section VaultOfSteps.
Context {DB : Type} (E : Env DB).
Implicit Types (w : world DB) (d : dict).

Lemma no_vault_write_test_secret arn token :
  emits (fun ev => is_vault_write ev = false) (test_secret E arn token).
Proof.
  unfold test_secret.
  repeat first [ apply no_vault_write_connection
               | apply silent_emits, silent_get_secret_dict
               | emits_step | reflexivity ].
Qed.

Lemma no_vault_write_set_secret arn token :
  emits (fun ev => is_vault_write ev = false) (set_secret E arn token).
Proof.
  unfold set_secret.
  repeat first [ apply no_vault_write_connection
               | apply no_vault_write_create_user_if_not_exists
               | apply silent_emits, silent_get_secret_dict
               | apply silent_emits, silent_fetch_previous
               | emits_step | reflexivity ].
Qed.

(** X13: [set_secret] and [test_secret] never write to the vault: the
    secrets and the count of passwords drawn are unchanged, and the trace
    has no [put_secret_value] and no [update_secret_version_stage]. *)
Theorem database_steps_never_write_the_vault arn token w :
  (w_vault (snd (set_secret E arn token w)) = w_vault w /\
   w_drawn (snd (set_secret E arn token w)) = w_drawn w /\
   Forall (fun ev => is_vault_write ev = false) (events_of (set_secret E arn token) w)) /\
  (w_vault (snd (test_secret E arn token w)) = w_vault w /\
   w_drawn (snd (test_secret E arn token w)) = w_drawn w /\
   Forall (fun ev => is_vault_write ev = false) (events_of (test_secret E arn token) w)).
Proof.
  split.
  - destruct (keeps_vault_set_secret E arn token w) as [Hv Hd].
    split; [exact Hv | split; [exact Hd |]].
    apply grows_events_of, no_vault_write_set_secret.
  - destruct (keeps_vault_test_secret E arn token w) as [Hv Hd].
    split; [exact Hv | split; [exact Hd |]].
    apply grows_events_of, no_vault_write_test_secret.
Qed.

End VaultOfSteps.

(** ** The passwords that reach the server *)

Section Passwords.
Context {DB : Type} (E : Env DB).
Implicit Types (w : world DB) (d : dict).

Lemma emits_bind_subscript {B} P d k (f : pyval -> M DB B) :
  (forall v, d !! k = Some v -> emits P (f v)) -> emits P (bind (subscript d k) f).
Proof.
  intros Hf w. unfold bind, subscript.
  destruct (d !! k) as [v|] eqn:Hk; cbn; [apply Hf; reflexivity | apply grows_refl].
Qed.

Lemma passes_password_attempt kind d (dbname : pyval) :
  (forall p o, kind (EvConnect p o) = false) ->
  forall ev, attempt_for dbname ev -> passes_password_of kind d ev.
Proof.
  intros Hk [p o| | | | | |] [H _] Hm; cbn in *; try discriminate H.
  rewrite Hk in Hm. discriminate Hm.
Qed.

Lemma emits_roles_create_user_if_not_exists (secret_dict : dict) :
  emits (passes_password_of is_role_creation secret_dict)
        (create_user_if_not_exists E secret_dict).
Proof.
  unfold create_user_if_not_exists.
  repeat first
    [ apply emits_is_rds_replica_database;
      let H := fresh in intros ? H; cbn in H; discriminate H
    | apply emits_bind_subscript; intros ? ?
    | apply silent_emits, silent_get_secret_dict
    | eapply emits_weaken;
      [apply passes_password_attempt; reflexivity | apply emits_get_connection]
    | emits_step ];
    try (let H := fresh in intros H; cbn in H; discriminate H).
  intros _. eauto.
Qed.

(** X14: every [CREATE ROLE] statement of [create_user_if_not_exists] has
    one argument, the child's [password]; and the provisioner never issues
    [ALTER USER]. *)
Theorem create_user_passes_the_child_password (secret_dict : dict) w :
  Forall (passes_password_of is_role_creation secret_dict)
         (events_of (create_user_if_not_exists E secret_dict) w) /\
  Forall (fun ev => is_password_alteration ev = false)
         (events_of (create_user_if_not_exists E secret_dict) w).
Proof.
  split.
  - apply grows_events_of, emits_roles_create_user_if_not_exists.
  - apply grows_events_of.
    eapply emits_weaken; [| apply emits_create_user_if_not_exists].
    intros ev [H _]. exact H.
Qed.

Lemma emits_alterations_set_secret arn token w (pending_dict : dict) :
  fst (get_secret_dict (PStr arn) "AWSPENDING" (Some token) false w) = Ok pending_dict ->
  grows (passes_password_of is_password_alteration pending_dict)
        w (snd (set_secret E arn token w)).
Proof.
  intros Hd. apply get_secret_dict_run in Hd.
  unfold set_secret.
  apply grows_bind; [apply silent_emits, silent_fetch_previous |].
  intros previous_dict w1 H1. apply silent_world in H1 as ->; [| apply silent_fetch_previous].
  apply grows_bind; [apply silent_emits, silent_get_secret_dict |].
  intros current_dict w1 H1.
  apply silent_world in H1 as ->; [| apply silent_get_secret_dict].
  apply grows_bind; [apply silent_emits, silent_get_secret_dict |].
  intros pending w1 H1. rewrite Hd in H1. injection H1 as <- <-.
  match goal with
  | |- grows ?P ?w0 (snd (?m ?w0)) => cut (emits P m); [intros He; apply He |]
  end.
  repeat first
    [ eapply emits_weaken; [| apply emits_create_user_if_not_exists];
      let H := fresh in let H' := fresh in
      intros ? [H _] H'; rewrite H in H'; discriminate H'
    | apply emits_bind_subscript; intros ? ?
    | eapply emits_weaken;
      [apply passes_password_attempt; reflexivity | apply emits_get_connection]
    | emits_step ];
    try (let H := fresh in intros H; cbn in H; discriminate H).
  intros _. eauto.
Qed.

Lemma emits_roles_set_secret arn token w (current_dict : dict) :
  fst (get_secret_dict (PStr arn) "AWSCURRENT" None false w) = Ok current_dict ->
  grows (passes_password_of is_role_creation current_dict)
        w (snd (set_secret E arn token w)).
Proof.
  intros Hd. apply get_secret_dict_run in Hd.
  unfold set_secret.
  apply grows_bind; [apply silent_emits, silent_fetch_previous |].
  intros previous_dict w1 H1. apply silent_world in H1 as ->; [| apply silent_fetch_previous].
  apply grows_bind; [apply silent_emits, silent_get_secret_dict |].
  intros current w1 H1. rewrite Hd in H1. injection H1 as <- <-.
  match goal with
  | |- grows ?P ?w0 (snd (?m ?w0)) => cut (emits P m); [intros He; apply He |]
  end.
  repeat first
    [ apply emits_roles_create_user_if_not_exists
    | apply silent_emits, silent_get_secret_dict
    | eapply emits_weaken;
      [apply passes_password_attempt; reflexivity | apply emits_get_connection]
    | emits_step ];
    try (let H := fresh in intros H; cbn in H; discriminate H).
Qed.

(** X15: in [set_secret], every [ALTER USER] statement has one argument,
    the [password] of the PENDING version, and every [CREATE ROLE]
    statement (the provisioner's) has one argument, the [password] of the
    CURRENT version. *)
Theorem set_secret_sets_the_pending_password arn token w (current_dict pending_dict : dict) :
  fst (get_secret_dict (PStr arn) "AWSCURRENT" None false w) = Ok current_dict ->
  fst (get_secret_dict (PStr arn) "AWSPENDING" (Some token) false w) = Ok pending_dict ->
  Forall (passes_password_of is_password_alteration pending_dict)
         (events_of (set_secret E arn token) w) /\
  Forall (passes_password_of is_role_creation current_dict)
         (events_of (set_secret E arn token) w).
Proof.
  intros Hc Hp. split; apply grows_events_of.
  - apply emits_alterations_set_secret, Hp.
  - apply emits_roles_set_secret, Hc.
Qed.

End Passwords.

Lemma set_secret_sets_the_pending_password_witness :
  Forall (passes_password_of is_password_alteration (Toy.record "db.example" "alice" "p2"))
         (events_of (set_secret (Toy.env Toy.no_directory) Toy.arn Toy.v2)
                    (Toy.start Toy.vault_rotating Toy.server_alice)).
Proof.
  eapply proj1, (set_secret_sets_the_pending_password (Toy.env Toy.no_directory)
                   Toy.arn Toy.v2 (Toy.start Toy.vault_rotating Toy.server_alice)
                   (Toy.record "db.example" "alice" "p1")
                   (Toy.record "db.example" "alice" "p2")).
  - vm_compute; reflexivity.
  - vm_compute; reflexivity.
Defined.

(** ** What a [set_secret] that returns has done *)

Section SetSecretReturns.
Context {DB : Type} (E : Env DB).
Implicit Types (w : world DB) (d : dict).

(** The run of lines 207-218 when it returns. *)
Lemma password_change_run (pending_dict : dict) (conn : session) w w' :
  try_finally
    (username ← subscript pending_dict "username";
     rows ← execute E conn "SELECT quote_ident(%s)" [username];
     escaped_username ← fetchone_0 rows;
     let alter_role := String.append "ALTER USER " escaped_username in
     password ← subscript pending_dict "password";
     execute E conn (String.append alter_role " WITH PASSWORD %s") [password];;
     commit E conn)
    (close E conn) w = (Ok tt, w') ->
  exists username password escaped,
    pending_dict !! "username" = Some username /\
    pending_dict !! "password" = Some password /\
    w_trace w' = w_trace w ++
      [EvExecute (sid conn) "SELECT quote_ident(%s)" [username];
       EvExecute (sid conn)
         (String.append (String.append "ALTER USER " escaped) " WITH PASSWORD %s") [password];
       EvCommit (sid conn); EvClose (sid conn)].
Proof.
  intros Hrun.
  cbv [try_finally execute commit close emit bind subscript] in Hrun.
  destruct (pending_dict !! "username") as [username|] eqn:Hu; [| discriminate Hrun].
  cbv [ret] in Hrun.
  match type of Hrun with
  | context [cur_execute E conn ?s ?a ?db] =>
      destruct (cur_execute E conn s a db) as [[e|rows] db1]
  end; [discriminate Hrun |].
  destruct rows as [|[|escaped row] rows]; cbv [fetchone_0 raise ret] in Hrun;
    [discriminate Hrun | discriminate Hrun |].
  destruct (pending_dict !! "password") as [password|] eqn:Hp; [| discriminate Hrun].
  match type of Hrun with
  | context [cur_execute E conn ?s ?a ?db] =>
      destruct (cur_execute E conn s a db) as [[e|rows2] db2]
  end; [discriminate Hrun |].
  match type of Hrun with
  | context [conn_commit E conn ?db] => destruct (conn_commit E conn db) as [[e|] db3]
  end; [discriminate Hrun |].
  injection Hrun as <-. exists username, password, escaped.
  split; [reflexivity | split; [reflexivity |]].
  cbn. rewrite <- !app_assoc. reflexivity.
Qed.


Lemma trace_grows {A} (P : event -> Prop) (m : M DB A) w r w' :
  emits P m -> m w = (r, w') -> exists t, w_trace w' = w_trace w ++ t.
Proof.
  intros He Hm. destruct (He w) as (t & Ht & _). rewrite Hm in Ht. exists t. exact Ht.
Qed.

(** X16: [set_secret] returns in two ways only.  Either the server
    accepted PENDING: the trace ends with the call that opened a session
    with the fields of PENDING, and its close.  Or a session was opened
    with another version whose user and host equal those of PENDING, and on
    it [quote_ident] was asked for PENDING's [username], [ALTER USER] was
    executed with PENDING's [password], the change committed and the
    session closed, in this order, with nothing after. *)
Theorem set_secret_success arn token w :
  fst (set_secret E arn token w) = Ok tt ->
  exists (pending_dict : dict) username password host,
    fst (get_secret_dict (PStr arn) "AWSPENDING" (Some token) false w) = Ok pending_dict /\
    pending_dict !! "username" = Some username /\
    pending_dict !! "password" = Some password /\
    pending_dict !! "host" = Some host /\
    exists t p n,
      (events_of (set_secret E arn token) w = t ++ [EvConnect p (Some n); EvClose n] /\
       attempt_with pending_dict (EvConnect p (Some n))) \/
      (exists escaped,
         events_of (set_secret E arn token) w
         = t ++ [EvConnect p (Some n);
                 EvExecute n "SELECT quote_ident(%s)" [username];
                 EvExecute n (String.append (String.append "ALTER USER " escaped)
                                            " WITH PASSWORD %s") [password];
                 EvCommit n; EvClose n] /\
         py_eq (cp_user p) username = true /\ py_eq (cp_host p) host = true).
Proof.
  unfold events_of.
  destruct (set_secret E arn token w) as [r w'] eqn:Hrun. cbn [fst snd]. intros ->.
  unfold set_secret in Hrun. unfold bind at 1 in Hrun.
  rewrite (silent_run _ w (silent_fetch_previous arn)) in Hrun.
  destruct (fst (fetch_previous arn w)) as [previous_dict|e]; [| discriminate Hrun].
  unfold bind at 1 in Hrun.
  rewrite (silent_run _ w (silent_get_secret_dict (PStr arn) "AWSCURRENT" None false)) in Hrun.
  destruct (fst (get_secret_dict (PStr arn) "AWSCURRENT" None false w))
    as [current_dict|e]; [| discriminate Hrun].
  unfold bind at 1 in Hrun.
  rewrite (silent_run _ w (silent_get_secret_dict (PStr arn) "AWSPENDING" (Some token) false))
    in Hrun.
  destruct (fst (get_secret_dict (PStr arn) "AWSPENDING" (Some token) false w))
    as [pending_dict|e]; [| discriminate Hrun].
  unfold bind at 1 in Hrun.
  destruct (create_user_if_not_exists E current_dict w) as [[b|e] w1] eqn:Hcu;
    [| discriminate Hrun].
  destruct (trace_grows _ _ _ _ _ (emits_create_user_if_not_exists E current_dict) Hcu)
    as (t1 & Ht1).
  unfold bind at 1 in Hrun.
  destruct (get_connection E pending_dict w1) as [[[conn|]|e] w2] eqn:Hgp;
    [| | discriminate Hrun].
  - (* PENDING is accepted *)
    destruct (get_connection_last_attempt _ _ _ _ _ Hgp) as (t0 & Ht & _ & Hwith).
    pose proof Hwith as (Hh & Hu & Hp & _).
    exists pending_dict, (cp_user (s_params conn)), (cp_password (s_params conn)),
           (cp_host (s_params conn)).
    split; [reflexivity | split; [exact Hu | split; [exact Hp | split; [exact Hh |]]]].
    exists (t1 ++ t0), (s_params conn), (sid conn). left.
    split; [| exact Hwith].
    injection Hrun as <-. cbn. rewrite Ht, Ht1, <- !app_assoc, drop_app_length.
    reflexivity.
  - (* PENDING is refused *)
    destruct (trace_grows _ _ _ _ _ (emits_get_connection E pending_dict) Hgp) as (t2 & Ht2).
    unfold bind at 1 in Hrun. unfold subscript at 1 in Hrun.
    destruct (current_dict !! "username") as [current_username|] eqn:Hcun;
      [| discriminate Hrun].
    unfold ret at 1 in Hrun.
    unfold bind at 1 in Hrun. unfold subscript at 1 in Hrun.
    destruct (pending_dict !! "username") as [pending_username|] eqn:Hpun;
      [| discriminate Hrun].
    unfold ret at 1 in Hrun.
    destruct (py_eq current_username pending_username) eqn:Heu; cbn [negb] in Hrun;
      [| discriminate Hrun].
    unfold bind at 1 in Hrun. unfold subscript at 1 in Hrun.
    destruct (current_dict !! "host") as [current_host|] eqn:Hch; [| discriminate Hrun].
    unfold ret at 1 in Hrun.
    unfold bind at 1 in Hrun. unfold subscript at 1 in Hrun.
    destruct (pending_dict !! "host") as [pending_host|] eqn:Hph; [| discriminate Hrun].
    unfold ret at 1 in Hrun.
    destruct (py_eq current_host pending_host) eqn:Heh; cbn [negb] in Hrun;
      [| discriminate Hrun].
    unfold bind at 1 in Hrun.
    destruct (get_connection E current_dict w2) as [[[conn|]|e] w3] eqn:Hgc;
      [| | discriminate Hrun].
    + (* CURRENT is accepted *)
      cbn [ret] in Hrun. unfold bind at 1 in Hrun. unfold ret at 1 in Hrun.
      destruct (get_connection_last_attempt _ _ _ _ _ Hgc) as (t0 & Ht & _ & Hwith).
      destruct Hwith as (Hh & Hu & _).
      apply password_change_run in Hrun as (username & password & escaped & Hu' & Hp' & Htr).
      exists pending_dict, username, password, pending_host.
      split; [reflexivity | split; [exact Hu' | split; [exact Hp' | split; [exact Hph |]]]].
      exists (t1 ++ t2 ++ t0), (s_params conn), (sid conn). right. exists escaped.
      split; [| split].
      * cbn. rewrite Htr, Ht, Ht2, Ht1, <- !app_assoc, drop_app_length. reflexivity.
      * assert (cp_user (s_params conn) = current_username) as -> by congruence.
        assert (username = pending_username) as -> by congruence. exact Heu.
      * assert (cp_host (s_params conn) = current_host) as -> by congruence. exact Heh.
    + (* CURRENT is refused *)
      destruct (trace_grows _ _ _ _ _ (emits_get_connection E current_dict) Hgc)
        as (t3 & Ht3).
      destruct (dict_given previous_dict) as [previous|]; cbn [ret] in Hrun.
      2:{ unfold bind at 1 in Hrun. unfold ret at 1 in Hrun. discriminate Hrun. }
      unfold bind at 1 in Hrun.
      set (previous' := match current_dict !! "ssl" with
                        | Some v => <["ssl" := v]> (delete "ssl" previous)
                        | None => delete "ssl" previous
                        end) in *.
      unfold bind at 1 in Hrun.
      destruct (get_connection E previous' w3) as [[conn|e] w4] eqn:Hgv;
        [| discriminate Hrun].
      unfold bind at 1 in Hrun. unfold subscript at 1 in Hrun.
      destruct (previous' !! "username") as [previous_username|] eqn:Hvun;
        [| discriminate Hrun].
      unfold ret at 1 in Hrun.
      unfold bind at 1 in Hrun. unfold subscript at 1 in Hrun. rewrite Hpun in Hrun.
      unfold ret at 1 in Hrun.
      destruct (py_eq previous_username pending_username) eqn:Hevu; cbn [negb] in Hrun;
        [| discriminate Hrun].
      unfold bind at 1 in Hrun. unfold subscript at 1 in Hrun.
      destruct (previous' !! "host") as [previous_host|] eqn:Hvh; [| discriminate Hrun].
      unfold ret at 1 in Hrun.
      unfold bind at 1 in Hrun. unfold subscript at 1 in Hrun. rewrite Hph in Hrun.
      unfold ret at 1 in Hrun.
      destruct (py_eq previous_host pending_host) eqn:Hevh; cbn [negb] in Hrun;
        [| discriminate Hrun].
      unfold ret at 1 in Hrun.
      destruct conn as [conn|]; [| discriminate Hrun].
      destruct (get_connection_last_attempt _ _ _ _ _ Hgv) as (t0 & Ht & _ & Hwith).
      destruct Hwith as (Hh & Hu & _).
      apply password_change_run in Hrun as (username & password & escaped & Hu' & Hp' & Htr).
      exists pending_dict, username, password, pending_host.
      split; [reflexivity | split; [exact Hu' | split; [exact Hp' | split; [exact Hph |]]]].
      exists (t1 ++ t2 ++ t3 ++ t0), (s_params conn), (sid conn). right. exists escaped.
      split; [| split].
      * cbn. rewrite Htr, Ht, Ht3, Ht2, Ht1, <- !app_assoc, drop_app_length. reflexivity.
      * assert (cp_user (s_params conn) = previous_username) as -> by congruence.
        assert (username = pending_username) as -> by congruence. exact Hevu.
      * assert (cp_host (s_params conn) = previous_host) as -> by congruence. exact Hevh.
Qed.

End SetSecretReturns.

Lemma set_secret_success_witness :
  exists (pending_dict : dict) username password host,
    fst (get_secret_dict (PStr Toy.arn) "AWSPENDING" (Some Toy.v2) false
           (Toy.start Toy.vault_rotating Toy.server_alice)) = Ok pending_dict /\
    pending_dict !! "username" = Some username /\
    pending_dict !! "password" = Some password /\
    pending_dict !! "host" = Some host /\
    exists t p n,
      (events_of (set_secret (Toy.env Toy.no_directory) Toy.arn Toy.v2)
                 (Toy.start Toy.vault_rotating Toy.server_alice)
       = t ++ [EvConnect p (Some n); EvClose n] /\
       attempt_with pending_dict (EvConnect p (Some n))) \/
      (exists escaped,
         events_of (set_secret (Toy.env Toy.no_directory) Toy.arn Toy.v2)
                   (Toy.start Toy.vault_rotating Toy.server_alice)
         = t ++ [EvConnect p (Some n);
                 EvExecute n "SELECT quote_ident(%s)" [username];
                 EvExecute n (String.append (String.append "ALTER USER " escaped)
                                            " WITH PASSWORD %s") [password];
                 EvCommit n; EvClose n] /\
         py_eq (cp_user p) username = true /\ py_eq (cp_host p) host = true).
Proof.
  apply (set_secret_success (Toy.env Toy.no_directory) Toy.arn Toy.v2
           (Toy.start Toy.vault_rotating Toy.server_alice)).
  vm_compute; reflexivity.
Defined.

(** ** The provisioner and the directory *)

Section ProvisionerLogLine.
Context {DB : Type} (E : Env DB).
Implicit Types (w : world DB) (d : dict).

Lemma bind_never_returns {A B} (m : M DB A) (k : A -> M DB B) w :
  (forall a w1, exists e, fst (k a w1) = Raise e) -> exists e, fst (bind m k w) = Raise e.
Proof.
  intros Hk. unfold bind. destruct (m w) as [[a|e] w1]; [apply Hk | exists e; reflexivity].
Qed.

Lemma try_finally_never_returns {A} (m : M DB A) fin w :
  (exists e, fst (m w) = Raise e) -> exists e, fst (try_finally m fin w) = Raise e.
Proof.
  intros [e He]. unfold try_finally. destruct (m w) as [r w1]. cbn in He. subst r.
  destruct (fin w1) as [[[]|e'] w2]; eauto.
Qed.

(** What [get_connection] adds to the trace, call by call. *)
Lemma emits_attempts_get_connection d :
  emits (fun ev => exists port ssl, attempt_of d port (dbname_of d) ssl ev)
        (get_connection E d).
Proof.
  intros w. destruct (get_connection_trace E d w) as (port & t & Ht & _ & _ & _ & _ & Hall & _).
  exists t. split; [exact Ht |].
  eapply Forall_impl; [exact Hall | intros ev [ssl H]; exists port, ssl; exact H].
Qed.

(** The run of lines 545-560 for a child without [dbname]. *)
Lemma provision_run_without_dbname (secret_dict : dict) (conn : session) w r w' :
  secret_dict !! "dbname" = None ->
  (forall s db, fst (conn_commit E s db) = None) ->
  try_finally
    (username ← subscript secret_dict "username";
     rows ← execute E conn "SELECT quote_ident(%s)" [username];
     current_username ← fetchone_0 rows;
     username ← subscript secret_dict "username";
     rows ← execute E conn "SELECT 1 FROM pg_roles where rolname = %s" [username];
     user_created ←
       (if (length rows =? 0)%nat then
          password ← subscript secret_dict "password";
          execute E conn
            (String.append (String.append "CREATE ROLE " current_username)
                           " WITH LOGIN PASSWORD %s")
            [password];;
          ret true
        else ret false);
     commit E conn;;
     subscript secret_dict "dbname";;
     ret user_created)
    (close E conn) w = (r, w') ->
  r = Raise (KeyError "dbname") \/ grows not_commit w w'.
Proof.
  intros Hdb Hcommit Hrun.
  cbv [try_finally execute commit close emit bind subscript] in Hrun.
  rewrite Hdb in Hrun.
  destruct (secret_dict !! "username") as [username|] eqn:Hu; cbv [ret raise] in Hrun.
  2:{ injection Hrun as <- <-. right. eexists. split; [reflexivity |].
      repeat constructor. }
  match type of Hrun with
  | context [cur_execute E conn ?s ?a ?db] =>
      destruct (cur_execute E conn s a db) as [[e|rows] db1]
  end.
  { injection Hrun as <- <-. right. eexists. split; [cbn; rewrite <- !app_assoc; reflexivity |].
    repeat constructor. }
  destruct rows as [|[|current_username row] rows]; cbv [fetchone_0 raise ret] in Hrun;
    try (injection Hrun as <- <-; right; eexists;
         split; [cbn; rewrite <- !app_assoc; reflexivity | repeat constructor]).
  match type of Hrun with
  | context [cur_execute E conn ?s ?a ?db] =>
      destruct (cur_execute E conn s a db) as [[e|rows2] db2]
  end.
  { injection Hrun as <- <-. right. eexists. split; [cbn; rewrite <- !app_assoc; reflexivity |].
    repeat constructor. }
  destruct (length rows2 =? 0)%nat.
  - destruct (secret_dict !! "password") as [password|] eqn:Hp.
    2:{ injection Hrun as <- <-. right. eexists.
        split; [cbn; rewrite <- !app_assoc; reflexivity | repeat constructor]. }
    match type of Hrun with
    | context [cur_execute E conn ?s ?a ?db] =>
        destruct (cur_execute E conn s a db) as [[e|rows3] db3]
    end.
    { injection Hrun as <- <-. right. eexists.
      split; [cbn; rewrite <- !app_assoc; reflexivity | repeat constructor]. }
    match type of Hrun with
    | context [conn_commit E conn ?db] =>
        pose proof (Hcommit conn db) as Hc; destruct (conn_commit E conn db) as [o db4]
    end.
    cbn in Hc. subst o. injection Hrun as <- <-. left. reflexivity.
  - match type of Hrun with
    | context [conn_commit E conn ?db] =>
        pose proof (Hcommit conn db) as Hc; destruct (conn_commit E conn db) as [o db4]
    end.
    cbn in Hc. subst o. injection Hrun as <- <-. left. reflexivity.
Qed.

Lemma create_user_without_dbname_run (secret_dict : dict) w r w' :
  secret_dict !! "dbname" = None ->
  (forall s db, fst (conn_commit E s db) = None) ->
  create_user_if_not_exists E secret_dict w = (r, w') ->
  r = Raise (KeyError "dbname") \/ grows not_commit w w'.
Proof.
  intros Hdb Hcommit Hrun. unfold create_user_if_not_exists in Hrun.
  destruct (get_truthy secret_dict "masterarn");
    [| injection Hrun as <- <-; right; apply grows_refl].
  unfold bind at 1 in Hrun.
  rewrite (silent_run _ w (silent_subscript secret_dict "masterarn")) in Hrun.
  destruct (fst (subscript secret_dict "masterarn" w)) as [master_arn|e];
    [| injection Hrun as <- <-; right; apply grows_refl].
  unfold bind at 1 in Hrun.
  rewrite (silent_run _ w (silent_get_secret_dict master_arn "AWSCURRENT" None true)) in Hrun.
  destruct (fst (get_secret_dict master_arn "AWSCURRENT" None true w)) as [master_dict|e];
    [| injection Hrun as <- <-; right; apply grows_refl].
  cbv zeta in Hrun. unfold bind at 1 in Hrun.
  rewrite (silent_run _ w (silent_subscript secret_dict "host")) in Hrun.
  destruct (fst (subscript secret_dict "host" w)) as [host|e];
    [| injection Hrun as <- <-; right; apply grows_refl].
  unfold bind at 1 in Hrun.
  rewrite (silent_run _ w (silent_subscript _ "host")) in Hrun.
  destruct (fst (subscript (complete_master_dict secret_dict master_dict) "host" w))
    as [master_host|e]; [| injection Hrun as <- <-; right; apply grows_refl].
  unfold bind at 1 in Hrun.
  match type of Hrun with
  | context [match ?m w with _ => _ end] =>
      assert (H1 : grows not_commit w (snd (m w)));
      [| destruct (m w) as [[[]|e] w1]; cbn [snd] in H1;
         [| injection Hrun as <- <-; right; exact H1]]
  end.
  { destruct (negb (py_eq host master_host)); [| apply grows_refl].
    apply emits_bind; [apply emits_is_rds_replica_database; intros; exact I |].
    intros []; [apply emits_ret | apply emits_raise]. }
  unfold bind at 1 in Hrun.
  pose proof (emits_get_connection E (complete_master_dict secret_dict master_dict) w1) as H2.
  destruct (get_connection E (complete_master_dict secret_dict master_dict) w1)
    as [[[conn|]|e] w2]; cbn [snd] in H2.
  - apply provision_run_without_dbname in Hrun as [-> | H3]; [left; reflexivity | | | ];
      try assumption.
    right. eapply grows_trans; [exact H1 |]. eapply grows_trans; [| exact H3].
    eapply grows_weaken; [| exact H2]. intros [| | | | | |] [H _]; cbn in *; first [exact I | discriminate H].
  - injection Hrun as <- <-. right. eapply grows_trans; [exact H1 |].
    eapply grows_weaken; [| exact H2]. intros [| | | | | |] [H _]; cbn in *; first [exact I | discriminate H].
  - injection Hrun as <- <-. right. eapply grows_trans; [exact H1 |].
    eapply grows_weaken; [| exact H2]. intros [| | | | | |] [H _]; cbn in *; first [exact I | discriminate H].
Qed.

(** X17: for a child that names a master secret and has no [dbname],
    [create_user_if_not_exists] never returns: every path to its end passes
    the log line 558, which reads [secret_dict['dbname']].  When commits do
    not fail and the run reached its commit, the exception is that
    [KeyError], raised after the role was looked up, created if missing,
    and committed. *)
Theorem create_user_without_dbname_never_returns (secret_dict : dict) w :
  get_truthy secret_dict "masterarn" = true ->
  secret_dict !! "dbname" = None ->
  (exists e, fst (create_user_if_not_exists E secret_dict w) = Raise e) /\
  ((forall s db, fst (conn_commit E s db) = None) ->
   (exists s, EvCommit s ∈ events_of (create_user_if_not_exists E secret_dict) w) ->
   fst (create_user_if_not_exists E secret_dict w) = Raise (KeyError "dbname")).
Proof.
  intros Hm Hdb. split.
  - unfold create_user_if_not_exists. rewrite Hm. cbv zeta.
    repeat match goal with
           | |- exists e, fst (bind (subscript secret_dict "dbname") _ _) = Raise e =>
               unfold bind, subscript; rewrite Hdb; eexists; reflexivity
           | |- exists e, fst (bind _ _ _) = Raise e => apply bind_never_returns; intros ? ?
           | |- exists e, fst (match ?c with Some _ => _ | None => _ end _) = Raise e =>
               destruct c; [| eexists; reflexivity]
           | |- exists e, fst (try_finally _ _ _) = Raise e => apply try_finally_never_returns
           end.
  - intros Hcommit [s Hs].
    destruct (create_user_if_not_exists E secret_dict w) as [r w'] eqn:Hrun.
    destruct (create_user_without_dbname_run _ _ _ _ Hdb Hcommit Hrun) as [-> | Hg];
      [reflexivity |].
    exfalso. assert (Hg' : grows not_commit w (snd (create_user_if_not_exists E secret_dict w)))
      by (rewrite Hrun; exact Hg).
    apply grows_events_of in Hg' as [_ Hall].
    rewrite Forall_forall in Hall. exact (Hall _ Hs).
Qed.

End ProvisionerLogLine.

Section MasterRecord.
Context {DB : Type} (E : Env DB).
Implicit Types (w : world DB) (d : dict).


(** X19: the master record the provisioner connects with (lines 526-532):
    [dbname] is the child's, or [None] when the child has none; under every
    other key the master's value stays when it is truthy, else the child's
    value is taken when the child has the key, else the master's entry is
    left as it is (absent or falsy). *)
Theorem complete_master_dict_lookup (secret_dict master_dict : dict) k :
  complete_master_dict secret_dict master_dict !! k =
  if decide (k = "dbname") then Some (child_dbname secret_dict)
  else match secret_dict !! k with
       | Some v => if get_truthy master_dict k then master_dict !! k else Some v
       | None => master_dict !! k
       end.
Proof.
  destruct (decide (k = "dbname")) as [-> | Hk].
  - apply complete_master_dict_dbname.
  - rewrite complete_master_dict_other by exact Hk. apply backfill_lookup.
Qed.

(** X20: when the master secret has a truthy [username] and [password],
    every connection the provisioner attempts logs in with them, asks for
    the child's [dbname] (or [None]) and goes to the child's host or to the
    master's. *)
Theorem create_user_logs_in_as_master (secret_dict : dict) w master_arn
    (master_dict : dict) user password :
  secret_dict !! "masterarn" = Some master_arn ->
  fst (get_secret_dict master_arn "AWSCURRENT" None true w) = Ok master_dict ->
  master_dict !! "username" = Some user -> truthy user = true ->
  master_dict !! "password" = Some password -> truthy password = true ->
  Forall (fun ev => forall p o, ev = EvConnect p o ->
                    cp_user p = user /\ cp_password p = password /\
                    cp_database p = child_dbname secret_dict /\
                    (secret_dict !! "host" = Some (cp_host p) \/
                     master_dict !! "host" = Some (cp_host p)))
         (events_of (create_user_if_not_exists E secret_dict) w).
Proof.
  intros Harn Hmd Hu Htu Hp Htp. apply get_secret_dict_run in Hmd.
  apply grows_events_of.
  unfold create_user_if_not_exists.
  destruct (get_truthy secret_dict "masterarn"); [| apply grows_refl].
  apply grows_bind; [apply silent_emits, silent_subscript |].
  intros arn' w1 H1. rewrite (subscript_some _ _ _ _ Harn) in H1. injection H1 as <- <-.
  apply grows_bind; [apply silent_emits, silent_get_secret_dict |].
  intros md w1 H1. rewrite Hmd in H1. injection H1 as <- <-.
  cbv zeta.
  match goal with
  | |- grows ?P ?w0 (snd (?m ?w0)) => cut (emits P m); [intros He; apply He |]
  end.
  assert (Hlook : forall k v, k <> "dbname" -> master_dict !! k = Some v -> truthy v = true ->
                              complete_master_dict secret_dict master_dict !! k = Some v).
  { intros k v Hk Hv Ht. rewrite complete_master_dict_other by exact Hk.
    rewrite backfill_lookup. unfold get_truthy. rewrite Hv, Ht.
    destruct (secret_dict !! k); reflexivity. }
  repeat first
    [ apply emits_is_rds_replica_database; intros ? ? ? H; discriminate H
    | eapply emits_weaken; [| apply emits_attempts_get_connection]
    | apply silent_emits, silent_subscript
    | emits_step ];
    try (intros ? ? H; discriminate H).
  intros [p o| | | | | |] (port & ssl & H) p' o' Heq; cbn in H; try tauto.
  injection Heq as <- <-. destruct H as (Hh' & Hu' & Hp' & Hdb & _).
  rewrite (Hlook "username" user) in Hu' by (assumption || discriminate).
  rewrite (Hlook "password" password) in Hp' by (assumption || discriminate).
  injection Hu' as <-. injection Hp' as <-.
  split; [reflexivity | split; [reflexivity | split]].
  - rewrite Hdb. unfold dbname_of. rewrite complete_master_dict_dbname. reflexivity.
  - rewrite complete_master_dict_other in Hh' by discriminate.
    rewrite backfill_lookup in Hh'.
    destruct (secret_dict !! "host") as [h|] eqn:Hsh.
    + destruct (get_truthy master_dict "host"); [right | left]; exact Hh'.
    + right. exact Hh'.
Qed.

End MasterRecord.

Lemma create_user_without_dbname_never_returns_witness :
  fst (create_user_if_not_exists (Toy.env Toy.no_directory) Toy.child_without_dbname
         (Toy.start Toy.vault_admin_db Toy.admin_server))
  = Raise (KeyError "dbname").
Proof.
  apply (proj2 (create_user_without_dbname_never_returns (Toy.env Toy.no_directory)
                  Toy.child_without_dbname (Toy.start Toy.vault_admin_db Toy.admin_server)
                  ltac:(vm_compute; reflexivity) ltac:(vm_compute; reflexivity))).
  - intros s db. reflexivity.
  - exists O. vm_compute. repeat constructor.
Defined.


Lemma create_user_logs_in_as_master_witness :
  Forall (fun ev => forall p o, ev = EvConnect p o ->
                    cp_user p = PStr "admin" /\ cp_password p = PStr "adm" /\
                    cp_database p = child_dbname Toy.child_without_dbname /\
                    (Toy.child_without_dbname !! "host" = Some (cp_host p) \/
                     (<["dbname" := PStr "admin_db"]> Toy.admin_record) !! "host"
                     = Some (cp_host p)))
         (events_of (create_user_if_not_exists (Toy.env Toy.no_directory)
                       Toy.child_without_dbname)
                    (Toy.start Toy.vault_admin_db Toy.admin_server)).
Proof.
  apply (create_user_logs_in_as_master (Toy.env Toy.no_directory) Toy.child_without_dbname
           (Toy.start Toy.vault_admin_db Toy.admin_server) (PStr Toy.master)
           (<["dbname" := PStr "admin_db"]> Toy.admin_record) (PStr "admin") (PStr "adm"));
    [vm_compute; reflexivity | vm_compute; reflexivity | vm_compute; reflexivity
    | reflexivity | vm_compute; reflexivity | reflexivity].
Defined.

(** ** The vault steps *)

Section CreateSecretEffects.
Context {DB : Type} (E : Env DB).
Implicit Types (w : world DB) (d : dict).

(** X21: [create_secret] never touches the server or the sessions.  It
    either does nothing at all, or it found CURRENT valid and no PENDING
    for the token, and its one call is a [put_secret_value] for the token,
    staged [AWSPENDING] only, of CURRENT's dictionary with [password]
    replaced by the password drawn with the characters of
    [EXCLUDE_CHARACTERS] (or the default ones) excluded. *)
Theorem create_secret_puts_current_with_new_password arn token w :
  let run := create_secret E arn token w in
  let passwd := get_random_password E
                  (default default_exclude_characters (w_environ w !! "EXCLUDE_CHARACTERS"))
                  (w_drawn w) in
  w_db (snd run) = w_db w /\ w_open (snd run) = w_open w /\
  ((events_of (create_secret E arn token) w = [] /\ w_vault (snd run) = w_vault w /\
    w_drawn (snd run) = w_drawn w) \/
   (exists current_dict : dict,
      fst (get_secret_dict (PStr arn) "AWSCURRENT" None false w) = Ok current_dict /\
      fst (get_secret_dict (PStr arn) "AWSPENDING" (Some token) false w)
      = Raise ResourceNotFoundException /\
      events_of (create_secret E arn token) w
      = [EvPutSecretValue arn token (Json (<["password" := PStr passwd]> current_dict))
                          ["AWSPENDING"]] /\
      w_drawn (snd run) = S (w_drawn w))).
Proof.
  intros run passwd. subst run. unfold events_of.
  destruct (create_secret E arn token w) as [r w'] eqn:Hrun. cbn [fst snd].
  unfold create_secret in Hrun. unfold bind at 1 in Hrun.
  rewrite (silent_run _ w (silent_get_secret_dict (PStr arn) "AWSCURRENT" None false)) in Hrun.
  destruct (fst (get_secret_dict (PStr arn) "AWSCURRENT" None false w))
    as [current_dict|e].
  2:{ injection Hrun as <- <-. rewrite drop_all. auto 10. }
  unfold try_except in Hrun. unfold bind at 1 in Hrun.
  rewrite (silent_run _ w (silent_get_secret_dict (PStr arn) "AWSPENDING" (Some token) false))
    in Hrun.
  destruct (fst (get_secret_dict (PStr arn) "AWSPENDING" (Some token) false w))
    as [pending_dict|e].
  { injection Hrun as <- <-. rewrite drop_all. auto 10. }
  destruct e; try (injection Hrun as <- <-; rewrite drop_all; auto 10).
  cbv [bind environ_get random_password put_secret_value emit] in Hrun.
  cbn [w_vault w_drawn w_environ w_trace set_trace set_drawn] in Hrun.
  assert (Hw : w_db w' = w_db w /\ w_open w' = w_open w /\
               w_trace w' = w_trace w ++
                 [EvPutSecretValue arn token (Json (<["password" := PStr passwd]> current_dict))
                                   ["AWSPENDING"]] /\
               w_drawn w' = S (w_drawn w)).
  { destruct (w_vault w !! arn) as [s|]; [| injection Hrun as <- <-; auto].
    destruct (find_version token (s_versions s)) as [[stages [old|]]|];
      [destruct (decide (old = _)) | |]; injection Hrun as <- <-; auto. }
  destruct Hw as (Hdb & Ho & Ht & Hd).
  split; [exact Hdb | split; [exact Ho | right]].
  exists current_dict. rewrite Ht, drop_app_length. auto.
Qed.

End CreateSecretEffects.

Section FinishSecretTwice.
Context {DB : Type}.
Implicit Types (w : world DB) (vs : list (string * secret_version)) (v : secret_version).

Lemma finish_secret_staged arn token w sec v :
  w_vault w !! arn = Some sec ->
  staged_versions "AWSCURRENT" sec = [(token, v)] ->
  finish_secret arn token w = (Ok tt, w).
Proof.
  intros Hsec Hst. unfold finish_secret.
  assert (Hdesc : describe_secret arn w = (Ok sec, w))
    by (unfold describe_secret; rewrite Hsec; reflexivity).
  rewrite (bind_ok _ _ _ _ _ Hdesc), scan_current_first, find_staged_head.
  unfold staged_versions in Hst. rewrite Hst. cbn [head]. rewrite String.eqb_refl.
  reflexivity.
Qed.

(** What a call of [finish_secret] that returned leaves behind. *)
Lemma finish_secret_post arn token w w1 sec :
  w_vault w !! arn = Some sec ->
  well_staged "AWSCURRENT" sec ->
  finish_secret arn token w = (Ok tt, w1) ->
  exists sec1 v, w_vault w1 !! arn = Some sec1 /\
                 staged_versions "AWSCURRENT" sec1 = [(token, v)] /\
                 well_staged "AWSCURRENT" sec1 /\
                 s_rotation_enabled sec1 = s_rotation_enabled sec /\
                 w_db w1 = w_db w /\ w_open w1 = w_open w /\ w_environ w1 = w_environ w.
Proof.
  intros Hsec Hwell Hrun.
  assert (Hdesc : describe_secret arn w = (Ok sec, w))
    by (unfold describe_secret; rewrite Hsec; reflexivity).
  unfold finish_secret in Hrun.
  rewrite (bind_ok _ _ _ _ _ Hdesc), scan_current_first in Hrun.
  destruct (find_staged "AWSCURRENT" (s_versions sec)) as [[k v]|] eqn:Hfs.
  - destruct (String.eqb_spec k token) as [->|Hne].
    + injection Hrun as <-. exists sec, v.
      split; [exact Hsec | split; [| split; [exact Hwell | auto]]].
      destruct Hwell as [_ Hle]. rewrite find_staged_head in Hfs.
      unfold staged_versions in *.
      destruct (filter _ (s_versions sec)) as [|x [|y l]]; cbn in *;
        [discriminate Hfs | congruence | lia].
    + unfold update_secret_version_stage, bind, emit in Hrun.
      cbn [w_vault set_trace] in Hrun. rewrite Hsec in Hrun.
      destruct (find_version token (s_versions sec)) as [v'|] eqn:Hf;
        [| discriminate Hrun].
      rewrite decide_False in Hrun by discriminate.
      rewrite Hfs in Hrun. cbn [fmap option_fmap option_map fst] in Hrun.
      rewrite decide_True in Hrun by reflexivity.
      injection Hrun as <-. cbn [w_vault set_vault set_trace w_db w_open w_environ].
      destruct Hwell as [Hnd Hle].
      assert (Hst : filter (fun kv => has_stage "AWSCURRENT" (snd kv) = true)
                           (move_stage "AWSCURRENT" token (Some k) (s_versions sec))
                    = [(token, with_stages ["AWSCURRENT"] v')]).
      { apply staged_move_stage; [exact Hnd | exact Hf |].
        intros k0 v0 Hin Hs. right.
        pose proof (staged_is_first "AWSCURRENT" sec k0 v0 (conj Hnd Hle) Hin Hs) as H0.
        congruence. }
      eexists _, _. split; [apply lookup_insert_eq |].
      split; [exact Hst | split; [| auto]].
      split; cbn [s_versions].
      * rewrite move_stage_keys. exact Hnd.
      * unfold staged_versions. cbn [s_versions]. rewrite Hst. cbn. lia.
  - unfold update_secret_version_stage, bind, emit in Hrun.
    cbn [w_vault set_trace] in Hrun. rewrite Hsec in Hrun.
    destruct (find_version token (s_versions sec)); [| discriminate Hrun].
    rewrite decide_True in Hrun by reflexivity. discriminate Hrun.
Qed.

(** X22: [finish_secret] is idempotent on a well-staged secret: after a
    call that returned, the token's version is the only one staged
    [AWSCURRENT], the secret is still well staged, the server and the
    sessions are untouched, and a second call returns without a call to
    the vault. *)
Theorem finish_secret_idempotent arn token w w1 sec :
  w_vault w !! arn = Some sec ->
  well_staged "AWSCURRENT" sec ->
  finish_secret arn token w = (Ok tt, w1) ->
  finish_secret arn token w1 = (Ok tt, w1) /\
  events_of (finish_secret arn token) w1 = [] /\
  (exists sec1 v, w_vault w1 !! arn = Some sec1 /\
                  staged_versions "AWSCURRENT" sec1 = [(token, v)] /\
                  well_staged "AWSCURRENT" sec1) /\
  w_db w1 = w_db w /\ w_open w1 = w_open w.
Proof.
  intros Hsec Hwell Hrun.
  destruct (finish_secret_post _ _ _ _ _ Hsec Hwell Hrun)
    as (sec1 & v & Hsec1 & Hst & Hwell1 & _ & Hdb & Ho & _).
  pose proof (finish_secret_staged arn token w1 sec1 v Hsec1 Hst) as Hagain.
  split; [exact Hagain | split; [| split; [eauto | auto]]].
  apply (events_of_grows (fun _ => True)). rewrite Hagain. symmetry. apply app_nil_r.
Qed.

End FinishSecretTwice.

Lemma finish_secret_idempotent_witness :
  let w := Toy.start {[ Toy.arn := Toy.secret_mismatch ]} Toy.server_bob in
  let w1 := snd (finish_secret Toy.arn Toy.v2 w) in
  finish_secret Toy.arn Toy.v2 w1 = (Ok tt, w1).
Proof.
  cbv zeta.
  eapply proj1, (finish_secret_idempotent Toy.arn Toy.v2
                   (Toy.start {[ Toy.arn := Toy.secret_mismatch ]} Toy.server_bob)).
  - vm_compute; reflexivity.
  - split; [apply (bool_decide_unpack _); vm_compute; reflexivity | vm_compute; lia].
  - vm_compute; reflexivity.
Defined.

(** ** [lambda_handler] *)

Lemma py_eq_str (v : pyval) (s : string) : py_eq v (PStr s) = true -> v = PStr s.
Proof.
  destruct v as [| b | z | t]; cbn; try discriminate.
  intros H. apply String.eqb_eq in H. congruence.
Qed.

Section HandlerChecks.
Context {DB : Type} (E : Env DB) (client_error : string -> option exn).
Implicit Types (w : world DB) (event : dict).

(** The checks of [lambda_handler] before a step is called (lines 49-75),
    when they pass. *)
Lemma lambda_handler_checked event w arn token step endpoint sec stages :
  event !! "SecretId" = Some (PStr arn) ->
  event !! "ClientRequestToken" = Some (PStr token) ->
  event !! "Step" = Some step ->
  w_environ w !! "SECRETS_MANAGER_ENDPOINT" = Some endpoint ->
  client_error endpoint = None ->
  w_vault w !! arn = Some sec ->
  s_rotation_enabled sec <> Some false ->
  find_version token (s_versions sec) = Some stages ->
  lambda_handler E client_error event w =
  if has_stage "AWSCURRENT" stages then (Returned, w)
  else if negb (has_stage "AWSPENDING" stages) then (Refused (NotSetAsPending token arn), w)
  else if py_eq step (PStr "createSecret") then run_step (create_secret E arn token) w
  else if py_eq step (PStr "setSecret") then run_step (set_secret E arn token) w
  else if py_eq step (PStr "testSecret") then run_step (test_secret E arn token) w
  else if py_eq step (PStr "finishSecret") then run_step (finish_secret arn token) w
  else (Refused (InvalidStepParameter step arn), w).
Proof.
  intros Ha Ht Hs He Hc Hsec Hrot Hf. unfold lambda_handler, describe_secret, version_of.
  rewrite Ha, Ht, Hs, He, Hc, Hsec, Hf.
  rewrite bool_decide_eq_false_2 by exact Hrot. reflexivity.
Qed.

(** X23: [lambda_handler] leaves the world as it is unless it calls a
    step, and it calls one only for a secret whose rotation is not disabled
    and a token whose version is staged [AWSPENDING] and not [AWSCURRENT];
    what the invocation does is then what [create_secret], [set_secret],
    [test_secret] or [finish_secret] does for that secret and token. *)
Theorem lambda_handler_runs_a_step_only_for_pending event w :
  snd (lambda_handler E client_error event w) = w \/
  exists arn token sec stages step,
    event !! "SecretId" = Some (PStr arn) /\
    event !! "ClientRequestToken" = Some (PStr token) /\
    w_vault w !! arn = Some sec /\
    s_rotation_enabled sec <> Some false /\
    find_version token (s_versions sec) = Some stages /\
    has_stage "AWSPENDING" stages = true /\ has_stage "AWSCURRENT" stages = false /\
    lambda_handler E client_error event w = run_step step w /\
    ((event !! "Step" = Some (PStr "createSecret") /\ step = create_secret E arn token) \/
     (event !! "Step" = Some (PStr "setSecret") /\ step = set_secret E arn token) \/
     (event !! "Step" = Some (PStr "testSecret") /\ step = test_secret E arn token) \/
     (event !! "Step" = Some (PStr "finishSecret") /\ step = finish_secret arn token)).
Proof.
  unfold lambda_handler, describe_secret, version_of.
  destruct (event !! "SecretId") as [arn|] eqn:Ha; [| left; reflexivity].
  destruct (event !! "ClientRequestToken") as [token|] eqn:Ht; [| left; reflexivity].
  destruct (event !! "Step") as [step|] eqn:Hs; [| left; reflexivity].
  destruct (w_environ w !! "SECRETS_MANAGER_ENDPOINT") as [endpoint|]; [| left; reflexivity].
  destruct (client_error endpoint); [left; reflexivity |].
  destruct arn as [| | | arn]; try (left; reflexivity).
  destruct (w_vault w !! arn) as [sec|] eqn:Hsec; [| left; reflexivity].
  destruct (bool_decide (s_rotation_enabled sec = Some false)) eqn:Hrot;
    [left; reflexivity |].
  apply bool_decide_eq_false in Hrot.
  destruct token as [| | | token]; try (left; reflexivity).
  destruct (find_version token (s_versions sec)) as [stages|] eqn:Hf; [| left; reflexivity].
  destruct (has_stage "AWSCURRENT" stages) eqn:Hcur; [left; reflexivity |].
  destruct (has_stage "AWSPENDING" stages) eqn:Hpen; cbn [negb]; [| left; reflexivity].
  destruct (py_eq step (PStr "createSecret")) eqn:H1.
  { apply py_eq_str in H1 as ->.
    right. exists arn, token, sec, stages, (create_secret E arn token).
    repeat (split; [first [reflexivity | assumption] |]). left; split; reflexivity. }
  destruct (py_eq step (PStr "setSecret")) eqn:H2.
  { apply py_eq_str in H2 as ->.
    right. exists arn, token, sec, stages, (set_secret E arn token).
    repeat (split; [first [reflexivity | assumption] |]). right; left; split; reflexivity. }
  destruct (py_eq step (PStr "testSecret")) eqn:H3.
  { apply py_eq_str in H3 as ->.
    right. exists arn, token, sec, stages, (test_secret E arn token).
    repeat (split; [first [reflexivity | assumption] |]). right; right; left; split; reflexivity. }
  destruct (py_eq step (PStr "finishSecret")) eqn:H4.
  { apply py_eq_str in H4 as ->.
    right. exists arn, token, sec, stages, (finish_secret arn token).
    repeat (split; [first [reflexivity | assumption] |]). right; right; right; split; reflexivity. }
  left. reflexivity.
Qed.

(** X24: the [ValueError]s of [lambda_handler] are raised before anything
    is done, in the order of the checks: rotation is disabled; else the
    token is no version of the secret; else its version is staged neither
    [AWSCURRENT] nor [AWSPENDING]; else, for a version staged [AWSPENDING]
    and not [AWSCURRENT], the step is none of the four. *)
Theorem lambda_handler_refusals event w e :
  fst (lambda_handler E client_error event w) = Refused e ->
  snd (lambda_handler E client_error event w) = w /\
  exists arn sec,
    event !! "SecretId" = Some (PStr arn) /\ w_vault w !! arn = Some sec /\
    match e with
    | NotEnabledForRotation a => a = arn /\ s_rotation_enabled sec = Some false
    | NoStageForRotation token a =>
        a = arn /\ event !! "ClientRequestToken" = Some token /\
        s_rotation_enabled sec <> Some false /\
        forall t, token = PStr t -> find_version t (s_versions sec) = None
    | NotSetAsPending token a =>
        a = arn /\ event !! "ClientRequestToken" = Some (PStr token) /\
        exists stages, find_version token (s_versions sec) = Some stages /\
                       has_stage "AWSCURRENT" stages = false /\
                       has_stage "AWSPENDING" stages = false
    | InvalidStepParameter step a =>
        a = arn /\ event !! "Step" = Some step /\
        (forall name, name ∈ ["createSecret"; "setSecret"; "testSecret"; "finishSecret"] ->
                      step <> PStr name) /\
        exists token stages,
          event !! "ClientRequestToken" = Some (PStr token) /\
          find_version token (s_versions sec) = Some stages /\
          has_stage "AWSCURRENT" stages = false /\ has_stage "AWSPENDING" stages = true
    end.
Proof.
  unfold lambda_handler, describe_secret, version_of.
  destruct (event !! "SecretId") as [arn|] eqn:Ha; [| discriminate].
  destruct (event !! "ClientRequestToken") as [token|] eqn:Ht; [| discriminate].
  destruct (event !! "Step") as [step|] eqn:Hs; [| discriminate].
  destruct (w_environ w !! "SECRETS_MANAGER_ENDPOINT") as [endpoint|]; [| discriminate].
  destruct (client_error endpoint); [discriminate |].
  destruct arn as [| | | arn]; try discriminate.
  destruct (w_vault w !! arn) as [sec|] eqn:Hsec; [| discriminate].
  destruct (bool_decide (s_rotation_enabled sec = Some false)) eqn:Hrot.
  { apply bool_decide_eq_true in Hrot. intros [= <-].
    split; [reflexivity |]. exists arn, sec. auto. }
  apply bool_decide_eq_false in Hrot.
  destruct (match token with
            | PStr t => match find_version t (s_versions sec) with
                        | Some v => Some (t, v)
                        | None => None
                        end
            | _ => None
            end) as [[t stages]|] eqn:Hv.
  2:{ intros [= <-]. split; [reflexivity |]. exists arn, sec.
      split; [reflexivity | split; [exact Hsec |]].
      split; [reflexivity | split; [reflexivity | split; [exact Hrot |]]].
      intros t ->. destruct (find_version t (s_versions sec)); [discriminate Hv | reflexivity]. }
  destruct token as [| | | token]; try discriminate Hv.
  destruct (find_version token (s_versions sec)) as [stages'|] eqn:Hf; [| discriminate Hv].
  injection Hv as <- <-.
  destruct (has_stage "AWSCURRENT" stages') eqn:Hcur; [discriminate |].
  destruct (has_stage "AWSPENDING" stages') eqn:Hpen; cbn [negb].
  2:{ intros [= <-]. split; [reflexivity |]. exists arn, sec.
      split; [reflexivity | split; [exact Hsec |]].
      split; [reflexivity | split; [reflexivity |]]. exists stages'. auto. }
  unfold run_step.
  destruct (py_eq step (PStr "createSecret")) eqn:H1.
  { destruct (create_secret E arn token w) as [[[]|?] ?]; discriminate. }
  destruct (py_eq step (PStr "setSecret")) eqn:H2.
  { destruct (set_secret E arn token w) as [[[]|?] ?]; discriminate. }
  destruct (py_eq step (PStr "testSecret")) eqn:H3.
  { destruct (test_secret E arn token w) as [[[]|?] ?]; discriminate. }
  destruct (py_eq step (PStr "finishSecret")) eqn:H4.
  { destruct (finish_secret arn token w) as [[[]|?] ?]; discriminate. }
  intros [= <-]. split; [reflexivity |]. exists arn, sec.
  split; [reflexivity | split; [exact Hsec |]].
  split; [reflexivity | split; [reflexivity | split]].
  - intros name Hin ->. cbn [py_eq] in H1, H2, H3, H4.
    apply String.eqb_neq in H1, H2, H3, H4.
    repeat (apply elem_of_cons in Hin as [-> | Hin]; [congruence |]).
    inversion Hin.
  - exists token, stages'. auto.
Qed.

(** X25: once a [finishSecret] invocation has returned for a well-staged
    secret, every later invocation for the same secret and token returns
    at once, whatever its step, and changes nothing. *)
Theorem lambda_handler_after_finish_secret event w w1 arn token sec :
  event !! "SecretId" = Some (PStr arn) ->
  event !! "ClientRequestToken" = Some (PStr token) ->
  event !! "Step" = Some (PStr "finishSecret") ->
  w_vault w !! arn = Some sec ->
  well_staged "AWSCURRENT" sec ->
  lambda_handler E client_error event w = (Returned, w1) ->
  forall step, lambda_handler E client_error (<["Step" := step]> event) w1 = (Returned, w1).
Proof.
  intros Ha Ht Hs Hsec Hwell Hrun step.
  assert (Hcur : forall w0 sec0 stages endpoint,
             w_environ w0 !! "SECRETS_MANAGER_ENDPOINT" = Some endpoint ->
             client_error endpoint = None ->
             w_vault w0 !! arn = Some sec0 -> s_rotation_enabled sec0 <> Some false ->
             find_version token (s_versions sec0) = Some stages ->
             has_stage "AWSCURRENT" stages = true ->
             lambda_handler E client_error (<["Step" := step]> event) w0 = (Returned, w0)).
  { intros w0 sec0 stages endpoint He Hc Hsec0 Hrot Hf Hst.
    rewrite (lambda_handler_checked _ w0 arn token step endpoint sec0 stages);
      [rewrite Hst; reflexivity | | | | | | | |]; try assumption.
    - rewrite lookup_insert_ne by discriminate. exact Ha.
    - rewrite lookup_insert_ne by discriminate. exact Ht.
    - apply lookup_insert_eq. }
  unfold lambda_handler, describe_secret, version_of in Hrun.
  rewrite Ha, Ht, Hs, Hsec in Hrun.
  destruct (w_environ w !! "SECRETS_MANAGER_ENDPOINT") as [endpoint|] eqn:He;
    [| discriminate Hrun].
  destruct (client_error endpoint) eqn:Hc; [discriminate Hrun |].
  destruct (bool_decide (s_rotation_enabled sec = Some false)) eqn:Hrot;
    [discriminate Hrun |].
  apply bool_decide_eq_false in Hrot.
  destruct (find_version token (s_versions sec)) as [stages|] eqn:Hf; [| discriminate Hrun].
  destruct (has_stage "AWSCURRENT" stages) eqn:Hst.
  { injection Hrun as <-. eapply Hcur; eassumption. }
  destruct (has_stage "AWSPENDING" stages); cbn [negb] in Hrun; [| discriminate Hrun].
  cbn [py_eq String.eqb Ascii.eqb Bool.eqb] in Hrun. unfold run_step in Hrun.
  destruct (finish_secret arn token w) as [[[]|e] w'] eqn:Hfin; [| discriminate Hrun].
  injection Hrun as ->.
  destruct (finish_secret_post _ _ _ _ _ Hsec Hwell Hfin)
    as (sec1 & v & Hsec1 & Hst1 & [Hnd1 _] & Hrot1 & _ & _ & Henv).
  assert (Hin : (token, v) ∈ staged_versions "AWSCURRENT" sec1) by (rewrite Hst1; left).
  apply list_elem_of_filter in Hin as [Hs1 Hin]. cbn [snd] in Hs1.
  eapply (Hcur w1 sec1 v endpoint); try assumption.
  - rewrite Henv. exact He.
  - rewrite Hrot1. exact Hrot.
  - apply find_version_NoDup; assumption.
Qed.

End HandlerChecks.

Lemma lambda_handler_refusals_witness :
  let w := Toy.deployed Toy.vault_rotating Toy.server_alice in
  snd (lambda_handler (Toy.env Toy.no_directory) Toy.any_endpoint
         (Toy.rotation_event "rotateSecret") w) = w.
Proof.
  cbv zeta.
  eapply proj1, (lambda_handler_refusals (Toy.env Toy.no_directory) Toy.any_endpoint
                   (Toy.rotation_event "rotateSecret")
                   (Toy.deployed Toy.vault_rotating Toy.server_alice)
                   (InvalidStepParameter (PStr "rotateSecret") Toy.arn)).
  vm_compute; reflexivity.
Defined.

Lemma lambda_handler_after_finish_secret_witness :
  let E := Toy.env Toy.no_directory in
  let w1 := snd (lambda_handler E Toy.any_endpoint (Toy.rotation_event "finishSecret")
                   (Toy.deployed Toy.vault_rotating Toy.server_rotated)) in
  lambda_handler E Toy.any_endpoint
    (<["Step" := PStr "createSecret"]> (Toy.rotation_event "finishSecret")) w1
  = (Returned, w1).
Proof.
  cbv zeta.
  apply (lambda_handler_after_finish_secret (Toy.env Toy.no_directory) Toy.any_endpoint
           (Toy.rotation_event "finishSecret")
           (Toy.deployed Toy.vault_rotating Toy.server_rotated) _ Toy.arn Toy.v2
           {| s_rotation_enabled := Some true;
              s_versions :=
                [(Toy.v1, Toy.version ["AWSCURRENT"] (Toy.record "db.example" "alice" "p1"));
                 (Toy.v2, Toy.version ["AWSPENDING"] (Toy.record "db.example" "alice" "p2"))]
           |}).
  - vm_compute; reflexivity.
  - vm_compute; reflexivity.
  - vm_compute; reflexivity.
  - vm_compute; reflexivity.
  - split; [apply (bool_decide_unpack _); vm_compute; reflexivity | vm_compute; lia].
  - vm_compute; reflexivity.
Defined.
